(** * ICS class-schedule analyzer: title parsing, classification, aggregation

    A shallow embedding of [src/ics_analyzer_simple.py] ([SimpleICSAnalyzer])
    and of [src/ics_analyzer.py] ([ICSAnalyzer]), and the properties of the
    specification checked against them.

    Python strings are sequences of Unicode code points; they are modelled
    as lists of code points.  The regular expressions of the two
    [parse_event_title] methods are kept as data and run by a backtracking
    matcher with the priorities of Python's [re] module (lazy and greedy
    repetition, ordered alternation, capture groups).  The objects that
    [ICSAnalyzer._process_event] gets from the [icalendar] library are
    taken through an interface, and a call of that method returns or
    raises, leaving the analyzer in a state either way. *)

From Stdlib Require Import ZArith NArith List Bool Lia.
From Stdlib Require Import Strings.String Strings.Ascii.
From Stdlib Require DecimalString DecimalPos DecimalZ.
From stdpp Require Import base option list gmap.

Import ListNotations.
Local Open Scope N_scope.

(** ** Python strings *)

Module Py.

(** A code point, and a [str]. *)
Definition cp := N.
Definition str := list cp.

(** Decoding of a UTF-8 byte sequence; used only to write string literals
    of the source (which is UTF-8 encoded) in this file. *)
Fixpoint decode_utf8 (bs : list N) : str :=
  match bs with
  | [] => []
  | b0 :: r0 =>
    if b0 <? 128 then b0 :: decode_utf8 r0
    else match r0 with
    | [] => []
    | b1 :: r1 =>
      if b0 <? 224 then
        N.lor (N.shiftl (N.land b0 31) 6) (N.land b1 63) :: decode_utf8 r1
      else match r1 with
      | [] => []
      | b2 :: r2 =>
        if b0 <? 240 then
          N.lor (N.shiftl (N.land b0 15) 12)
            (N.lor (N.shiftl (N.land b1 63) 6) (N.land b2 63)) :: decode_utf8 r2
        else match r2 with
        | [] => []
        | b3 :: r3 =>
          N.lor (N.shiftl (N.land b0 7) 18)
            (N.lor (N.shiftl (N.land b1 63) 12)
              (N.lor (N.shiftl (N.land b2 63) 6) (N.land b3 63))) :: decode_utf8 r3
        end
      end
    end
  end.

Definition utf8 (s : string) : str :=
  decode_utf8 (map N_of_ascii (list_ascii_of_string s)).

(** The code point of an ASCII character. *)
Definition chr (a : ascii) : cp := N_of_ascii a.

(** [str.isspace()] of a one-character string, which is also what [\s]
    matches in a [str] pattern and what [str.strip()] removes: the code
    points CPython lists as whitespace (bidirectional type WS, B or S, or
    category Zs). *)
Definition isspace (c : cp) : bool :=
  ((9 <=? c) && (c <=? 13)) || ((28 <=? c) && (c <=? 32))
  || (c =? 133) || (c =? 160) || (c =? 5760)
  || ((8192 <=? c) && (c <=? 8202))
  || (c =? 8232) || (c =? 8233) || (c =? 8239) || (c =? 8287) || (c =? 12288).

(** [s.lstrip()], [s.rstrip()], [s.strip()]. *)
Fixpoint lstrip (s : str) : str :=
  match s with
  | c :: s' => if isspace c then lstrip s' else s
  | [] => []
  end.

Definition rstrip (s : str) : str := rev (lstrip (rev s)).

Definition strip (s : str) : str := rstrip (lstrip s).

(** [s.startswith(p)] and [p in s]. *)
Fixpoint startswith (s p : str) : bool :=
  match p, s with
  | [], _ => true
  | a :: p', b :: s' => (a =? b) && startswith s' p'
  | _ :: _, [] => false
  end.

Fixpoint contains (p s : str) : bool :=
  startswith s p ||
  match s with
  | [] => false
  | _ :: s' => contains p s'
  end.

(** [s.split(sep)] for a separator [sep] of one character: the pieces
    between the occurrences of [sep], at least one piece. *)
Fixpoint split_char (sep : cp) (s : str) : list str :=
  match s with
  | [] => [[]]
  | c :: s' =>
    if c =? sep then [] :: split_char sep s'
    else
      match split_char sep s' with
      | piece :: pieces => (c :: piece) :: pieces
      | [] => [[c]]
      end
  end.

(** [s.split(sep, 1)] for a separator of one character: what is before
    the first [sep] and what is after it, or [s] alone when it has no
    [sep]. *)
Fixpoint split_char_1 (sep : cp) (s : str) : list str :=
  match s with
  | [] => [[]]
  | c :: s' =>
    if c =? sep then [[]; s']
    else
      match split_char_1 sep s' with
      | piece :: pieces => (c :: piece) :: pieces
      | [] => [[c]]
      end
  end.

(** [str(n)] of an integer, which is also how an f-string formats it: the
    decimal digits, after a minus sign for a negative number. *)
Definition str_of_int (n : Z) : str :=
  map N_of_ascii
    (list_ascii_of_string (DecimalString.NilZero.string_of_int (Z.to_int n))).

(** Truth value of an [Optional[str]]: [None] and the empty string are
    false. *)
Definition truthy (o : option str) : bool :=
  match o with
  | Some (_ :: _) => true
  | _ => false
  end.

Definition is_ascii (c : cp) : bool := c <? 128.

Definition ascii_lower (c : cp) : cp :=
  if (65 <=? c) && (c <=? 90) then c + 32 else c.

Definition ascii_isdigit (c : cp) : bool := (48 <=? c) && (c <=? 57).

(** The builtins whose result depends on the Unicode character database
    of the interpreter: [str.lower], [str.isdigit] and [int].  They are
    taken as an interface; the laws fix them on ASCII text, where every
    CPython version agrees.  [int_] returns [None] where [int] raises
    [ValueError]. *)
Class Builtins := {
  lower : str -> str;
  isdigit : cp -> bool;
  int_ : str -> option Z;
  lower_ascii : forall s, forallb is_ascii s = true -> lower s = map ascii_lower s;
  isdigit_ascii : forall c, is_ascii c = true -> isdigit c = ascii_isdigit c;
  int_empty : int_ [] = None;
  int_digit : forall a, ascii_isdigit a = true -> int_ [a] = Some (Z.of_N (a - 48));
  int_digits : forall a b, ascii_isdigit a = true -> ascii_isdigit b = true ->
    int_ [a; b] = Some (Z.of_N (10 * (a - 48) + (b - 48)))
}.

(** The builtins restricted to ASCII: letters A-Z are the only cased
    characters, 0-9 the only digits, and [int] reads one or two decimal
    digits.  It agrees with CPython on all the concrete inputs used below. *)
Definition ascii_int (s : str) : option Z :=
  match s with
  | [a] => if ascii_isdigit a then Some (Z.of_N (a - 48)) else None
  | [a; b] =>
    if ascii_isdigit a && ascii_isdigit b
    then Some (Z.of_N (10 * (a - 48) + (b - 48))) else None
  | _ => None
  end.

#[export] Program Instance ascii_builtins : Builtins := {|
  lower := map ascii_lower;
  isdigit := ascii_isdigit;
  int_ := ascii_int
|}.
Next Obligation. reflexivity. Qed.
Next Obligation. reflexivity. Qed.
Next Obligation. reflexivity. Qed.
Next Obligation. intros a Ha. simpl. rewrite Ha. reflexivity. Qed.
Next Obligation. intros a b Ha Hb. simpl. rewrite Ha, Hb. reflexivity. Qed.

End Py.
Export Py.

(** ** Regular expressions, as Python's [re] runs them *)

Module Re.

(** Character classes: [.] (anything but a newline), [\s], and a set
    [[...]]. *)
Inductive cls :=
| CAny
| CSpace
| CSet (l : str).

Definition in_cls (k : cls) (c : cp) : bool :=
  match k with
  | CAny => negb (c =? 10)
  | CSpace => isspace c
  | CSet l => existsb (N.eqb c) l
  end.

(** The fragment of the pattern language the source uses.  Repetition is
    only ever applied to a character class. *)
Inductive regex :=
| Bol                          (* ^ *)
| Eol                          (* $ *)
| Lit (l : str)                (* literal text *)
| Cls (k : cls)                (* one character of a class *)
| Star (k : cls)               (* k*  greedy *)
| Plus (k : cls)               (* k+  greedy *)
| PlusLazy (k : cls)           (* k+? lazy *)
| Group (g : nat) (r : regex)  (* ( r ), numbered g *)
| Alt (r1 r2 : regex)          (* r1|r2 *)
| Seq (r1 r2 : regex).         (* r1 r2 *)

(** The groups captured so far, most recent first. *)
Definition caps := list (nat * str).

(** What a match consumed: [s] was the input when it started, [s'] is what
    is left. *)
Definition taken (s s' : str) : str := firstn (length s - length s') s.

Fixpoint strip_prefix (p s : str) : option str :=
  match p, s with
  | [], _ => Some s
  | a :: p', b :: s' => if a =? b then strip_prefix p' s' else None
  | _ :: _, [] => None
  end.

Section Matcher.
Context {A : Type}.

(** [k*] greedy: the longest run first, then shorter ones. *)
Fixpoint star_greedy (k : cls) (cont : str -> option A) (s : str) : option A :=
  match s with
  | c :: s' =>
    if in_cls k c then
      match star_greedy k cont s' with
      | Some a => Some a
      | None => cont s
      end
    else cont s
  | [] => cont s
  end.

(** [k*?] lazy: the shortest run first, then longer ones. *)
Fixpoint star_lazy (k : cls) (cont : str -> option A) (s : str) : option A :=
  match cont s with
  | Some a => Some a
  | None =>
    match s with
    | c :: s' => if in_cls k c then star_lazy k cont s' else None
    | [] => None
    end
  end.

(** The backtracking matcher, in continuation-passing style: [exec n0 r
    cont s c] matches [r] at the front of [s] and hands the rest and the
    captures to [cont]; when [cont] fails it tries the next way of matching
    [r], in the order of Python's [re].  [n0] is the length of the whole
    subject string (for [^]). *)
Fixpoint exec (n0 : nat) (r : regex) (cont : str -> caps -> option A)
    (s : str) (c : caps) : option A :=
  match r with
  | Bol => if Nat.eqb (length s) n0 then cont s c else None
  | Eol =>
    match s with
    | [] => cont s c
    | [10] => cont s c
    | _ => None
    end
  | Lit l =>
    match strip_prefix l s with
    | Some s' => cont s' c
    | None => None
    end
  | Cls k =>
    match s with
    | x :: s' => if in_cls k x then cont s' c else None
    | [] => None
    end
  | Star k => star_greedy k (fun s' => cont s' c) s
  | Plus k =>
    match s with
    | x :: s' => if in_cls k x then star_greedy k (fun s' => cont s' c) s' else None
    | [] => None
    end
  | PlusLazy k =>
    match s with
    | x :: s' => if in_cls k x then star_lazy k (fun s' => cont s' c) s' else None
    | [] => None
    end
  | Group g r' => exec n0 r' (fun s' c' => cont s' ((g, taken s s') :: c')) s c
  | Alt r1 r2 =>
    match exec n0 r1 cont s c with
    | Some a => Some a
    | None => exec n0 r2 cont s c
    end
  | Seq r1 r2 => exec n0 r1 (fun s' c' => exec n0 r2 cont s' c') s c
  end.

End Matcher.

(** [re.match(pattern, s)]: the match object (its groups) or [None]. *)
Definition re_match (pattern : regex) (s : str) : option caps :=
  exec (length s) pattern (fun _ c => Some c) s [].

(** [m.group(g)].  Every group of the patterns below takes part in every
    match, so the default is never used. *)
Fixpoint group (m : caps) (g : nat) : str :=
  match m with
  | [] => []
  | (g', v) :: m' => if Nat.eqb g' g then v else group m' g
  end.

(** A pattern written as the sequence of its items. *)
Fixpoint cat (rs : list regex) : regex :=
  match rs with
  | [] => Lit []
  | [r] => r
  | r :: rs' => Seq r (cat rs')
  end.

End Re.
Export Re.

(** ** [SimpleICSAnalyzer] (src/ics_analyzer_simple.py) *)

Module SimpleICSAnalyzer.

(** *** [parse_event_title] *)

(** The keywords of the full form of a title. *)
Definition kw_instructor : str := utf8 "Prowadzący:".
Definition kw_room : str := utf8 "Sala:".

(** [([WL]|E-CW)], as group [g]. *)
Definition tag_WL_ECW (g : nat) : regex :=
  Group g (Alt (Cls (CSet (utf8 "WL"))) (Lit (utf8 "E-CW"))).

(** [^(.+?)\s*\(([WL]|E-CW)\)\s*-\s*Prowadzący:\s*(.+?),\s*Sala:\s*(.+)$] *)
Definition pattern1 : regex :=
  cat [Bol; Group 1 (PlusLazy CAny); Star CSpace; Lit (utf8 "(");
       tag_WL_ECW 2; Lit (utf8 ")");
       Star CSpace; Lit (utf8 "-"); Star CSpace; Lit kw_instructor; Star CSpace;
       Group 3 (PlusLazy CAny); Lit (utf8 ","); Star CSpace; Lit kw_room;
       Star CSpace; Group 4 (Plus CAny); Eol].

(** [^(.+?)\s*\(E-W\)\s*-\s*Prowadzący:\s*(.+?),\s*Sala:\s*(.+)$] *)
Definition pattern2 : regex :=
  cat [Bol; Group 1 (PlusLazy CAny); Star CSpace; Lit (utf8 "(");
       Lit (utf8 "E-W"); Lit (utf8 ")");
       Star CSpace; Lit (utf8 "-"); Star CSpace; Lit kw_instructor; Star CSpace;
       Group 2 (PlusLazy CAny); Lit (utf8 ","); Star CSpace; Lit kw_room;
       Star CSpace; Group 3 (Plus CAny); Eol].

(** [^(.+?)\s*\(E-ĆW\)\s*-\s*Prowadzący:\s*(.+?),\s*Sala:\s*(.+)$] *)
Definition pattern3 : regex :=
  cat [Bol; Group 1 (PlusLazy CAny); Star CSpace; Lit (utf8 "(");
       Lit (utf8 "E-ĆW"); Lit (utf8 ")");
       Star CSpace; Lit (utf8 "-"); Star CSpace; Lit kw_instructor; Star CSpace;
       Group 2 (PlusLazy CAny); Lit (utf8 ","); Star CSpace; Lit kw_room;
       Star CSpace; Group 3 (Plus CAny); Eol].

(** [^(.+?)\s*\(ĆW\)\s*-\s*Prowadzący:\s*(.+?),\s*Sala:\s*(.+)$] *)
Definition pattern4 : regex :=
  cat [Bol; Group 1 (PlusLazy CAny); Star CSpace; Lit (utf8 "(");
       Lit (utf8 "ĆW"); Lit (utf8 ")");
       Star CSpace; Lit (utf8 "-"); Star CSpace; Lit kw_instructor; Star CSpace;
       Group 2 (PlusLazy CAny); Lit (utf8 ","); Star CSpace; Lit kw_room;
       Star CSpace; Group 3 (Plus CAny); Eol].

(** The fallback patterns, in the order of the source list:
    [^(.+?)\s*\(([WL]|E-CW)\)], [^(.+?)\s*\(E-W\)], [^(.+?)\s*\(E-ĆW\)],
    [^(.+?)\s*\(ĆW\)]. *)
Definition simple_patterns : list regex :=
  [ cat [Bol; Group 1 (PlusLazy CAny); Star CSpace; Lit (utf8 "(");
         tag_WL_ECW 2; Lit (utf8 ")")];
    cat [Bol; Group 1 (PlusLazy CAny); Star CSpace; Lit (utf8 "(");
         Lit (utf8 "E-W"); Lit (utf8 ")")];
    cat [Bol; Group 1 (PlusLazy CAny); Star CSpace; Lit (utf8 "(");
         Lit (utf8 "E-ĆW"); Lit (utf8 ")")];
    cat [Bol; Group 1 (PlusLazy CAny); Star CSpace; Lit (utf8 "(");
         Lit (utf8 "ĆW"); Lit (utf8 ")")] ].

(** The result tuple [(subject, event_type, instructor, room)]. *)
Definition parsed : Type := option str * option str * option str * option str.

(** The [for i, pattern in enumerate(simple_patterns)] loop, from index
    [i].  The source's [if]/[elif] chain on [i] ends at [i == 3]; the list
    has four patterns, so no other index occurs. *)
Fixpoint simple_loop (title : str) (i : nat) (patterns : list regex) : parsed :=
  match patterns with
  | [] => (None, None, None, None)
  | pattern :: rest =>
    match re_match pattern title with
    | Some m =>
      let subject := strip (group m 1) in
      let event_type :=
        match i with
        | 0%nat => strip (group m 2)
        | 1%nat => utf8 "W"
        | 2%nat => utf8 "E-CW"
        | _ => utf8 "L"
        end in
      (Some subject, Some event_type, None, None)
    | None => simple_loop title (S i) rest
    end
  end.

Definition parse_event_title (title : str) : parsed :=
  let title := strip title in
  match re_match pattern1 title with
  | Some match1 =>
    (Some (strip (group match1 1)), Some (strip (group match1 2)),
     Some (strip (group match1 3)), Some (strip (group match1 4)))
  | None =>
  match re_match pattern2 title with
  | Some match2 =>
    (Some (strip (group match2 1)), Some (utf8 "W"),
     Some (strip (group match2 2)), Some (strip (group match2 3)))
  | None =>
  match re_match pattern3 title with
  | Some match3 =>
    (Some (strip (group match3 1)), Some (utf8 "E-CW"),
     Some (strip (group match3 2)), Some (strip (group match3 3)))
  | None =>
  match re_match pattern4 title with
  | Some match4 =>
    (Some (strip (group match4 1)), Some (utf8 "L"),
     Some (strip (group match4 2)), Some (strip (group match4 3)))
  | None => simple_loop title 0 simple_patterns
  end end end end.

(** *** [_minutes_to_hours_str]

    [//] and [%] by 60 round to the floor, as [Z.div] and [Z.modulo] do
    for a positive divisor. *)
Definition _minutes_to_hours_str (minutes : Z) : str :=
  let hours := (minutes / 60)%Z in
  let remaining_minutes := (minutes mod 60)%Z in
  if (remaining_minutes =? 0)%Z then str_of_int hours ++ utf8 "h"
  else str_of_int hours ++ utf8 "h " ++ str_of_int remaining_minutes ++ utf8 "min".

(** *** [_extract_events]

    The state of the loop over the lines: the events found, the dictionary
    of the event being read, and whether the loop is inside an event.
    (The list holds the dictionary object itself; the loop never changes
    a dictionary after it is appended, because [in_event] is false until
    the next [BEGIN:VEVENT] binds a new dictionary.) *)
Record extract_state := {
  events : list (gmap str str);
  current_event : gmap str str;
  in_event : bool
}.

(** The body of the loop for one line; [None] stands for the
    [ValueError] of unpacking [line.split(':', 1)] into [key, value]. *)
Definition extract_line (st : extract_state) (line : str) : option extract_state :=
  let line := strip line in
  if bool_decide (line = utf8 "BEGIN:VEVENT") then
    Some {| events := events st; current_event := ∅; in_event := true |}
  else if bool_decide (line = utf8 "END:VEVENT") then
    Some {| events := if negb (bool_decide (current_event st = ∅))
                      then events st ++ [current_event st] else events st;
            current_event := current_event st;
            in_event := false |}
  else if in_event st && contains (utf8 ":") line then
    match split_char_1 58 line with
    | [key; value] =>
      Some {| events := events st;
              current_event := <[key := value]> (current_event st);
              in_event := in_event st |}
    | _ => None
    end
  else Some st.

Fixpoint extract_lines (st : extract_state) (lines : list str) : option extract_state :=
  match lines with
  | [] => Some st
  | line :: lines' =>
    match extract_line st line with
    | Some st' => extract_lines st' lines'
    | None => None
    end
  end.

Definition _extract_events (content : str) : option (list (gmap str str)) :=
  let lines := split_char 10 content in
  match extract_lines {| events := []; current_event := ∅; in_event := false |} lines with
  | Some st => Some (events st)
  | None => None
  end.

(** *** [categorize_location] *)

(** The four keys of [location_stats], which are the values
    [categorize_location] returns. *)
Inductive location := teams | moodle | uczelnia | inne_lokalizacje.

Definition location_eqb (a b : location) : bool :=
  match a, b with
  | teams, teams | moodle, moodle | uczelnia, uczelnia
  | inne_lokalizacje, inne_lokalizacje => true
  | _, _ => false
  end.

Section WithBuiltins.
Context `{Builtins}.

Definition categorize_location (room : option str) : location :=
  if negb (truthy room) then inne_lokalizacje
  else
    let room_lower := lower (default [] room) in
    if contains (utf8 "teams") room_lower
       || contains (utf8 "platforma teams") room_lower then teams
    else if contains (utf8 "moodle") room_lower
            || contains (utf8 "platforma moodle") room_lower then moodle
    else if existsb (fun keyword => contains keyword room_lower)
              [utf8 "sala"; utf8 "budynek"; utf8 "aula"; utf8 "laboratorium"]
         then uczelnia
    else if existsb (startswith room_lower)
              [utf8 "a"; utf8 "b"; utf8 "c"; utf8 "d"; utf8 "e"; utf8 "f"]
            && existsb isdigit room_lower
         then uczelnia
    else inne_lokalizacje.

(** *** [_calculate_duration_minutes] *)

(** [s[i:j]] for constant indices [0 <= i <= j]; a slice never raises. *)
Definition slice (s : str) (i j : nat) : str := firstn (j - i) (skipn i s).

(** The body of the [try]: [None] when one of the four [int] calls raises
    [ValueError].  (The handler also names [IndexError], which slicing
    cannot raise.) *)
Definition duration_try (start_time end_time : str) : option Z :=
  start_hour ← int_ (slice start_time 9 11);
  start_minute ← int_ (slice start_time 11 13);
  end_hour ← int_ (slice end_time 9 11);
  end_minute ← int_ (slice end_time 11 13);
  let start_total_minutes := (start_hour * 60 + start_minute)%Z in
  let end_total_minutes := (end_hour * 60 + end_minute)%Z in
  Some (end_total_minutes - start_total_minutes)%Z.

Definition _calculate_duration_minutes (start_time end_time : str) : Z :=
  if negb (truthy (Some start_time)) || negb (truthy (Some end_time)) then 0%Z
  else
    match duration_try start_time end_time with
    | Some minutes => minutes
    | None => 0%Z
    end.

(** *** The analyzer's state *)

(** [self.stats] *)
Record stats_t := {
  wykłady : Z;
  laboratoria : Z;
  e_cw : Z;
  inne : Z;
  total_events : Z
}.

(** [self.location_stats], one counter per [location]. *)
Record location_stats_t := {
  n_teams : Z;
  n_moodle : Z;
  n_uczelnia : Z;
  n_inne_lokalizacje : Z
}.

(** An entry of [self.subjects]. *)
Record subject_t := {
  subject_wykłady : Z;
  subject_laboratoria : Z;
  subject_e_cw : Z;
  prowadzący : gset str;
  sale : gset str
}.

(** An entry of [self.uczelnia_schedule]. *)
Record schedule_entry := {
  subject : str;
  type_ : str;
  instructor : option str;
  room : str;
  start_time : str;
  end_time : str;
  title : str
}.

(** [self.time_stats] *)
Record time_stats_t := {
  total_minutes : Z;
  wykłady_minutes : Z;
  laboratoria_minutes : Z;
  e_cw_minutes : Z;
  uczelnia_minutes : Z;
  zdalne_minutes : Z
}.

Record analyzer := {
  stats : stats_t;
  location_stats : location_stats_t;
  subjects : gmap str subject_t;
  uczelnia_schedule : list schedule_entry;
  time_stats : time_stats_t
}.

(** [__init__] *)
Definition init : analyzer := {|
  stats := {| wykłady := 0; laboratoria := 0; e_cw := 0; inne := 0;
              total_events := 0 |};
  location_stats := {| n_teams := 0; n_moodle := 0; n_uczelnia := 0;
                       n_inne_lokalizacje := 0 |};
  subjects := ∅;
  uczelnia_schedule := [];
  time_stats := {| total_minutes := 0; wykłady_minutes := 0;
                   laboratoria_minutes := 0; e_cw_minutes := 0;
                   uczelnia_minutes := 0; zdalne_minutes := 0 |}
|}.

(** The value the [defaultdict] creates for a new subject. *)
Definition new_subject : subject_t := {|
  subject_wykłady := 0; subject_laboratoria := 0; subject_e_cw := 0;
  prowadzący := ∅; sale := ∅
|}.

(** [self.subjects[subject]] updated by [f], the entry being created
    first when it is missing. *)
Definition on_subject (f : subject_t -> subject_t) (subject : str)
    (subjects : gmap str subject_t) : gmap str subject_t :=
  <[subject := f (default new_subject (subjects !! subject))]> subjects.

(** [self.location_stats[location_category] += 1] *)
Definition count_location (k : location) (l : location_stats_t) : location_stats_t :=
  match k with
  | teams => {| n_teams := n_teams l + 1; n_moodle := n_moodle l;
                n_uczelnia := n_uczelnia l; n_inne_lokalizacje := n_inne_lokalizacje l |}
  | moodle => {| n_teams := n_teams l; n_moodle := n_moodle l + 1;
                 n_uczelnia := n_uczelnia l; n_inne_lokalizacje := n_inne_lokalizacje l |}
  | uczelnia => {| n_teams := n_teams l; n_moodle := n_moodle l;
                   n_uczelnia := n_uczelnia l + 1; n_inne_lokalizacje := n_inne_lokalizacje l |}
  | inne_lokalizacje => {| n_teams := n_teams l; n_moodle := n_moodle l;
                           n_uczelnia := n_uczelnia l; n_inne_lokalizacje := n_inne_lokalizacje l + 1 |}
  end.

(** [event.get(key, default)] on the [Dict[str, str]] of an event. *)
Definition get (event : gmap str str) (key : string) (default_ : str) : str :=
  default default_ (event !! utf8 key).

(** *** [_process_simple_event]

    The warning the method prints for an unparsable title goes to the
    console and is no part of the analyzer's state; it is left out. *)
Definition _process_simple_event (self : analyzer) (event : gmap str str) : analyzer :=
  let title := get event "SUMMARY" [] in
  let start_time := get event "DTSTART;TZID=Europe/Warsaw" (get event "DTSTART" []) in
  let end_time := get event "DTEND;TZID=Europe/Warsaw" (get event "DTEND" []) in
  let st := stats self in
  let ts := time_stats self in
  (* self.stats['total_events'] += 1 *)
  let st := {| wykłady := wykłady st; laboratoria := laboratoria st; e_cw := e_cw st;
               inne := inne st; total_events := total_events st + 1 |} in
  let duration_minutes := _calculate_duration_minutes start_time end_time in
  (* self.time_stats['total_minutes'] += duration_minutes *)
  let ts := {| total_minutes := total_minutes ts + duration_minutes;
               wykłady_minutes := wykłady_minutes ts;
               laboratoria_minutes := laboratoria_minutes ts;
               e_cw_minutes := e_cw_minutes ts;
               uczelnia_minutes := uczelnia_minutes ts;
               zdalne_minutes := zdalne_minutes ts |} in
  let '(subject, event_type, instructor, room) := parse_event_title title in
  if negb (truthy subject) || negb (truthy event_type) then
    {| stats := {| wykłady := wykłady st; laboratoria := laboratoria st; e_cw := e_cw st;
                   inne := inne st + 1; total_events := total_events st |};
       location_stats := location_stats self;
       subjects := subjects self;
       uczelnia_schedule := uczelnia_schedule self;
       time_stats := ts |}
  else
    let subject := default [] subject in
    let event_type := default [] event_type in
    let subs := subjects self in
    let '(st, subs, ts) :=
      if bool_decide (event_type = utf8 "W") then
        ({| wykłady := wykłady st + 1; laboratoria := laboratoria st; e_cw := e_cw st;
            inne := inne st; total_events := total_events st |},
         on_subject (fun d =>
           {| subject_wykłady := subject_wykłady d + 1;
              subject_laboratoria := subject_laboratoria d;
              subject_e_cw := subject_e_cw d;
              prowadzący := prowadzący d; sale := sale d |}) subject subs,
         {| total_minutes := total_minutes ts;
            wykłady_minutes := wykłady_minutes ts + duration_minutes;
            laboratoria_minutes := laboratoria_minutes ts;
            e_cw_minutes := e_cw_minutes ts;
            uczelnia_minutes := uczelnia_minutes ts;
            zdalne_minutes := zdalne_minutes ts |})
      else if bool_decide (event_type = utf8 "L") then
        ({| wykłady := wykłady st; laboratoria := laboratoria st + 1; e_cw := e_cw st;
            inne := inne st; total_events := total_events st |},
         on_subject (fun d =>
           {| subject_wykłady := subject_wykłady d;
              subject_laboratoria := subject_laboratoria d + 1;
              subject_e_cw := subject_e_cw d;
              prowadzący := prowadzący d; sale := sale d |}) subject subs,
         {| total_minutes := total_minutes ts;
            wykłady_minutes := wykłady_minutes ts;
            laboratoria_minutes := laboratoria_minutes ts + duration_minutes;
            e_cw_minutes := e_cw_minutes ts;
            uczelnia_minutes := uczelnia_minutes ts;
            zdalne_minutes := zdalne_minutes ts |})
      else if existsb (fun t => bool_decide (event_type = t)) [utf8 "E-CW"; utf8 "E-ĆW"] then
        ({| wykłady := wykłady st; laboratoria := laboratoria st; e_cw := e_cw st + 1;
            inne := inne st; total_events := total_events st |},
         on_subject (fun d =>
           {| subject_wykłady := subject_wykłady d;
              subject_laboratoria := subject_laboratoria d;
              subject_e_cw := subject_e_cw d + 1;
              prowadzący := prowadzący d; sale := sale d |}) subject subs,
         {| total_minutes := total_minutes ts;
            wykłady_minutes := wykłady_minutes ts;
            laboratoria_minutes := laboratoria_minutes ts;
            e_cw_minutes := e_cw_minutes ts + duration_minutes;
            uczelnia_minutes := uczelnia_minutes ts;
            zdalne_minutes := zdalne_minutes ts |})
      else
        ({| wykłady := wykłady st; laboratoria := laboratoria st; e_cw := e_cw st;
            inne := inne st + 1; total_events := total_events st |}, subs, ts) in
    (* self.subjects[subject]['prowadzący'].add(instructor) *)
    let subs :=
      if truthy instructor then
        on_subject (fun d =>
          {| subject_wykłady := subject_wykłady d;
             subject_laboratoria := subject_laboratoria d;
             subject_e_cw := subject_e_cw d;
             prowadzący := {[ default [] instructor ]} ∪ prowadzący d;
             sale := sale d |}) subject subs
      else subs in
    (* self.subjects[subject]['sale'].add(room) *)
    let subs :=
      if truthy room then
        on_subject (fun d =>
          {| subject_wykłady := subject_wykłady d;
             subject_laboratoria := subject_laboratoria d;
             subject_e_cw := subject_e_cw d;
             prowadzący := prowadzący d;
             sale := {[ default [] room ]} ∪ sale d |}) subject subs
      else subs in
    let location_category := categorize_location room in
    let ls := count_location location_category (location_stats self) in
    let ts :=
      if location_eqb location_category uczelnia then
        {| total_minutes := total_minutes ts;
           wykłady_minutes := wykłady_minutes ts;
           laboratoria_minutes := laboratoria_minutes ts;
           e_cw_minutes := e_cw_minutes ts;
           uczelnia_minutes := uczelnia_minutes ts + duration_minutes;
           zdalne_minutes := zdalne_minutes ts |}
      else
        {| total_minutes := total_minutes ts;
           wykłady_minutes := wykłady_minutes ts;
           laboratoria_minutes := laboratoria_minutes ts;
           e_cw_minutes := e_cw_minutes ts;
           uczelnia_minutes := uczelnia_minutes ts;
           zdalne_minutes := zdalne_minutes ts + duration_minutes |} in
    let schedule :=
      if location_eqb location_category uczelnia
         && truthy (Some start_time) && truthy room then
        uczelnia_schedule self ++
          [ {| subject := subject; type_ := event_type; instructor := instructor;
               room := default [] room; start_time := start_time;
               end_time := end_time; title := title |} ]
      else uczelnia_schedule self in
    {| stats := st; location_stats := ls; subjects := subs;
       uczelnia_schedule := schedule; time_stats := ts |}.

(** The loop of [analyze_ics_file] over the extracted events. *)
Definition process_events (self : analyzer) (events : list (gmap str str)) : analyzer :=
  fold_left _process_simple_event events self.

(** [analyze_ics_file], from the text read from the file on: the events
    are extracted and processed in order.  (Opening and decoding the file
    come before and are no part of this model.) *)
Definition analyze_ics_file (self : analyzer) (content : str) : option analyzer :=
  match _extract_events content with
  | Some events => Some (process_events self events)
  | None => None
  end.

End WithBuiltins.

End SimpleICSAnalyzer.

(** ** [ICSAnalyzer] (src/ics_analyzer.py) *)

Module ICSAnalyzer.

(** *** [parse_event_title] *)

(** [^(.+?)\s*\(([WL]|E-CW)\)\s*-\s*Prowadzący:\s*(.+?),\s*Sala:\s*(.+)$] *)
Definition pattern : regex :=
  cat [Bol; Group 1 (PlusLazy CAny); Star CSpace; Lit (utf8 "(");
       SimpleICSAnalyzer.tag_WL_ECW 2; Lit (utf8 ")");
       Star CSpace; Lit (utf8 "-"); Star CSpace; Lit (utf8 "Prowadzący:"); Star CSpace;
       Group 3 (PlusLazy CAny); Lit (utf8 ","); Star CSpace; Lit (utf8 "Sala:");
       Star CSpace; Group 4 (Plus CAny); Eol].

(** [^(.+?)\s*\(([WL]|E-CW)\)] *)
Definition simple_pattern : regex :=
  cat [Bol; Group 1 (PlusLazy CAny); Star CSpace; Lit (utf8 "(");
       SimpleICSAnalyzer.tag_WL_ECW 2; Lit (utf8 ")")].

Definition parse_event_title (title : str) : SimpleICSAnalyzer.parsed :=
  match re_match pattern (strip title) with
  | Some match_ =>
    (Some (strip (group match_ 1)), Some (strip (group match_ 2)),
     Some (strip (group match_ 3)), Some (strip (group match_ 4)))
  | None =>
    match re_match simple_pattern (strip title) with
    | Some simple_match =>
      (Some (strip (group simple_match 1)), Some (strip (group simple_match 2)),
       None, None)
    | None => (None, None, None, None)
    end
  end.

(** *** Dates, times and exceptions *)

(** The exceptions that a call of [_process_event] can raise. *)
Inductive exn := AttributeError | TypeError | OverflowError.

(** A computation returns a value or raises: [x ← m; k] goes on with the
    value of [m] and stops at its exception. *)
#[export] Instance exn_bind : MBind (sum exn) := fun A B f m =>
  match m with
  | inl e => inl e
  | inr a => f a
  end.

(** [datetime.timedelta], by its whole number of microseconds. *)
Definition timedelta : Type := Z.

Definition microseconds_per_day : Z := 86400 * 1000000.

(** A [timedelta] holds from -999999999 days up to, and not including,
    1000000000 days. *)
Definition timedelta_in_range (d : Z) : bool :=
  ((-999999999 <=? d / microseconds_per_day)
   && (d / microseconds_per_day <=? 999999999))%Z.

(** [a + b] on [timedelta]: exact, with [OverflowError] out of range. *)
Definition timedelta_add (a b : timedelta) : exn + timedelta :=
  if timedelta_in_range (a + b) then inr (a + b)%Z else inl OverflowError.

(** What [_process_event] asks of the objects it gets from the [icalendar]
    library, taken as an interface:
    - [value]: what [event.get('dtstart')] and [event.get('dtend')] return
      for a property that is there;
    - [truth_value]: the truth value of such an object;
    - [dt]: its attribute [dt] (a [date], a naive or an aware [datetime], a
      [time], a [timedelta] or a period), or the exception of reading it
      ([AttributeError] when it has none);
    - [has_replace]: [hasattr(x, 'replace')];
    - [subtract y x]: [y - x], a [timedelta], or the exception it raises
      ([TypeError] for a naive and an aware [datetime], for a [date] and a
      [datetime], and for every other pair that has no difference). *)
Class Icalendar := {
  value : Type;
  dt_value : Type;
  truth_value : value -> bool;
  dt : value -> exn + dt_value;
  has_replace : dt_value -> bool;
  subtract : dt_value -> dt_value -> exn + timedelta
}.

(** Three kinds of values of [dt]: a [date] by its day number, and a naive
    and an aware [datetime] (in UTC) by their microseconds since the start
    of day 1.  All three have the method [replace]; two of the same kind
    have a difference, two of different kinds have none. *)
Inductive py_dt :=
| date (ordinal : Z)
| naive_datetime (microseconds : Z)
| utc_datetime (microseconds : Z).

Definition py_subtract (y x : py_dt) : exn + timedelta :=
  match y, x with
  | date d2, date d1 => inr ((d2 - d1) * microseconds_per_day)%Z
  | naive_datetime t2, naive_datetime t1 => inr (t2 - t1)%Z
  | utc_datetime t2, utc_datetime t1 => inr (t2 - t1)%Z
  | _, _ => inl TypeError
  end.

(** The property values that hold one of these: each is a true object
    with the attribute [dt]. *)
#[export] Instance py_icalendar : Icalendar := {|
  value := py_dt;
  dt_value := py_dt;
  truth_value := fun _ => true;
  dt := inr;
  has_replace := fun _ => true;
  subtract := py_subtract
|}.

(** *** [categorize_location] *)

Import SimpleICSAnalyzer (location, teams, moodle, uczelnia, inne_lokalizacje).

Section WithBuiltins.
Context `{Builtins} {calendar : Icalendar}.

Definition categorize_location (room : option str) : location :=
  if negb (truthy room) then inne_lokalizacje
  else
    let room_lower := lower (default [] room) in
    if contains (utf8 "teams") room_lower
       || contains (utf8 "platforma teams") room_lower then teams
    else if contains (utf8 "moodle") room_lower
            || contains (utf8 "platforma moodle") room_lower then moodle
    else if existsb (fun keyword => contains keyword room_lower)
              [utf8 "sala"; utf8 "budynek"; utf8 "aula"; utf8 "laboratorium"]
         then uczelnia
    else if existsb (startswith room_lower) [utf8 "a"; utf8 "b"; utf8 "c"]
            && existsb isdigit room_lower
         then uczelnia
    else inne_lokalizacje.

(** *** The analyzer's state and [_process_event] *)

(** A [VEVENT] component as the method reads it: the text of its summary
    ([str(event.get('summary', ''))]) and what [event.get('dtstart')] and
    [event.get('dtend')] return, [None] for a property that is not there. *)
Record vevent := {
  summary : str;
  dtstart : option value;
  dtend : option value
}.

Record analyzer := {
  stats : SimpleICSAnalyzer.stats_t;
  location_stats : SimpleICSAnalyzer.location_stats_t;
  subjects : gmap str SimpleICSAnalyzer.subject_t;
  total_duration : timedelta
}.

(** How a call ends: it returns, or it raises; either way it leaves the
    analyzer in a state. *)
Inductive outcome :=
| Returned (self : analyzer)
| Raised (e : exn) (self : analyzer).

Definition init : analyzer := {|
  stats := SimpleICSAnalyzer.stats SimpleICSAnalyzer.init;
  location_stats := SimpleICSAnalyzer.location_stats SimpleICSAnalyzer.init;
  subjects := ∅;
  total_duration := 0%Z
|}.

Import SimpleICSAnalyzer (stats_t, wykłady, laboratoria, e_cw, inne, total_events,
  subject_t, subject_wykłady, subject_laboratoria, subject_e_cw, prowadzący, sale,
  on_subject, count_location).

(** The block of [_process_event] that adds the duration of the event to
    [self.total_duration]: its new value, or the exception raised.  In
    [end_time.dt - start_time.dt] the attribute of [end_time] is read
    first. *)
Definition add_duration (total : timedelta) (start_time end_time : option value)
    : exn + timedelta :=
  match start_time, end_time with
  | Some start_time, Some end_time =>
    if truth_value start_time && truth_value end_time then
      x ← dt start_time;
      if has_replace x then
        y ← dt end_time;
        x ← dt start_time;
        duration ← subtract y x;
        timedelta_add total duration
      else inr total
    else inr total
  | _, _ => inr total
  end.

(** [total_events] is incremented before the duration block, which is in
    no [try]: when the block raises, the call ends there. *)
Definition _process_event (self : analyzer) (event : vevent) : outcome :=
  let title := summary event in
  let start_time := dtstart event in
  let end_time := dtend event in
  let st := stats self in
  let st := {| wykłady := wykłady st; laboratoria := laboratoria st; e_cw := e_cw st;
               inne := inne st; total_events := total_events st + 1 |} in
  match add_duration (total_duration self) start_time end_time with
  | inl e =>
    Raised e {| stats := st;
                location_stats := location_stats self;
                subjects := subjects self;
                total_duration := total_duration self |}
  | inr total =>
  let '(subject, event_type, instructor, room) := parse_event_title title in
  if negb (truthy subject) || negb (truthy event_type) then
    Returned
    {| stats := {| wykłady := wykłady st; laboratoria := laboratoria st; e_cw := e_cw st;
                   inne := inne st + 1; total_events := total_events st |};
       location_stats := location_stats self;
       subjects := subjects self;
       total_duration := total |}
  else
    let subject := default [] subject in
    let event_type := default [] event_type in
    let subs := subjects self in
    let '(st, subs) :=
      if bool_decide (event_type = utf8 "W") then
        ({| wykłady := wykłady st + 1; laboratoria := laboratoria st; e_cw := e_cw st;
            inne := inne st; total_events := total_events st |},
         on_subject (fun d =>
           {| subject_wykłady := subject_wykłady d + 1;
              subject_laboratoria := subject_laboratoria d;
              subject_e_cw := subject_e_cw d;
              prowadzący := prowadzący d; sale := sale d |}) subject subs)
      else if bool_decide (event_type = utf8 "L") then
        ({| wykłady := wykłady st; laboratoria := laboratoria st + 1; e_cw := e_cw st;
            inne := inne st; total_events := total_events st |},
         on_subject (fun d =>
           {| subject_wykłady := subject_wykłady d;
              subject_laboratoria := subject_laboratoria d + 1;
              subject_e_cw := subject_e_cw d;
              prowadzący := prowadzący d; sale := sale d |}) subject subs)
      else if bool_decide (event_type = utf8 "E-CW") then
        ({| wykłady := wykłady st; laboratoria := laboratoria st; e_cw := e_cw st + 1;
            inne := inne st; total_events := total_events st |},
         on_subject (fun d =>
           {| subject_wykłady := subject_wykłady d;
              subject_laboratoria := subject_laboratoria d;
              subject_e_cw := subject_e_cw d + 1;
              prowadzący := prowadzący d; sale := sale d |}) subject subs)
      else
        ({| wykłady := wykłady st; laboratoria := laboratoria st; e_cw := e_cw st;
            inne := inne st + 1; total_events := total_events st |}, subs) in
    let subs :=
      if truthy instructor then
        on_subject (fun d =>
          {| subject_wykłady := subject_wykłady d;
             subject_laboratoria := subject_laboratoria d;
             subject_e_cw := subject_e_cw d;
             prowadzący := {[ default [] instructor ]} ∪ prowadzący d;
             sale := sale d |}) subject subs
      else subs in
    let subs :=
      if truthy room then
        on_subject (fun d =>
          {| subject_wykłady := subject_wykłady d;
             subject_laboratoria := subject_laboratoria d;
             subject_e_cw := subject_e_cw d;
             prowadzący := prowadzący d;
             sale := {[ default [] room ]} ∪ sale d |}) subject subs
      else subs in
    let location_category := categorize_location room in
    Returned
    {| stats := st;
       location_stats := count_location location_category (location_stats self);
       subjects := subs;
       total_duration := total |}
  end.

(** The loop of [analyze_ics_file] over the [VEVENT] components: it is in
    no [try], so the first call that raises ends it. *)
Fixpoint process_events (self : analyzer) (events : list vevent) : outcome :=
  match events with
  | [] => Returned self
  | event :: events =>
    match _process_event self event with
    | Returned self => process_events self events
    | Raised e self => Raised e self
    end
  end.

End WithBuiltins.

End ICSAnalyzer.

(** * Vocabulary of the properties *)

(** ** Strings and patterns *)

(** [all_in k w]: every character of [w] is in the class [k]. *)
Definition all_in (k : cls) (w : str) : Prop := forallb (in_cls k) w = true.

(** The first, and the last, character of [m] is not white space. *)
Definition nonspace_hd (m : str) : Prop :=
  match m with
  | x :: _ => isspace x = false
  | [] => False
  end.
Definition nonspace_last (m : str) : Prop := nonspace_hd (rev m).

(** [c not in s], for a character. *)
Definition lacks (c : cp) (s : str) : Prop := contains [c] s = false.

(** [matches n0 r s c s' c']: read declaratively, [r] matches a prefix of
    [s], leaving [s'], and turns the captures [c] into [c']. *)
Inductive matches (n0 : nat) : regex -> str -> caps -> str -> caps -> Prop :=
| M_Bol s c : length s = n0 -> matches n0 Bol s c s c
| M_Eol s c : s = [] \/ s = [10] -> matches n0 Eol s c s c
| M_Lit l s c : matches n0 (Lit l) (l ++ s) c s c
| M_Cls k x s c : in_cls k x = true -> matches n0 (Cls k) (x :: s) c s c
| M_Star k w s c : all_in k w -> matches n0 (Star k) (w ++ s) c s c
| M_Plus k x w s c :
    in_cls k x = true -> all_in k w -> matches n0 (Plus k) (x :: w ++ s) c s c
| M_PlusLazy k x w s c :
    in_cls k x = true -> all_in k w -> matches n0 (PlusLazy k) (x :: w ++ s) c s c
| M_Group g r s c s' c' :
    matches n0 r s c s' c' -> matches n0 (Group g r) s c s' ((g, taken s s') :: c')
| M_Alt_l r1 r2 s c s' c' :
    matches n0 r1 s c s' c' -> matches n0 (Alt r1 r2) s c s' c'
| M_Alt_r r1 r2 s c s' c' :
    matches n0 r2 s c s' c' -> matches n0 (Alt r1 r2) s c s' c'
| M_Seq r1 r2 s c s1 c1 s2 c2 :
    matches n0 r1 s c s1 c1 -> matches n0 r2 s1 c1 s2 c2 ->
    matches n0 (Seq r1 r2) s c s2 c2.

Import SimpleICSAnalyzer (kw_instructor, kw_room, tag_WL_ECW).

(** What follows the tag in the full form:
    [\)\s*-\s*Prowadzący:\s*(.+?),\s*Sala:\s*(.+)$], with the groups
    numbered [gi] and [gr]. *)
Definition full_tail (gi gr : nat) : regex :=
  cat [Lit (utf8 ")"); Star CSpace; Lit (utf8 "-"); Star CSpace; Lit kw_instructor;
       Star CSpace; Group gi (PlusLazy CAny); Lit (utf8 ","); Star CSpace;
       Lit kw_room; Star CSpace; Group gr (Plus CAny); Eol].

(** [^(.+?)\s*\(] tag, then [tail]. *)
Definition form (tag tail : regex) : regex :=
  cat [Bol; Group 1 (PlusLazy CAny); Star CSpace; Lit (utf8 "("); tag; tail].

Definition full_form (tag : regex) (gi gr : nat) : regex := form tag (full_tail gi gr).
Definition short_form (tag : regex) : regex := form tag (Lit (utf8 ")")).

(** ** Titles *)

(** The tags of the specification, and the three the patterns capture. *)
Definition six_tags : list str :=
  [utf8 "W"; utf8 "L"; utf8 "E-CW"; utf8 "E-W"; utf8 "E-ĆW"; utf8 "ĆW"].
Definition texts_WL_ECW : list str := [utf8 "W"; utf8 "L"; utf8 "E-CW"].

(** The tags and the type [parse_event_title] returns for each. *)
Definition tag_table : list (str * str) :=
  [(utf8 "W", utf8 "W"); (utf8 "L", utf8 "L"); (utf8 "E-CW", utf8 "E-CW");
   (utf8 "E-W", utf8 "W"); (utf8 "E-ĆW", utf8 "E-CW"); (utf8 "ĆW", utf8 "L")].

(** The result of [parse_event_title] on a title it cannot read. *)
Definition unparsed : SimpleICSAnalyzer.parsed := (None, None, None, None).

(** Whether a result of [parse_event_title] is the unparsed tuple. *)
Definition is_unparsed (p : SimpleICSAnalyzer.parsed) : bool :=
  match p with
  | (None, None, None, None) => true
  | _ => false
  end.

(** The results [parse_event_title] can give: the unparsed tuple, or a
    subject that is not empty, one of the types W, L and E-CW, and either
    no instructor and no room or both, the room not empty; subject,
    instructor and room stripped. *)
Definition result_shape (p : SimpleICSAnalyzer.parsed) : Prop :=
  p = unparsed \/
  exists sj ty,
    sj <> [] /\ strip sj = sj /\ In ty texts_WL_ECW /\
    (p = (Some sj, Some ty, None, None) \/
     exists i r, p = (Some sj, Some ty, Some i, Some r) /\
                 strip i = i /\ r <> [] /\ strip r = r).

(** [short_prefix texts t]: [t] is a non-empty subject without a newline,
    spaces, and one of the tags [texts] in parentheses, followed by
    anything. *)
Definition short_prefix (texts : list str) (t : str) : Prop :=
  exists P ws tg rest,
    t = P ++ ws ++ [40] ++ tg ++ [41] ++ rest /\
    P <> [] /\ all_in CAny P /\ all_in CSpace ws /\ In tg texts.

(** The conditions on the fields a title is written from, as boolean
    checks: a subject is not blank, has no newline and no [(]; instructor
    names are not blank, have no newline and contain neither keyword; a
    room is not blank, has no newline and does not contain the keyword
    [Prowadzący:]. *)
Definition one_line (s : str) : bool := forallb (fun c => negb (c =? 10)) s.
Definition blank (s : str) : bool := forallb isspace s.

Definition subject_ok (s : str) : bool :=
  negb (blank s) && one_line s && negb (contains (utf8 "(") s).
Definition names_ok (s : str) : bool :=
  negb (blank s) && one_line s && negb (contains kw_instructor s)
  && negb (contains kw_room s).
Definition room_ok (s : str) : bool :=
  negb (blank s) && one_line s && negb (contains kw_instructor s).

(** [<subject> (<tag>)] and
    [<subject> (<tag>) - Prowadzący: <names>, Sala: <room>], with any
    spaces [w1] ... [w6] where the patterns allow them. *)
Definition short_title (subject w1 tag : str) : str :=
  subject ++ w1 ++ utf8 "(" ++ tag ++ utf8 ")".
Definition full_title (subject w1 tag w2 w3 w4 names w5 w6 room : str) : str :=
  subject ++ w1 ++ utf8 "(" ++ tag ++ utf8 ")" ++ w2 ++ utf8 "-" ++ w3 ++
  kw_instructor ++ w4 ++ names ++ utf8 "," ++ w5 ++ kw_room ++ w6 ++ room.

(** The full-form title, with the fields already stripped on the outside. *)
Definition core_title (S0 ws w2 w3 w4 N1 w5 w6 R0 tg : str) : str :=
  S0 ++ ws ++ [40] ++ tg ++ [41] ++ w2 ++ [45] ++ w3 ++ kw_instructor ++ w4 ++
  N1 ++ [44] ++ w5 ++ kw_room ++ w6 ++ R0.

(** The two forms of the grammar, read as whole titles with any subject,
    names, room and spacing; the full form with its two keywords as
    parameters. *)
Definition in_short_form (t : str) : Prop :=
  exists S w1 tg, In tg six_tags /\ t = short_title S w1 tg.
Definition in_full_form (kw_names kw_place t : str) : Prop :=
  exists S w1 tg w2 w3 w4 N w5 w6 R,
    In tg six_tags /\
    t = S ++ w1 ++ utf8 "(" ++ tg ++ utf8 ")" ++ w2 ++ utf8 "-" ++ w3 ++
        kw_names ++ w4 ++ N ++ utf8 "," ++ w5 ++ kw_place ++ w6 ++ R.

(** The class types of the specification. *)
Inductive ClassType := Lecture | Lab | RemoteExercise.

(** The class type that [_process_simple_event] and [_process_event] count
    an event type under: the [if]/[elif] chain on [event_type]. *)
Definition class_of (event_type : str) : option ClassType :=
  if bool_decide (event_type = utf8 "W") then Some Lecture
  else if bool_decide (event_type = utf8 "L") then Some Lab
  else if existsb (fun t => bool_decide (event_type = t)) [utf8 "E-CW"; utf8 "E-ĆW"]
       then Some RemoteExercise
  else None.

(** The normalization table of the specification, and its part with the
    three tags that [ICSAnalyzer] knows. *)
Definition three_tag_table : list (str * ClassType) :=
  [(utf8 "W", Lecture); (utf8 "L", Lab); (utf8 "E-CW", RemoteExercise)].
Definition six_tag_table : list (str * ClassType) :=
  three_tag_table ++
  [(utf8 "E-W", Lecture); (utf8 "ĆW", Lab); (utf8 "E-ĆW", RemoteExercise)].

(** The class type of a result of [parse_event_title]. *)
Definition class_type (p : SimpleICSAnalyzer.parsed) : option ClassType :=
  let '(_, event_type, _, _) := p in event_type ≫= class_of.

(** ** Events, durations and counters *)

(** How many elements of a list pass a test, and the sum of a list of
    integers. *)
Definition count_if {A : Type} (p : A -> bool) (l : list A) : Z :=
  Z.of_nat (length (List.filter p l)).
Definition sum_Z (l : list Z) : Z := fold_right Z.add 0%Z l.
Definition Z_of_bool (b : bool) : Z := if b then 1%Z else 0%Z.

Section EventVocabulary.
Context `{Builtins} {calendar : ICSAnalyzer.Icalendar}.
Import SimpleICSAnalyzer.

(** The three fields of a raw event, as [_process_simple_event] reads
    them from the event's dictionary. *)
Definition title_of (event : gmap str str) : str := get event "SUMMARY" [].
Definition start_of (event : gmap str str) : str :=
  get event "DTSTART;TZID=Europe/Warsaw" (get event "DTSTART" []).
Definition end_of (event : gmap str str) : str :=
  get event "DTEND;TZID=Europe/Warsaw" (get event "DTEND" []).
Definition duration_of (event : gmap str str) : Z :=
  _calculate_duration_minutes (start_of event) (end_of event).

(** Whether the title of an event is unparsed, in either analyzer. *)
Definition title_unparsed (event : gmap str str) : bool :=
  is_unparsed (parse_event_title (title_of event)).
Definition ics_title_unparsed (event : ICSAnalyzer.vevent) : bool :=
  is_unparsed (ICSAnalyzer.parse_event_title (ICSAnalyzer.summary event)).

(** What [parse_event_title] gives for the title of an event, and the
    category of its room. *)
Definition subject_of (event : gmap str str) : option str :=
  let '(subject_, _, _, _) := parse_event_title (title_of event) in subject_.
Definition type_of (event : gmap str str) : option str :=
  let '(_, event_type, _, _) := parse_event_title (title_of event) in event_type.
Definition instructor_of (event : gmap str str) : option str :=
  let '(_, _, instructor_, _) := parse_event_title (title_of event) in instructor_.
Definition room_of (event : gmap str str) : option str :=
  let '(_, _, _, room_) := parse_event_title (title_of event) in room_.
Definition category_of (event : gmap str str) : location :=
  categorize_location (room_of event).

(** Tests on an event: its title parses with the type [ty]; with the
    subject [s]; it parses and its room is of the category [k]. *)
Definition has_type (ty : str) (event : gmap str str) : bool :=
  bool_decide (type_of event = Some ty).
Definition has_subject (s : str) (event : gmap str str) : bool :=
  bool_decide (subject_of event = Some s).
Definition located (k : location) (event : gmap str str) : bool :=
  negb (title_unparsed event) && location_eqb (category_of event) k.

(** What an event adds to the record of its subject, and what it does to
    the record, if any, of the subject [s]. *)
Definition add_to_subject (event : gmap str str) (d : subject_t) : subject_t :=
  {| subject_wykłady := subject_wykłady d + Z_of_bool (has_type (utf8 "W") event);
     subject_laboratoria := subject_laboratoria d + Z_of_bool (has_type (utf8 "L") event);
     subject_e_cw := subject_e_cw d + Z_of_bool (has_type (utf8 "E-CW") event);
     prowadzący :=
       if truthy (instructor_of event)
       then {[ default [] (instructor_of event) ]} ∪ prowadzący d
       else prowadzący d;
     sale :=
       if truthy (room_of event)
       then {[ default [] (room_of event) ]} ∪ sale d
       else sale d |}.
Definition subject_step (s : str) (d : option subject_t) (event : gmap str str)
  : option subject_t :=
  if has_subject s event then Some (add_to_subject event (default new_subject d)) else d.

(** The difference [dtend.dt - dtstart.dt] of a [VEVENT] of which the
    duration block of [_process_event] takes it: both properties are there
    and true, and the value of [dtstart.dt] has the attribute [replace].
    Every other [VEVENT] counts 0. *)
Definition ics_duration (event : ICSAnalyzer.vevent) : Z :=
  match ICSAnalyzer.dtstart event, ICSAnalyzer.dtend event with
  | Some start, Some end_ =>
    if ICSAnalyzer.truth_value start && ICSAnalyzer.truth_value end_ then
      match ICSAnalyzer.dt start, ICSAnalyzer.dt end_ with
      | inr x, inr y =>
        if ICSAnalyzer.has_replace x
        then match ICSAnalyzer.subtract y x with inr d => d | inl _ => 0%Z end
        else 0%Z
      | _, _ => 0%Z
      end
    else 0%Z
  | _, _ => 0%Z
  end.


(** The category of the room [ICSAnalyzer] reads from the title of a
    [VEVENT], when the title parses. *)
Definition ics_located (k : location) (event : ICSAnalyzer.vevent) : bool :=
  negb (ics_title_unparsed event)
  && location_eqb
       (ICSAnalyzer.categorize_location
          (let '(_, _, _, room_) :=
             ICSAnalyzer.parse_event_title (ICSAnalyzer.summary event) in room_)) k.

(** What the location counters and the total duration of an [ICSAnalyzer]
    say about a sequence of [VEVENT]s: each counter is the number of events
    whose title parsed with a room of its category, the four sum to the
    number of parsed events, and the total duration is the sum of the
    events' durations. *)
Definition ics_counts (a : ICSAnalyzer.analyzer) (events : list ICSAnalyzer.vevent)
    : Prop :=
  let ls := ICSAnalyzer.location_stats a in
  (n_teams ls = count_if (ics_located teams) events /\
   n_moodle ls = count_if (ics_located moodle) events /\
   n_uczelnia ls = count_if (ics_located uczelnia) events /\
   n_inne_lokalizacje ls = count_if (ics_located inne_lokalizacje) events) /\
  (n_teams ls + n_moodle ls + n_uczelnia ls + n_inne_lokalizacje ls)%Z
  = count_if (fun e => negb (ics_title_unparsed e)) events /\
  ICSAnalyzer.total_duration a = sum_Z (map ics_duration events).

(** The itinerary entry of an event, in the words of the specification:
    there is one when the location category of the parsed room is on
    campus and both a room and a start token are present. *)
Definition on_campus_entry (event : gmap str str) : option schedule_entry :=
  let '(subject_, event_type, instructor_, room_) := parse_event_title (title_of event) in
  if location_eqb (categorize_location room_) uczelnia
     && truthy room_ && truthy (Some (start_of event))
  then Some {| subject := default [] subject_; type_ := default [] event_type;
               instructor := instructor_; room := default [] room_;
               start_time := start_of event; end_time := end_of event;
               title := title_of event |}
  else None.

(** The sum of the three per-type counters, of the three per-type minute
    totals, and of the two per-location minute totals. *)
Definition typed_events (st : stats_t) : Z := wykłady st + laboratoria st + e_cw st.
Definition typed_minutes (ts : time_stats_t) : Z :=
  wykłady_minutes ts + laboratoria_minutes ts + e_cw_minutes ts.
Definition located_minutes (ts : time_stats_t) : Z :=
  uczelnia_minutes ts + zdalne_minutes ts.

(** The four two-character fields [_calculate_duration_minutes] reads. *)
Definition hour_field (token : str) : str := slice token 9 11.
Definition minute_field (token : str) : str := slice token 11 13.

(** Both fields of a token are read by [int]. *)
Definition fields_read (token : str) : bool :=
  match int_ (hour_field token), int_ (minute_field token) with
  | Some _, Some _ => true
  | _, _ => false
  end.

(** The durations of the events that pass a test, summed. *)
Definition minutes_of (p : gmap str str -> bool) (events : list (gmap str str)) : Z :=
  sum_Z (map duration_of (List.filter p events)).

End EventVocabulary.

(** The event of the specification's scenario: only a title, and the
    title has no tag. *)
Definition losowy_event : gmap str str :=
  {[ utf8 "SUMMARY" := utf8 "Losowy tekst bez formatu" ]}.

(** The event of the specification's scenario with a title that does not
    parse: 75 minutes. *)
Definition losowy_timed_event : gmap str str :=
  {[ utf8 "SUMMARY" := utf8 "Losowy tekst bez formatu";
     utf8 "DTSTART" := utf8 "20251116T080000";
     utf8 "DTEND" := utf8 "20251116T091500" ]}.

(** The event of the specification's first scenario, and the same event
    with its start under a key the analyzer does not read. *)
Definition bazy_event : gmap str str :=
  {[ utf8 "SUMMARY" := utf8 "Bazy Danych (W) - Prowadzący: Jan Kowalski, Sala: A101";
     utf8 "DTSTART" := utf8 "20251116T080000";
     utf8 "DTEND" := utf8 "20251116T091500" ]}.

Definition berlin_event : gmap str str :=
  {[ utf8 "SUMMARY" := utf8 "Bazy Danych (W) - Prowadzący: Jan Kowalski, Sala: A101";
     utf8 "DTSTART;TZID=Europe/Berlin" := utf8 "20251116T080000";
     utf8 "DTEND;TZID=Europe/Warsaw" := utf8 "20251116T091500" ]}.

(** The microseconds from the start of day 1 to a time of 16 November
    2025, which is day 739571. *)
Definition on_16_november (hour minute : Z) : Z :=
  (((739571 - 1) * 86400 + hour * 3600 + minute * 60) * 1000000)%Z.



(** The code points of an ASCII text. *)
Definition chars_of (s : string) : str := map N_of_ascii (list_ascii_of_string s).

(** ** Calendars *)

(** ["\n".join(lines)] *)
Fixpoint join_lines (lines : list str) : str :=
  match lines with
  | [] => []
  | [line] => line
  | line :: lines' => line ++ 10 :: join_lines lines'
  end.

(** The line [key:value] of a property, the lines of an event with the
    properties [props], and the dictionary of the event: a later line
    with the same key replaces the earlier one. *)
Definition property_line (kv : str * str) : str := kv.1 ++ utf8 ":" ++ kv.2.
Definition event_lines (props : list (str * str)) : list str :=
  utf8 "BEGIN:VEVENT" :: map property_line props ++ [utf8 "END:VEVENT"].
Definition event_dict (props : list (str * str)) : gmap str str :=
  fold_left (fun m kv => <[kv.1 := kv.2]> m) props ∅.

(** The lines of a calendar: events, each after lines that are outside
    every event, and the lines after the last event. *)
Definition calendar_lines (parts : list (list str * list (str * str)))
    (trailer : list str) : list str :=
  concat (map (fun part => part.1 ++ event_lines part.2) parts) ++ trailer.

(** The two lines that open and close an event. *)
Definition is_marker (line : str) : bool :=
  bool_decide (line = utf8 "BEGIN:VEVENT") || bool_decide (line = utf8 "END:VEVENT").

(** A property whose key has no colon and whose line is not a marker; a
    part of a calendar whose outer lines are no markers and whose event
    has at least one property, all of them such. *)
Definition property_ok (kv : str * str) : bool :=
  negb (contains (utf8 ":") kv.1) && negb (is_marker (property_line kv)).
Definition part_ok (part : list str * list (str * str)) : bool :=
  forallb (fun line => negb (is_marker line)) part.1
  && negb (bool_decide (part.2 = [])) && forallb property_ok part.2.

(** What [_extract_events] guarantees of a dictionary: no key has a
    colon; keys and values have no line end, keys no white space in front,
    values none at the end.  An event also has at least one property. *)
Definition keys_ok (m : gmap str str) : Prop :=
  forall key value, m !! key = Some value ->
    contains (utf8 ":") key = false /\
    contains [10] key = false /\ contains [10] value = false /\
    lstrip key = key /\ rstrip value = value.
Definition event_ok (event : gmap str str) : Prop := event <> ∅ /\ keys_ok event.

(** A line that closes an event. *)
Definition is_end (line : str) : bool := bool_decide (strip line = utf8 "END:VEVENT").

(** A calendar with one event, its lines ended by CR LF. *)
Definition sample_props : list (str * str) :=
  [ (utf8 "SUMMARY", utf8 "Bazy Danych (W) - Prowadzący: Jan Kowalski, Sala: A101");
    (utf8 "DTSTART;TZID=Europe/Warsaw", utf8 "20251116T080000");
    (utf8 "DTEND;TZID=Europe/Warsaw", utf8 "20251116T091500") ].
Definition sample_raw_lines : list str :=
  map (fun line => line ++ [13])
    ([utf8 "BEGIN:VCALENDAR"; utf8 "VERSION:2.0"] ++ event_lines sample_props
     ++ [utf8 "END:VCALENDAR"]) ++ [[]].

(** ** The location classifier *)

(** The classifier in the words of the specification, with the alphabet
    of building letters as a parameter: the rules are tried in order on
    the lower-cased room. *)
Definition classify `{Builtins} (letters : str) (room : option str)
  : SimpleICSAnalyzer.location :=
  match room with
  | None => SimpleICSAnalyzer.inne_lokalizacje
  | Some r =>
    let r' := lower r in
    if bool_decide (r = []) then SimpleICSAnalyzer.inne_lokalizacje
    else if contains (utf8 "teams") r' then SimpleICSAnalyzer.teams
    else if contains (utf8 "moodle") r' then SimpleICSAnalyzer.moodle
    else if contains (utf8 "sala") r' || contains (utf8 "budynek") r'
            || contains (utf8 "aula") r' || contains (utf8 "laboratorium") r'
         then SimpleICSAnalyzer.uczelnia
    else if match r' with
            | c :: _ => existsb (N.eqb c) letters
            | [] => false
            end && existsb isdigit r'
         then SimpleICSAnalyzer.uczelnia
    else SimpleICSAnalyzer.inne_lokalizacje
  end.

(** * Properties *)

(** ** The matcher against a declarative reading of the patterns *)

Section MatcherFacts.
Context {A : Type}.
Implicit Types (cont : str -> option A) (k : cls) (s w : str).

Lemma strip_prefix_Some p s s' : strip_prefix p s = Some s' <-> s = p ++ s'.
Proof.
  revert s. induction p as [|a p IH]; intros s; simpl.
  - split; congruence.
  - destruct s as [|b s]; [split; discriminate|].
    destruct (N.eqb_spec a b) as [->|Hne].
    + rewrite IH. split; congruence.
    + split; [discriminate|]. intros [= -> _]. congruence.
Qed.

Lemma strip_prefix_app p s : strip_prefix p (p ++ s) = Some s.
Proof. now apply strip_prefix_Some. Qed.

Lemma star_greedy_sound k cont s a :
  star_greedy k cont s = Some a ->
  exists w s', s = w ++ s' /\ all_in k w /\ cont s' = Some a.
Proof.
  induction s as [|x s IH]; simpl.
  - intros Hc. now exists [], [].
  - destruct (in_cls k x) eqn:Hx.
    + destruct (star_greedy k cont s) as [a'|] eqn:Hs.
      * intros [= ->]. destruct (IH eq_refl) as (w & s' & -> & Hw & Hc).
        exists (x :: w), s'. repeat split; [|done].
        unfold all_in. simpl. now rewrite Hx.
      * intros Hc. now exists [], (x :: s).
    + intros Hc. now exists [], (x :: s).
Qed.

Lemma star_greedy_complete k cont w s' :
  all_in k w -> is_Some (cont s') -> is_Some (star_greedy k cont (w ++ s')).
Proof.
  intros Hw Hc. induction w as [|x w IH]; simpl.
  - destruct s' as [|y s']; simpl; [done|].
    destruct (in_cls k y); [|done].
    destruct (star_greedy k cont s'); [eauto | done].
  - unfold all_in in Hw. simpl in Hw. apply andb_true_iff in Hw as [-> Hw].
    destruct (IH Hw) as [a ->]. eauto.
Qed.

(** The longest run is tried first: when the continuation accepts what
    follows it, that is the match. *)
Lemma star_greedy_max k cont w s' a :
  all_in k w -> match s' with [] => True | y :: _ => in_cls k y = false end ->
  cont s' = Some a -> star_greedy k cont (w ++ s') = Some a.
Proof.
  intros Hw Hs' Hc. induction w as [|x w IH]; simpl.
  - destruct s' as [|y s']; simpl; [done|]. now rewrite Hs'.
  - unfold all_in in Hw. simpl in Hw. apply andb_true_iff in Hw as [-> Hw].
    now rewrite (IH Hw).
Qed.

Lemma star_lazy_sound k cont s a :
  star_lazy k cont s = Some a ->
  exists w s', s = w ++ s' /\ all_in k w /\ cont s' = Some a.
Proof.
  induction s as [|x s IH]; simpl.
  - destruct (cont []) eqn:Hc; [|done]. intros [= ->]. now exists [], [].
  - destruct (cont (x :: s)) eqn:Hc.
    + intros [= ->]. now exists [], (x :: s).
    + destruct (in_cls k x) eqn:Hx; [|done].
      intros Hs. destruct (IH Hs) as (w & s' & -> & Hw & Hc').
      exists (x :: w), s'. repeat split; [|done].
      unfold all_in. simpl. now rewrite Hx.
Qed.

Lemma star_lazy_complete k cont w s' :
  all_in k w -> is_Some (cont s') -> is_Some (star_lazy k cont (w ++ s')).
Proof.
  intros Hw [a Hc]. induction w as [|x w IH]; simpl.
  - destruct s'; simpl; rewrite Hc; eauto.
  - unfold all_in in Hw. simpl in Hw. apply andb_true_iff in Hw as [-> Hw].
    destruct (cont (x :: w ++ s')); eauto.
Qed.

(** The shortest run is tried first: the match is the first split the
    continuation accepts. *)
Lemma star_lazy_first k cont p s' a :
  all_in k p -> cont s' = Some a ->
  (forall p1 p2, p = p1 ++ p2 -> p2 <> [] -> cont (p2 ++ s') = None) ->
  star_lazy k cont (p ++ s') = Some a.
Proof.
  intros Hp Hc. induction p as [|x p IH]; intros Hfirst; simpl.
  - destruct s'; simpl; now rewrite Hc.
  - unfold all_in in Hp. simpl in Hp. apply andb_true_iff in Hp as [-> Hp].
    assert (cont (x :: p ++ s') = None) as -> by now apply (Hfirst [] (x :: p)).
    apply IH; [done|]. intros p1 p2 -> Hp2. now apply (Hfirst (x :: p1) p2).
Qed.

Lemma exec_sound n0 r : forall (cont : str -> caps -> option A) s c a,
  exec n0 r cont s c = Some a ->
  exists s' c', matches n0 r s c s' c' /\ cont s' c' = Some a.
Proof.
  induction r as [| |l|k|k|k|k|g r IH|r1 IH1 r2 IH2|r1 IH1 r2 IH2];
    intros cont s c a; simpl.
  - destruct (Nat.eqb_spec (length s) n0); [|done].
    intros Hc. exists s, c. split; [now constructor | done].
  - intros Hc. exists s, c.
    assert (s = [] \/ s = [10]) as Hs.
    { destruct s as [|x [|y s]]; [now left| |].
      - destruct x as [|p]; [done|]. do 4 (destruct p as [p|p|]; try done). now right.
      - destruct x as [|p]; [done|]. do 4 (destruct p as [p|p|]; try done). }
    split; [now apply M_Eol|]. now destruct Hs as [-> | ->].
  - destruct (strip_prefix l s) as [s'|] eqn:Hl; [|done].
    apply strip_prefix_Some in Hl as ->. intros Hc.
    exists s', c. split; [constructor | done].
  - destruct s as [|x s]; [done|]. destruct (in_cls k x) eqn:Hx; [|done].
    intros Hc. exists s, c. split; [now constructor | done].
  - intros Hs. apply star_greedy_sound in Hs as (w & s' & -> & Hw & Hc).
    exists s', c. split; [now constructor | done].
  - destruct s as [|x s]; [done|]. destruct (in_cls k x) eqn:Hx; [|done].
    intros Hs. apply star_greedy_sound in Hs as (w & s' & -> & Hw & Hc).
    exists s', c. split; [now constructor | done].
  - destruct s as [|x s]; [done|]. destruct (in_cls k x) eqn:Hx; [|done].
    intros Hs. apply star_lazy_sound in Hs as (w & s' & -> & Hw & Hc).
    exists s', c. split; [now constructor | done].
  - intros Hs. apply IH in Hs as (s' & c' & Hm & Hc).
    eexists _, _. split; [constructor; eassumption | done].
  - destruct (exec n0 r1 cont s c) as [a'|] eqn:H1.
    + intros [= ->]. apply IH1 in H1 as (s' & c' & Hm & Hc).
      exists s', c'. split; [now apply M_Alt_l | done].
    + intros H2. apply IH2 in H2 as (s' & c' & Hm & Hc).
      exists s', c'. split; [now apply M_Alt_r | done].
  - intros H1. apply IH1 in H1 as (s1 & c1 & Hm1 & H2).
    apply IH2 in H2 as (s2 & c2 & Hm2 & Hc).
    exists s2, c2. split; [econstructor; eassumption | done].
Qed.

Lemma exec_complete n0 r s c s' c' :
  matches n0 r s c s' c' ->
  forall (cont : str -> caps -> option A),
  is_Some (cont s' c') -> is_Some (exec n0 r cont s c).
Proof.
  induction 1 as [s c Hn|s c Hs|l s c|k x s c Hx|k w s c Hw|k x w s c Hx Hw
    |k x w s c Hx Hw|g r s c s' c' Hm IH|r1 r2 s c s' c' Hm IH
    |r1 r2 s c s' c' Hm IH|r1 r2 s c s1 c1 s2 c2 Hm1 IH1 Hm2 IH2];
    intros cont Hc; simpl.
  - subst n0. now rewrite Nat.eqb_refl.
  - now destruct Hs as [-> | ->].
  - now rewrite strip_prefix_app.
  - now rewrite Hx.
  - now apply star_greedy_complete.
  - rewrite Hx. now apply star_greedy_complete.
  - rewrite Hx. now apply star_lazy_complete.
  - now apply IH.
  - destruct (IH cont Hc) as [a ->]. eauto.
  - destruct (exec n0 r1 cont s c); [eauto|]. now apply IH.
  - apply IH1. now apply IH2.
Qed.

End MatcherFacts.

(** A match consumes a prefix of its input. *)
Lemma matches_suffix n0 r s c s' c' :
  matches n0 r s c s' c' -> exists p, s = p ++ s'.
Proof.
  induction 1 as [s c Hn|s c Hs|l s c|k x s c Hx|k w s c Hw|k x w s c Hx Hw
    |k x w s c Hx Hw|g r s c s' c' Hm IH|r1 r2 s c s' c' Hm IH
    |r1 r2 s c s' c' Hm IH|r1 r2 s c s1 c1 s2 c2 Hm1 IH1 Hm2 IH2];
    try (now exists []); eauto.
  - now exists [x].
  - now exists (x :: w).
  - now exists (x :: w).
  - destruct IH1 as [p1 ->], IH2 as [p2 ->]. exists (p1 ++ p2). now rewrite <- app_assoc.
Qed.

Lemma taken_app p s : taken (p ++ s) s = p.
Proof.
  unfold taken. rewrite length_app.
  replace (length p + length s - length s)%nat with (length p) by lia.
  now rewrite firstn_app, Nat.sub_diag, firstn_all, app_nil_r.
Qed.

(** ** Strings: classes, splitting, [strip], [in] *)

Lemma all_in_nil k : all_in k [].
Proof. reflexivity. Qed.

Lemma all_in_cons k x w : all_in k (x :: w) <-> in_cls k x = true /\ all_in k w.
Proof. unfold all_in. simpl. apply andb_true_iff. Qed.

Lemma all_in_app k a b : all_in k (a ++ b) <-> all_in k a /\ all_in k b.
Proof. unfold all_in. rewrite forallb_app. apply andb_true_iff. Qed.

Lemma all_in_rev k a : all_in k (rev a) <-> all_in k a.
Proof.
  induction a as [|x a IH]; simpl; [done|].
  rewrite all_in_app, IH, !all_in_cons. pose proof (all_in_nil k). tauto.
Qed.

Lemma all_in_In k w x : all_in k w -> In x w -> in_cls k x = true.
Proof. unfold all_in. rewrite forallb_forall. auto. Qed.

(** Two ways of splitting one string, the first at a character [c] that
    does not occur in the front part [u] of the second: [u] ends before
    [c]. *)
Lemma split_before (a : str) (c : cp) (b u v : str) :
  a ++ c :: b = u ++ v -> ~ In c u -> exists t, a = u ++ t /\ v = t ++ c :: b.
Proof.
  revert a. induction u as [|y u IH]; intros a Heq Hc; simpl in *.
  - exists a. now subst.
  - destruct a as [|x a]; simpl in Heq.
    + injection Heq as -> _. tauto.
    + injection Heq as -> Heq. destruct (IH a Heq) as (t & -> & ->); [tauto|].
      now exists t.
Qed.

(** The same, for a character that occurs in neither front part: both
    splits are at the same place. *)
Lemma split_unique (a : str) (c : cp) (b a' b' : str) :
  a ++ c :: b = a' ++ c :: b' -> ~ In c a -> ~ In c a' -> a = a' /\ b = b'.
Proof.
  intros Heq Ha Ha'.
  destruct (split_before _ _ _ _ _ Heq Ha') as (t & -> & Ht).
  destruct t as [|x t]; simpl in Ht.
  - injection Ht as ->. now rewrite app_nil_r.
  - injection Ht as -> _. exfalso. apply Ha. apply in_or_app. right. now left.
Qed.

Lemma startswith_spec (s p : str) : startswith s p = true <-> exists b, s = p ++ b.
Proof.
  revert s. induction p as [|a p IH]; intros [|b s]; simpl.
  - split; [now exists [] | reflexivity].
  - split; [now exists (b :: s) | reflexivity].
  - split; [discriminate | intros [? ?]; discriminate].
  - destruct (N.eqb_spec a b) as [->|Hne]; simpl.
    + rewrite IH. split; [intros [t ->]; eauto | intros [t [= ->]]; eauto].
    + split; [discriminate | intros [t [= -> _]]; congruence].
Qed.

Lemma contains_spec (p s : str) : contains p s = true <-> exists a b, s = a ++ p ++ b.
Proof.
  induction s as [|x s IH]; cbn [contains]; rewrite orb_true_iff, startswith_spec.
  - split.
    + intros [[b Hb] | ?]; [|discriminate]. now exists [], b.
    + intros (a & b & Hab). left. destruct a; [|discriminate]. eauto.
  - rewrite IH. split.
    + intros [[b Hb] | (a & b & ->)]; [now exists [], b | now exists (x :: a), b].
    + intros (a & b & Hab). destruct a as [|y a]; simpl in Hab.
      * left. eauto.
      * right. injection Hab as -> ->. eauto.
Qed.

Lemma contains_false (p s a b : str) : contains p s = false -> s <> a ++ p ++ b.
Proof.
  intros Hc ->. enough (contains p (a ++ p ++ b) = true) by congruence.
  apply contains_spec. eauto.
Qed.

(** An occurrence of [p] in [a ++ c :: b], when [c] is no character of
    [p], lies in [a] or in [b]. *)
Lemma contains_split (p a : str) (c : cp) (b : str) :
  ~ In c p -> contains p a = false -> contains p b = false ->
  contains p (a ++ c :: b) = false.
Proof.
  intros Hc Ha Hb. apply not_true_is_false. rewrite contains_spec.
  intros (u & v & Heq).
  apply app_eq_app in Heq as [l [[-> Hl] | [-> Hl]]].
  - symmetry in Hl. destruct (split_before _ _ _ _ _ Hl Hc) as (t & -> & _).
    now apply (contains_false _ _ u t) in Ha.
  - destruct l as [|x l]; simpl in Hl.
    + destruct p as [|y p]; [now destruct a|].
      injection Hl as -> _. apply Hc. now left.
    + injection Hl as _ ->. now apply (contains_false _ _ l v) in Hb.
Qed.

(** An occurrence of [p] in [w ++ s], when no character of [w] is one of
    [p], lies in [s]. *)
Lemma contains_skip (p w s : str) :
  (forall x, In x w -> ~ In x p) -> p <> [] -> contains p s = false ->
  contains p (w ++ s) = false.
Proof.
  intros Hw Hp Hs. induction w as [|x w IH]; simpl; [done|].
  rewrite IH by (intros y Hy; apply Hw; now right).
  rewrite orb_false_r. destruct p as [|y p]; [done|]. simpl.
  destruct (N.eqb_spec y x) as [->|]; [|done].
  exfalso. apply (Hw x); now left.
Qed.

(** An occurrence of [p] in [a ++ s], when the first character of [p]
    does not occur in [a], lies in [s]. *)
Lemma contains_after (p a s : str) (y : cp) (p' : str) :
  p = y :: p' -> ~ In y a -> contains p s = false -> contains p (a ++ s) = false.
Proof.
  intros -> Ha Hs. induction a as [|x a IH]; simpl; [done|].
  rewrite IH by (intros Hy; apply Ha; now right).
  rewrite orb_false_r.
  destruct (N.eqb_spec y x) as [->|]; [|done].
  exfalso. apply Ha. now left.
Qed.

Lemma lstrip_ws (l m : str) : all_in CSpace l -> lstrip (l ++ m) = lstrip m.
Proof.
  induction l as [|x l IH]; simpl; [done|].
  intros [Hx Hl]%all_in_cons. simpl in Hx. rewrite Hx. auto.
Qed.

Lemma lstrip_nonspace (m : str) : nonspace_hd m -> lstrip m = m.
Proof. destruct m as [|x m]; simpl; [done|]. now intros ->. Qed.

Lemma lstrip_split (s : str) :
  exists l, s = l ++ lstrip s /\ all_in CSpace l /\
            (lstrip s = [] \/ nonspace_hd (lstrip s)).
Proof.
  induction s as [|x s (l & Hs & Hl & Hd)]; simpl.
  - exists []. auto using all_in_nil.
  - destruct (isspace x) eqn:Hx.
    + exists (x :: l). split; [simpl; congruence|]. split; [|done].
      now apply all_in_cons.
    + exists []. split; [done|]. split; [apply all_in_nil|]. now right.
Qed.

Lemma strip_core (l m r : str) :
  all_in CSpace l -> all_in CSpace r -> nonspace_hd m -> nonspace_last m ->
  strip (l ++ m ++ r) = m.
Proof.
  intros Hl Hr Hh Ht. unfold strip, rstrip.
  rewrite lstrip_ws by done.
  rewrite (lstrip_nonspace (m ++ r)) by (destruct m; [done | exact Hh]).
  rewrite rev_app_distr, lstrip_ws by now apply all_in_rev.
  rewrite lstrip_nonspace by done. apply rev_involutive.
Qed.

Lemma strip_split (s : str) :
  strip s <> [] ->
  exists l r, s = l ++ strip s ++ r /\ all_in CSpace l /\ all_in CSpace r /\
              nonspace_hd (strip s) /\ nonspace_last (strip s).
Proof.
  intros Hne. destruct (lstrip_split s) as (l & Hs & Hl & Hd).
  destruct (lstrip_split (rev (lstrip s))) as (r & Hr & Hwr & Hd').
  unfold strip, rstrip in *.
  set (m := lstrip (rev (lstrip s))) in *.
  assert (lstrip s = rev m ++ rev r) as Hm.
  { rewrite <- rev_app_distr, <- Hr. now rewrite rev_involutive. }
  exists l, (rev r). split; [congruence|]. split; [done|].
  split; [now apply all_in_rev|].
  assert (m <> []) as Hm0 by (intros E; apply Hne; now rewrite E).
  destruct Hd' as [? | Hd']; [done|].
  split; [|unfold nonspace_last; now rewrite rev_involutive].
  destruct Hd as [Hd | Hd].
  - rewrite Hd in Hm. destruct (rev m); [done | discriminate].
  - rewrite Hm in Hd. destruct (rev m); [done | exact Hd].
Qed.

(** A string that is not blank keeps a character when stripped. *)
Lemma strip_nonempty (s : str) : forallb isspace s = false -> strip s <> [].
Proof.
  intros Hs Hnil. destruct (lstrip_split s) as (l & Hl & Hw & _).
  destruct (lstrip_split (rev (lstrip s))) as (r & Hr & Hwr & _).
  unfold strip, rstrip in Hnil.
  apply (f_equal (@rev cp)) in Hnil. rewrite rev_involutive in Hnil. simpl in Hnil.
  rewrite Hnil, app_nil_r in Hr.
  assert (all_in CSpace s) as Hall.
  { rewrite Hl. apply all_in_app. split; [done|].
    apply all_in_rev. now rewrite Hr. }
  unfold all_in in Hall. change (in_cls CSpace) with isspace in Hall. congruence.
Qed.

(** ** Inversion of [matches], and the matcher on the pieces of a title *)

Lemma matches_bol_inv n0 s c s' c' :
  matches n0 Bol s c s' c' -> s' = s /\ c' = c /\ length s = n0.
Proof. now inversion 1. Qed.

Lemma matches_eol_inv n0 s c s' c' :
  matches n0 Eol s c s' c' -> s' = s /\ c' = c /\ (s = [] \/ s = [10]).
Proof. now inversion 1. Qed.

Lemma matches_lit_inv n0 l s c s' c' :
  matches n0 (Lit l) s c s' c' -> s = l ++ s' /\ c' = c.
Proof. now inversion 1. Qed.

Lemma matches_cls_inv n0 k s c s' c' :
  matches n0 (Cls k) s c s' c' -> exists x, s = x :: s' /\ c' = c /\ in_cls k x = true.
Proof. inversion 1; subst. eauto. Qed.

Lemma matches_star_inv n0 k s c s' c' :
  matches n0 (Star k) s c s' c' -> exists w, s = w ++ s' /\ c' = c /\ all_in k w.
Proof. inversion 1; subst. eauto. Qed.

Lemma matches_plus_inv n0 k s c s' c' :
  matches n0 (Plus k) s c s' c' ->
  exists p, s = p ++ s' /\ c' = c /\ p <> [] /\ all_in k p.
Proof.
  inversion 1; subst. exists (x :: w). repeat split; [done|]. now apply all_in_cons.
Qed.

Lemma matches_pluslazy_inv n0 k s c s' c' :
  matches n0 (PlusLazy k) s c s' c' ->
  exists p, s = p ++ s' /\ c' = c /\ p <> [] /\ all_in k p.
Proof.
  inversion 1; subst. exists (x :: w). repeat split; [done|]. now apply all_in_cons.
Qed.

Lemma matches_group_inv n0 g r s c s' c' :
  matches n0 (Group g r) s c s' c' ->
  exists c1, matches n0 r s c s' c1 /\ c' = (g, taken s s') :: c1.
Proof. inversion 1; subst. eauto. Qed.

Lemma matches_alt_inv n0 r1 r2 s c s' c' :
  matches n0 (Alt r1 r2) s c s' c' ->
  matches n0 r1 s c s' c' \/ matches n0 r2 s c s' c'.
Proof. inversion 1; subst; auto. Qed.

Lemma matches_seq_inv n0 r1 r2 s c s2 c2 :
  matches n0 (Seq r1 r2) s c s2 c2 ->
  exists s1 c1, matches n0 r1 s c s1 c1 /\ matches n0 r2 s1 c1 s2 c2.
Proof. inversion 1; subst. eauto. Qed.

(** Breaks a [matches] hypothesis on a sequence of items into the items. *)
Ltac split_matches :=
  repeat match goal with
  | H : matches _ (Seq _ _) _ _ _ _ |- _ =>
    apply matches_seq_inv in H as (? & ? & ? & H)
  | H : matches _ (Group _ _) _ _ _ _ |- _ =>
    apply matches_group_inv in H as (? & H & ?)
  | H : matches _ (Lit _) _ _ _ _ |- _ =>
    apply matches_lit_inv in H as (? & ?)
  | H : matches _ (Star _) _ _ _ _ |- _ =>
    apply matches_star_inv in H as (? & ? & ? & ?)
  | H : matches _ (Plus _) _ _ _ _ |- _ =>
    apply matches_plus_inv in H as (? & ? & ? & ? & ?)
  | H : matches _ (PlusLazy _) _ _ _ _ |- _ =>
    apply matches_pluslazy_inv in H as (? & ? & ? & ? & ?)
  | H : matches _ Bol _ _ _ _ |- _ =>
    apply matches_bol_inv in H as (? & ? & ?)
  | H : matches _ Eol _ _ _ _ |- _ =>
    apply matches_eol_inv in H as (? & ? & ?)
  end.

(** Equations between strings that differ by the grouping of [++]. *)
Ltac list_assoc :=
  repeat (progress (rewrite <- ?app_assoc; cbn [app])); reflexivity.

Lemma isspace_in_cls x : in_cls CSpace x = isspace x.
Proof. reflexivity. Qed.

(** When the last character of [m] is not a space, no non-empty end of
    [m] is made of spaces only. *)
Lemma nonspace_last_end (m p1 p2 : str) :
  nonspace_last m -> m = p1 ++ p2 -> p2 <> [] -> ~ all_in CSpace p2.
Proof.
  intros Hm -> Hp2 Hall. unfold nonspace_last in Hm.
  rewrite rev_app_distr in Hm.
  apply all_in_rev in Hall.
  destruct (rev p2) as [|y q] eqn:Hr.
  - apply Hp2. apply (f_equal (@rev cp)) in Hr. now rewrite rev_involutive in Hr.
  - simpl in Hm. apply all_in_cons in Hall as [Hy _]. simpl in Hy. congruence.
Qed.

Section Pieces.
Context {A : Type}.
Implicit Types (cont : str -> caps -> option A).

Lemma exec_lit n0 l cont s c : exec n0 (Lit l) cont (l ++ s) c = cont s c.
Proof. simpl. now rewrite strip_prefix_app. Qed.

(** [\s*] before a literal that starts with a character that is no space:
    the spaces are all taken, whatever follows the literal. *)
Lemma exec_ws_lit n0 a l r cont w s c :
  all_in CSpace w -> isspace a = false ->
  exec n0 (Seq (Star CSpace) (Seq (Lit (a :: l)) r)) cont (w ++ (a :: l) ++ s) c
  = exec n0 r cont s c.
Proof.
  intros Hw Ha. cbn [exec]. change ((a :: l) ++ s) with (a :: (l ++ s)).
  induction w as [|x w IH]; cbn [app star_greedy].
  - rewrite isspace_in_cls, Ha. simpl. rewrite N.eqb_refl. now rewrite strip_prefix_app.
  - apply all_in_cons in Hw as [Hx Hw]. rewrite Hx, (IH Hw).
    destruct (exec n0 r cont s c); [done|].
    simpl. destruct (N.eqb_spec a x) as [->|]; [|done].
    rewrite isspace_in_cls in Hx. congruence.
Qed.

(** [^] at the start of the subject. *)
Lemma exec_bol r cont s c :
  exec (length s) (Seq Bol r) cont s c = exec (length s) r cont s c.
Proof. cbn [exec]. now rewrite Nat.eqb_refl. Qed.

(** [\s*(.+)$] on spaces followed by text without a newline that starts
    with a character that is no space. *)
Lemma exec_ws_rest n0 g cont w m c a :
  all_in CSpace w -> nonspace_hd m -> all_in CAny m ->
  cont [] ((g, m) :: c) = Some a ->
  exec n0 (Seq (Star CSpace) (Seq (Group g (Plus CAny)) Eol)) cont (w ++ m) c = Some a.
Proof.
  intros Hw Hh Hm Hc. cbn [exec].
  apply star_greedy_max; [done | destruct m; [done | exact Hh] |].
  destruct m as [|x m]; [done|]. apply all_in_cons in Hm as [Hx Hm]. rewrite Hx.
  rewrite <- (app_nil_r m) at 1. apply star_greedy_max; [done..|].
  change (x :: m) with ([x] ++ m). rewrite <- (app_nil_r ([x] ++ m)), taken_app.
  exact Hc.
Qed.

(** [(.+?)] followed by [r]: the group ends at the first place where [r]
    and the rest of the pattern match. *)
Lemma exec_lazy_group n0 g r cont m s c a :
  m <> [] -> all_in CAny m ->
  exec n0 r cont s ((g, m) :: c) = Some a ->
  (forall p1 p2 c', m = p1 ++ p2 -> p1 <> [] -> p2 <> [] ->
     exec n0 r cont (p2 ++ s) c' = None) ->
  exec n0 (Seq (Group g (PlusLazy CAny)) r) cont (m ++ s) c = Some a.
Proof.
  intros Hm Hall Hr Hfirst. destruct m as [|x m]; [done|].
  apply all_in_cons in Hall as [Hx Hall]. cbn [exec app]. rewrite Hx.
  apply star_lazy_first; [done| |].
  - change (x :: m ++ s) with ((x :: m) ++ s). now rewrite taken_app.
  - intros p1 p2 -> Hp2. now apply (Hfirst (x :: p1) p2).
Qed.

End Pieces.

(** ** The two shapes of a pattern *)

Lemma lacks_In c s : lacks c s -> ~ In c s.
Proof.
  unfold lacks. intros Hc Hin. apply in_split in Hin as (a & b & ->).
  now apply (contains_false _ _ a b) in Hc.
Qed.

Lemma In_lacks c s : ~ In c s -> lacks c s.
Proof.
  intros Hc. apply not_true_is_false. intros (a & b & ->)%contains_spec.
  apply Hc. apply in_or_app. right. now left.
Qed.

Lemma lacks_app c a b : lacks c (a ++ b) <-> lacks c a /\ lacks c b.
Proof.
  split.
  - intros H%lacks_In. split; apply In_lacks; intros ?; apply H, in_or_app; auto.
  - intros [Ha%lacks_In Hb%lacks_In]. apply In_lacks. intros [?|?]%in_app_or; auto.
Qed.

Lemma spaces_lack c w : isspace c = false -> all_in CSpace w -> ~ In c w.
Proof. intros Hc Hw Hin. apply (all_in_In _ _ _ Hw) in Hin. simpl in Hin. congruence. Qed.

Lemma kw_instructor_eq : kw_instructor = 80 :: tl kw_instructor.
Proof. reflexivity. Qed.

Lemma kw_room_eq : kw_room = 83 :: tl kw_room.
Proof. reflexivity. Qed.

Lemma kw_instructor_chars x : In x kw_instructor -> isspace x = false /\ x <> 40 /\ x <> 44.
Proof.
  intros Hx. vm_compute in Hx.
  repeat (destruct Hx as [<- | Hx]; [repeat split; done|]). done.
Qed.

Lemma kw_room_chars x :
  In x kw_room -> isspace x = false /\ x <> 40 /\ x <> 44 /\ x <> 80.
Proof.
  intros Hx. vm_compute in Hx.
  repeat (destruct Hx as [<- | Hx]; [repeat split; done|]). done.
Qed.

Section Forms.

(** A tag item: the texts it matches and what it adds to the captures. *)
Variables (tag : regex) (texts : list str) (upd : str -> caps -> caps).
Hypothesis tag_exec : forall (A : Type) n0 (cont : str -> caps -> option A) t s c,
  In t texts -> exec n0 tag cont (t ++ s) c = cont s (upd t c).
Hypothesis tag_inv : forall n0 s c s' c',
  matches n0 tag s c s' c' -> exists t, In t texts /\ s = t ++ s' /\ c' = upd t c.

Lemma tag_matches n0 t s c : In t texts -> matches n0 tag (t ++ s) c s (upd t c).
Proof.
  intros Ht.
  pose proof (tag_exec _ n0 (fun s' c' => Some (s', c')) t s c Ht) as He.
  apply exec_sound in He as (s' & c' & Hm & [= -> ->]). exact Hm.
Qed.

(** What a match of a pattern of this shape says about the title. *)
Lemma form_inv n0 tail s c s' c' :
  matches n0 (form tag tail) s c s' c' ->
  exists P ws t X, s = P ++ ws ++ [40] ++ t ++ X /\ P <> [] /\ all_in CAny P /\
    all_in CSpace ws /\ In t texts /\ length s = n0 /\
    matches n0 tail X (upd t ((1%nat, P) :: c)) s' c'.
Proof.
  unfold form. cbn [cat]. intros Hm. split_matches. subst.
  match goal with H : matches _ tag _ _ _ _ |- _ =>
    apply tag_inv in H as (t & Ht & -> & ->) end.
  rewrite taken_app in Hm.
  eexists _, _, t, _. split; [reflexivity|]. repeat split; done.
Qed.

(** Conversely, a title of that shape is matched (possibly in an other
    way). *)
Lemma form_matches tail P ws t X s' c' :
  P <> [] -> all_in CAny P -> all_in CSpace ws -> In t texts ->
  matches (length (P ++ ws ++ [40] ++ t ++ X)) tail X (upd t [(1%nat, P)]) s' c' ->
  matches (length (P ++ ws ++ [40] ++ t ++ X)) (form tag tail)
    (P ++ ws ++ [40] ++ t ++ X) [] s' c'.
Proof.
  intros HP Hall Hws Ht Htail. unfold form. cbn [cat].
  eapply M_Seq; [now apply M_Bol|].
  eapply M_Seq.
  { apply M_Group. destruct P as [|x P]; [done|].
    apply all_in_cons in Hall as [Hx Hall]. now apply (M_PlusLazy _ _ x P). }
  rewrite taken_app.
  eapply M_Seq; [now apply M_Star|].
  eapply M_Seq; [apply (M_Lit _ [40])|].
  eapply M_Seq; [now apply tag_matches | exact Htail].
Qed.

(** The match the matcher finds first, on a title whose subject has no
    opening parenthesis and ends with a character that is no space. *)
Lemma form_first (A : Type) (cont : str -> caps -> option A) tail S0 ws t X a :
  S0 <> [] -> all_in CAny S0 -> lacks 40 S0 -> nonspace_last S0 ->
  all_in CSpace ws -> In t texts ->
  exec (length (S0 ++ ws ++ [40] ++ t ++ X)) tail cont X (upd t [(1%nat, S0)]) = Some a ->
  exec (length (S0 ++ ws ++ [40] ++ t ++ X)) (form tag tail) cont
    (S0 ++ ws ++ [40] ++ t ++ X) [] = Some a.
Proof.
  intros HS Hall Hpar Hlast Hws Ht Htail. unfold form. cbn [cat].
  change (utf8 "(") with [40]. rewrite exec_bol. apply exec_lazy_group; [done..| |].
  - rewrite exec_ws_lit by done. cbn [exec]. now rewrite tag_exec.
  - intros p1 p2 c' -> Hp1 Hp2.
    match goal with |- ?e = None => destruct e eqn:He; [exfalso|done] end.
    apply exec_sound in He as (s1 & c1 & Hm & _). split_matches. subst.
    match goal with H : _ ++ _ = _ |- _ => rename H into Heq end.
    symmetry in Heq. change ([40] ++ ?s) with (40 :: s) in Heq.
    apply lacks_app in Hpar as [_ Hpar%lacks_In].
    apply split_before in Heq as (t' & -> & _); [|done].
    match goal with H : all_in CSpace (_ ++ _) |- _ =>
      apply all_in_app in H as [H _]; now apply (nonspace_last_end _ p1 p2 Hlast) in H end.
Qed.

End Forms.

Section Tail.
Context {A : Type}.
Implicit Types (cont : str -> caps -> option A).

Lemma exec_seq_lit n0 l r cont s c :
  exec n0 (Seq (Lit l) r) cont (l ++ s) c = exec n0 r cont s c.
Proof. cbn [exec]. now rewrite strip_prefix_app. Qed.

(** [\s*] before text that starts with a character that is no space. *)
Lemma exec_ws_then n0 r cont w s c a :
  all_in CSpace w -> nonspace_hd s ->
  exec n0 r cont s c = Some a ->
  exec n0 (Seq (Star CSpace) r) cont (w ++ s) c = Some a.
Proof.
  intros Hw Hs Hr.
  change (star_greedy CSpace (fun s' => exec n0 r cont s' c) (w ++ s) = Some a).
  apply star_greedy_max; [done| |done]. destruct s; [done | exact Hs].
Qed.

(** The tail of the full form on a title written with instructor text
    [N1] and room text [R0]. *)
Lemma full_tail_first n0 gi gr cont w2 w3 w4 N1 w5 w6 R0 c a :
  all_in CSpace w2 -> all_in CSpace w3 -> all_in CSpace w4 ->
  all_in CSpace w5 -> all_in CSpace w6 ->
  nonspace_hd N1 -> all_in CAny N1 -> contains kw_room N1 = false ->
  nonspace_hd R0 -> all_in CAny R0 ->
  cont [] ((gr, R0) :: (gi, N1) :: c) = Some a ->
  exec n0 (full_tail gi gr) cont
    ([41] ++ w2 ++ [45] ++ w3 ++ kw_instructor ++ w4 ++ N1 ++ [44] ++ w5 ++
     kw_room ++ w6 ++ R0) c = Some a.
Proof.
  intros H2 H3 H4 H5 H6 HN HNall HNkw HR HRall Hc.
  unfold full_tail. cbn [cat].
  change (utf8 ")") with [41]. change (utf8 "-") with [45]. change (utf8 ",") with [44].
  rewrite exec_seq_lit, exec_ws_lit by done.
  rewrite kw_instructor_eq, exec_ws_lit by done.
  apply exec_ws_then; [done | destruct N1; [done | exact HN] |].
  apply exec_lazy_group; [now destruct N1 | done | |].
  - rewrite exec_seq_lit. rewrite kw_room_eq, exec_ws_lit by done.
    now apply exec_ws_rest.
  - intros p1 p2 c' -> Hp1 Hp2.
    pose proof kw_room_chars as HK. set (K := kw_room) in *. clearbody K.
    match goal with |- ?e = None => destruct e eqn:He; [exfalso|done] end.
    apply exec_sound in He as (s1 & c1 & Hm & _).
    apply matches_seq_inv in Hm as (s2 & c2 & Hm1 & Hm).
    apply matches_lit_inv in Hm1 as [Hm1 _].
    apply matches_seq_inv in Hm as (s3 & c3 & Hm2 & Hm).
    apply matches_star_inv in Hm2 as (w & -> & _ & Hw).
    apply matches_seq_inv in Hm as (s4 & c4 & Hm3 & _).
    apply matches_lit_inv in Hm3 as [-> _].
    destruct p2 as [|y p2]; [done|]. injection Hm1 as -> Heq.
    change ([44] ++ ?s) with (44 :: s) in Heq. rewrite (app_assoc w K s4) in Heq.
    apply split_before in Heq as (t' & -> & _).
    + apply (contains_false K _ (p1 ++ 44 :: w) t' HNkw).
      now rewrite <- !app_assoc.
    + intros [Hin | Hin]%in_app_or.
      * now apply (spaces_lack 44 w).
      * now apply HK in Hin.
Qed.

End Tail.

Lemma full_tail_inv n0 gi gr s c s' c' :
  matches n0 (full_tail gi gr) s c s' c' ->
  exists w2 w3 rest N R,
    s = [41] ++ w2 ++ [45] ++ w3 ++ kw_instructor ++ rest /\
    all_in CSpace w2 /\ all_in CSpace w3 /\ c' = (gr, R) :: (gi, N) :: c.
Proof.
  unfold full_tail. cbn [cat]. intros Hm. split_matches. subst.
  eexists _, _, _, _, _. split; [reflexivity|]. repeat split; done.
Qed.

(** ** The tag items of the patterns *)

Lemma tagWL_exec g (A : Type) n0 (cont : str -> caps -> option A) t s c :
  In t texts_WL_ECW -> exec n0 (tag_WL_ECW g) cont (t ++ s) c = cont s ((g, t) :: c).
Proof.
  intros [<- | [<- | [<- | []]]]; unfold tag_WL_ECW; cbn [exec].
  - change (utf8 "W" ++ s) with (87 :: s). cbv beta iota.
    change (in_cls _ 87) with true. cbv iota.
    change (strip_prefix (utf8 "E-CW") (87 :: s)) with (@None str).
    change (87 :: s) with ([87] ++ s). rewrite taken_app.
    now destruct (cont s _).
  - change (utf8 "L" ++ s) with (76 :: s). cbv beta iota.
    change (in_cls _ 76) with true. cbv iota.
    change (strip_prefix (utf8 "E-CW") (76 :: s)) with (@None str).
    change (76 :: s) with ([76] ++ s). rewrite taken_app.
    now destruct (cont s _).
  - change (utf8 "E-CW" ++ s) with (69 :: ([45; 67; 87] ++ s)). cbv beta iota.
    change (in_cls _ 69) with false. cbv iota.
    change (utf8 "E-CW") with ([69; 45; 67; 87]).
    change (69 :: [45; 67; 87] ++ s) with ([69; 45; 67; 87] ++ s).
    now rewrite strip_prefix_app, taken_app.
Qed.

Lemma tagWL_inv g n0 s c s' c' :
  matches n0 (tag_WL_ECW g) s c s' c' ->
  exists t, In t texts_WL_ECW /\ s = t ++ s' /\ c' = (g, t) :: c.
Proof.
  unfold tag_WL_ECW. intros (c1 & [Hm | Hm]%matches_alt_inv & ->)%matches_group_inv.
  - apply matches_cls_inv in Hm as (x & -> & -> & Hx).
    change (x :: s') with ([x] ++ s'). rewrite taken_app.
    change (existsb (N.eqb x) [87; 76] = true) in Hx.
    apply existsb_exists in Hx as (y & Hy & ->%N.eqb_eq).
    destruct Hy as [<- | [<- | []]].
    + exists (utf8 "W"). repeat split. now left.
    + exists (utf8 "L"). repeat split. right. now left.
  - apply matches_lit_inv in Hm as (-> & ->). rewrite taken_app.
    exists (utf8 "E-CW"). repeat split. right. right. now left.
Qed.

Lemma tagLit_exec tg (A : Type) n0 (cont : str -> caps -> option A) t s c :
  In t [tg] -> exec n0 (Lit tg) cont (t ++ s) c = cont s c.
Proof. intros [<- | []]. apply exec_lit. Qed.

Lemma tagLit_inv tg n0 s c s' c' :
  matches n0 (Lit tg) s c s' c' -> exists t, In t [tg] /\ s = t ++ s' /\ c' = c.
Proof. intros [-> ->]%matches_lit_inv. exists tg. repeat split. now left. Qed.

(** The patterns of the source are of the two shapes. *)
Lemma patterns_full :
  SimpleICSAnalyzer.pattern1 = full_form (tag_WL_ECW 2) 3 4 /\
  SimpleICSAnalyzer.pattern2 = full_form (Lit (utf8 "E-W")) 2 3 /\
  SimpleICSAnalyzer.pattern3 = full_form (Lit (utf8 "E-ĆW")) 2 3 /\
  SimpleICSAnalyzer.pattern4 = full_form (Lit (utf8 "ĆW")) 2 3 /\
  ICSAnalyzer.pattern = full_form (tag_WL_ECW 2) 3 4.
Proof. repeat split. Qed.

Lemma patterns_short :
  SimpleICSAnalyzer.simple_patterns =
    [short_form (tag_WL_ECW 2); short_form (Lit (utf8 "E-W"));
     short_form (Lit (utf8 "E-ĆW")); short_form (Lit (utf8 "ĆW"))] /\
  ICSAnalyzer.simple_pattern = short_form (tag_WL_ECW 2).
Proof. repeat split. Qed.

(** ** Titles that begin with [<subject>\s*(<tag>)] *)

(** Two readings of one title, the first with a subject without [(]: the
    parenthesis of the second is the same one, or a later one. *)
Lemma paren_split (S0 ws X P ws' Y : str) :
  lacks 40 S0 -> all_in CSpace ws ->
  S0 ++ ws ++ [40] ++ X = P ++ ws' ++ [40] ++ Y ->
  Y = X \/ exists l, X = l ++ [40] ++ Y.
Proof.
  intros HS Hws Heq. rewrite (app_assoc S0 ws), (app_assoc P ws') in Heq.
  change ([40] ++ ?s) with (40 :: s) in Heq. symmetry in Heq.
  apply split_before in Heq as (t & _ & Ht).
  - destruct t as [|x t]; simpl in Ht.
    + left. congruence.
    + right. injection Ht as _ ->. now exists t.
  - intros [?|?]%in_app_or; [now apply (lacks_In 40 S0) | now apply (spaces_lack 40 ws)].
Qed.

Section FormsOnTitles.
Variables (tag : regex) (texts : list str) (upd : str -> caps -> caps).
Hypothesis tag_exec : forall (A : Type) n0 (cont : str -> caps -> option A) t s c,
  In t texts -> exec n0 tag cont (t ++ s) c = cont s (upd t c).
Hypothesis tag_inv : forall n0 s c s' c',
  matches n0 tag s c s' c' -> exists t, In t texts /\ s = t ++ s' /\ c' = upd t c.

Lemma re_match_short_inv t m :
  re_match (short_form tag) t = Some m ->
  exists P ws tg rest,
    t = P ++ ws ++ [40] ++ tg ++ [41] ++ rest /\
    P <> [] /\ all_in CAny P /\ all_in CSpace ws /\ In tg texts /\
    m = upd tg [(1%nat, P)].
Proof.
  unfold re_match, short_form. intros (s' & c' & Hm & [= ->])%exec_sound.
  apply (form_inv tag texts upd tag_inv) in Hm
    as (P & ws & tg & X & -> & HP & Hall & Hws & Htg & _ & Hm).
  apply matches_lit_inv in Hm as [-> ->]. now exists P, ws, tg, s'.
Qed.

Lemma re_match_full_inv gi gr t m :
  re_match (full_form tag gi gr) t = Some m ->
  exists P ws tg w2 w3 rest N R,
    t = P ++ ws ++ [40] ++ tg ++ [41] ++ w2 ++ [45] ++ w3 ++ kw_instructor ++ rest /\
    P <> [] /\ all_in CAny P /\ all_in CSpace ws /\ In tg texts /\
    all_in CSpace w2 /\ all_in CSpace w3 /\
    m = (gr, R) :: (gi, N) :: upd tg [(1%nat, P)].
Proof.
  unfold re_match, full_form. intros (s' & c' & Hm & [= ->])%exec_sound.
  apply (form_inv tag texts upd tag_inv) in Hm
    as (P & ws & tg & X & -> & HP & Hall & Hws & Htg & _ & Hm).
  apply full_tail_inv in Hm as (w2 & w3 & rest & N & R & -> & H2 & H3 & ->).
  now exists P, ws, tg, w2, w3, rest, N, R.
Qed.

Lemma re_match_short_prefix t m :
  re_match (short_form tag) t = Some m -> short_prefix texts t.
Proof.
  intros (P & ws & tg & rest & ? & ? & ? & ? & ? & _)%re_match_short_inv.
  now exists P, ws, tg, rest.
Qed.

Lemma re_match_full_prefix gi gr t m :
  re_match (full_form tag gi gr) t = Some m -> short_prefix texts t.
Proof.
  intros (P & ws & tg & w2 & w3 & rest & N & R & ? & ? & ? & ? & ? & _)%re_match_full_inv.
  now exists P, ws, tg, (w2 ++ [45] ++ w3 ++ kw_instructor ++ rest).
Qed.

Lemma short_prefix_re_match t :
  short_prefix texts t -> is_Some (re_match (short_form tag) t).
Proof.
  intros (P & ws & tg & rest & -> & HP & Hall & Hws & Htg).
  unfold re_match, short_form.
  eapply exec_complete; [|eexists; reflexivity].
  apply (form_matches tag texts upd tag_exec); [done..|]. apply (M_Lit _ [41]).
Qed.

(** The match found on a title with a subject [S0] without [(] that ends
    with a character that is no space: short form, then full form. *)
Lemma re_match_short_first S0 ws tg rest :
  S0 <> [] -> all_in CAny S0 -> lacks 40 S0 -> nonspace_last S0 ->
  all_in CSpace ws -> In tg texts ->
  re_match (short_form tag) (S0 ++ ws ++ [40] ++ tg ++ [41] ++ rest)
  = Some (upd tg [(1%nat, S0)]).
Proof.
  intros. unfold re_match, short_form.
  apply (form_first tag texts upd tag_exec); [done..|].
  change (utf8 ")") with [41]. now rewrite exec_lit.
Qed.

Lemma re_match_full_first gi gr S0 ws tg w2 w3 w4 N1 w5 w6 R0 :
  S0 <> [] -> all_in CAny S0 -> lacks 40 S0 -> nonspace_last S0 ->
  all_in CSpace ws -> In tg texts ->
  all_in CSpace w2 -> all_in CSpace w3 -> all_in CSpace w4 ->
  all_in CSpace w5 -> all_in CSpace w6 ->
  nonspace_hd N1 -> all_in CAny N1 -> contains kw_room N1 = false ->
  nonspace_hd R0 -> all_in CAny R0 ->
  re_match (full_form tag gi gr)
    (S0 ++ ws ++ [40] ++ tg ++ [41] ++ w2 ++ [45] ++ w3 ++ kw_instructor ++ w4 ++
     N1 ++ [44] ++ w5 ++ kw_room ++ w6 ++ R0)
  = Some ((gr, R0) :: (gi, N1) :: upd tg [(1%nat, S0)]).
Proof.
  intros. unfold re_match, full_form.
  apply (form_first tag texts upd tag_exec); [done..|].
  now apply full_tail_first.
Qed.

(** A title whose only [(] opens a tag that is not one of [texts] has no
    match, in either form. *)
Lemma short_prefix_other S0 ws tg rest :
  lacks 40 S0 -> all_in CSpace ws -> lacks 40 tg -> lacks 41 tg -> lacks 40 rest ->
  (forall t, In t texts -> lacks 41 t) -> ~ In tg texts ->
  ~ short_prefix texts (S0 ++ ws ++ [40] ++ tg ++ [41] ++ rest).
Proof.
  intros HS Hws Htg0 Htg1 Hrest Htexts Hnot (P & ws' & tg' & rest' & Heq & _ & _ & _ & Hin).
  apply paren_split in Heq as [Heq | (l & Heq)]; [| |done..].
  - change ([41] ++ ?s) with (41 :: s) in Heq.
    apply split_unique in Heq as [-> _]; [done | | ].
    + now apply lacks_In, Htexts.
    + now apply lacks_In.
  - assert (lacks 40 (tg ++ [41] ++ rest)) as Hl.
    { apply lacks_app. split; [done|]. now apply lacks_app. }
    rewrite Heq in Hl. apply lacks_app in Hl as [_ Hl].
    apply lacks_app in Hl as [Hl _]. discriminate Hl.
Qed.

End FormsOnTitles.

(** The keyword [Prowadzący:] does not occur in what follows it in a title
    whose instructor and room texts do not contain it. *)
Lemma fields_lack_kw_instructor (w4 N1 w5 w6 R0 : str) :
  all_in CSpace w4 -> all_in CSpace w5 -> all_in CSpace w6 ->
  contains kw_instructor N1 = false -> contains kw_instructor R0 = false ->
  contains kw_instructor (w4 ++ N1 ++ [44] ++ w5 ++ kw_room ++ w6 ++ R0) = false.
Proof.
  intros H4 H5 H6 HN HR.
  assert (forall w x, all_in CSpace w -> In x w -> ~ In x kw_instructor) as Hsp.
  { intros w x Hw Hx Hk. apply kw_instructor_chars in Hk as [Hk _].
    apply (all_in_In _ _ _ Hw) in Hx. simpl in Hx. congruence. }
  assert (kw_instructor <> []) as Hne by (rewrite kw_instructor_eq; discriminate).
  apply contains_skip; [intros x; now apply (Hsp w4) | done |].
  change ([44] ++ ?s) with (44 :: s). apply contains_split; [|done|].
  { intros Hk. now apply kw_instructor_chars in Hk. }
  apply contains_skip; [intros x; now apply (Hsp w5) | done |].
  rewrite app_assoc.
  apply (contains_after _ _ _ 80 (tl kw_instructor)); [apply kw_instructor_eq| |done].
  intros [Hk | Hk]%in_app_or.
  - now apply kw_room_chars in Hk.
  - now apply (spaces_lack 80 w6).
Qed.

Section FullOther.
Variables (tag : regex) (texts : list str) (upd : str -> caps -> caps).
Hypothesis tag_inv : forall n0 s c s' c',
  matches n0 tag s c s' c' -> exists t, In t texts /\ s = t ++ s' /\ c' = upd t c.

(** A full-form title with tag [tg] is not matched by the full form of
    other tags. *)
Lemma re_match_full_other gi gr S0 ws tg w2 w3 Z :
  lacks 40 S0 -> all_in CSpace ws -> lacks 40 tg -> lacks 41 tg ->
  all_in CSpace w2 -> all_in CSpace w3 ->
  contains kw_instructor Z = false ->
  (forall t, In t texts -> lacks 41 t) -> ~ In tg texts ->
  re_match (full_form tag gi gr)
    (S0 ++ ws ++ [40] ++ tg ++ [41] ++ w2 ++ [45] ++ w3 ++ kw_instructor ++ Z) = None.
Proof.
  intros HS Hws Htg0 Htg1 H2 H3 HZ Htexts Hnot.
  destruct (re_match _ _) as [m|] eqn:Hm; [exfalso|done].
  apply (re_match_full_inv tag texts upd tag_inv) in Hm
    as (P & ws' & tg' & w2' & w3' & rest & N & R & Heq & _ & _ & _ & Hin & _).
  apply paren_split in Heq as [Heq | (l & Heq)]; [| |done..].
  - change ([41] ++ ?s) with (41 :: s) in Heq.
    apply split_unique in Heq as [-> _]; [done | | ].
    + now apply lacks_In, Htexts.
    + now apply lacks_In.
  - assert (tg ++ [41] ++ w2 ++ [45] ++ w3 ++ kw_instructor ++ Z
            = (tg ++ [41] ++ w2 ++ [45] ++ w3 ++ kw_instructor) ++ Z) as Hpre
      by now rewrite <- !app_assoc.
    rewrite Hpre in Heq. clear Hpre.
    change ([40] ++ ?s) with (40 :: s) in Heq. symmetry in Heq.
    apply split_before in Heq as (t' & _ & Ht').
    + apply (contains_false _ _ (t' ++ 40 :: tg' ++ [41] ++ w2' ++ [45] ++ w3') rest HZ).
      rewrite Ht'. list_assoc.
    + intros Hin40.
      repeat (apply in_app_or in Hin40 as [Hin40 | Hin40]).
      * now apply (lacks_In 40 tg).
      * now destruct Hin40.
      * now apply (spaces_lack 40 w2).
      * now destruct Hin40.
      * now apply (spaces_lack 40 w3).
      * now apply kw_instructor_chars in Hin40.
Qed.

End FullOther.

(** ** [parse_event_title]: what it returns *)

Lemma short_prefix_mono (texts texts' : list str) t :
  (forall tg, In tg texts -> In tg texts') -> short_prefix texts t -> short_prefix texts' t.
Proof.
  intros Hsub (P & ws & tg & rest & ? & ? & ? & ? & ?).
  exists P, ws, tg, rest. auto 10.
Qed.

Lemma short_prefix_cons tg texts t :
  short_prefix (tg :: texts) t <-> short_prefix [tg] t \/ short_prefix texts t.
Proof.
  split.
  - intros (P & ws & tg' & rest & ? & ? & ? & ? & [<- | Hin]).
    + left. exists P, ws, tg, rest. repeat split; try done. now left.
    + right. now exists P, ws, tg', rest.
  - intros [H | H]; revert H; apply short_prefix_mono; intros tg' Hin.
    + destruct Hin as [<- | []]. now left.
    + now right.
Qed.

Lemma short_prefix_six t :
  short_prefix six_tags t <->
  short_prefix texts_WL_ECW t \/ short_prefix [utf8 "E-W"] t \/
  short_prefix [utf8 "E-ĆW"] t \/ short_prefix [utf8 "ĆW"] t.
Proof.
  unfold six_tags, texts_WL_ECW.
  rewrite !(short_prefix_cons _ (_ :: _)).
  assert (~ short_prefix [] t) as Hnil by now intros (? & ? & ? & ? & ? & ? & ? & ? & []).
  rewrite (short_prefix_cons (utf8 "E-CW") []). tauto.
Qed.

(** The subject captured from a stripped title is not blank. *)
Lemma subject_not_blank (title P rest : str) :
  strip title = P ++ rest -> P <> [] -> strip P <> [].
Proof.
  intros Heq HP. destruct P as [|x P]; [done|].
  destruct (strip_split title) as (l & r & _ & _ & _ & Hh & _); [now rewrite Heq|].
  rewrite Heq in Hh. simpl in Hh.
  apply strip_nonempty. simpl. now rewrite Hh.
Qed.

Lemma strip_tag tg : In tg texts_WL_ECW -> strip tg = tg.
Proof. now intros [<- | [<- | [<- | []]]]. Qed.

Lemma full_WL_result gi gr t m :
  re_match (full_form (tag_WL_ECW 2) gi gr) t = Some m ->
  (gi <> 1 /\ gi <> 2 /\ gr <> 1 /\ gr <> 2)%nat ->
  exists rest, t = group m 1 ++ rest /\ group m 1 <> [] /\ In (group m 2) texts_WL_ECW.
Proof.
  intros (P & ws & tg & w2 & w3 & rest & N & R & -> & HP & _ & _ & Htg & _ & _ & ->)
    %(re_match_full_inv _ texts_WL_ECW _ (tagWL_inv 2)) (Hi1 & Hi2 & Hr1 & Hr2).
  simpl. apply Nat.eqb_neq in Hi1, Hi2, Hr1, Hr2. rewrite Hi1, Hi2, Hr1, Hr2.
  eexists. split; [reflexivity|]. done.
Qed.

Lemma full_Lit_result tg gi gr t m :
  re_match (full_form (Lit tg) gi gr) t = Some m -> (gi <> 1 /\ gr <> 1)%nat ->
  exists rest, t = group m 1 ++ rest /\ group m 1 <> [].
Proof.
  intros (P & ws & tg' & w2 & w3 & rest & N & R & -> & HP & _ & _ & Htg & _ & _ & ->)
    %(re_match_full_inv _ [tg] (fun _ c => c) (tagLit_inv tg)) (Hi1 & Hr1).
  simpl. apply Nat.eqb_neq in Hi1, Hr1. rewrite Hi1, Hr1.
  eexists. split; [reflexivity|]. done.
Qed.

Lemma short_WL_result t m :
  re_match (short_form (tag_WL_ECW 2)) t = Some m ->
  exists rest, t = group m 1 ++ rest /\ group m 1 <> [] /\ In (group m 2) texts_WL_ECW.
Proof.
  intros (P & ws & tg & rest & -> & HP & _ & _ & Htg & ->)
    %(re_match_short_inv _ texts_WL_ECW _ (tagWL_inv 2)).
  simpl. eexists. split; [reflexivity|]. done.
Qed.

Lemma short_Lit_result tg t m :
  re_match (short_form (Lit tg)) t = Some m ->
  exists rest, t = group m 1 ++ rest /\ group m 1 <> [].
Proof.
  intros (P & ws & tg' & rest & -> & HP & _ & _ & Htg & ->)
    %(re_match_short_inv _ [tg] (fun _ c => c) (tagLit_inv tg)).
  simpl. eexists. split; [reflexivity|]. done.
Qed.

(** Every result of [parse_event_title] is the unparsed tuple or has a
    subject that is not empty and one of the types [W], [L], [E-CW]. *)
Lemma simple_parse_cases title :
  SimpleICSAnalyzer.parse_event_title title = unparsed \/
  exists sj ty i r,
    SimpleICSAnalyzer.parse_event_title title = (Some sj, Some ty, i, r) /\
    sj <> [] /\ In ty texts_WL_ECW.
Proof.
  unfold SimpleICSAnalyzer.parse_event_title. cbv zeta.
  set (t := strip title).
  assert (forall P rest, t = P ++ rest -> P <> [] -> strip P <> []) as Hsj
    by (intros P rest; apply subject_not_blank).
  destruct (re_match SimpleICSAnalyzer.pattern1 t) as [m|] eqn:H1.
  { right. apply full_WL_result in H1 as (rest & Ht & HP & Htg); [|lia].
    eexists _, _, _, _. split; [reflexivity|].
    rewrite (strip_tag _ Htg). eauto. }
  destruct (re_match SimpleICSAnalyzer.pattern2 t) as [m|] eqn:H2.
  { right. apply full_Lit_result in H2 as (rest & Ht & HP); [|lia].
    eexists _, _, _, _. split; [reflexivity|]. split; [eauto|]. now left. }
  destruct (re_match SimpleICSAnalyzer.pattern3 t) as [m|] eqn:H3.
  { right. apply full_Lit_result in H3 as (rest & Ht & HP); [|lia].
    eexists _, _, _, _. split; [reflexivity|]. split; [eauto|]. right. right. now left. }
  destruct (re_match SimpleICSAnalyzer.pattern4 t) as [m|] eqn:H4.
  { right. apply full_Lit_result in H4 as (rest & Ht & HP); [|lia].
    eexists _, _, _, _. split; [reflexivity|]. split; [eauto|]. right. now left. }
  unfold SimpleICSAnalyzer.simple_patterns. cbn [SimpleICSAnalyzer.simple_loop].
  match goal with |- context [re_match ?p t] =>
    destruct (re_match p t) as [m|] eqn:H5 end.
  { right. apply short_WL_result in H5 as (rest & Ht & HP & Htg).
    eexists _, _, _, _. split; [reflexivity|].
    rewrite (strip_tag _ Htg). eauto. }
  match goal with |- context [re_match ?p t] =>
    destruct (re_match p t) as [m|] eqn:H6 end.
  { right. apply short_Lit_result in H6 as (rest & Ht & HP).
    eexists _, _, _, _. split; [reflexivity|]. split; [eauto|]. now left. }
  match goal with |- context [re_match ?p t] =>
    destruct (re_match p t) as [m|] eqn:H7 end.
  { right. apply short_Lit_result in H7 as (rest & Ht & HP).
    eexists _, _, _, _. split; [reflexivity|]. split; [eauto|]. right. right. now left. }
  match goal with |- context [re_match ?p t] =>
    destruct (re_match p t) as [m|] eqn:H8 end.
  { right. apply short_Lit_result in H8 as (rest & Ht & HP).
    eexists _, _, _, _. split; [reflexivity|]. split; [eauto|]. right. now left. }
  now left.
Qed.

Lemma ics_parse_cases title :
  ICSAnalyzer.parse_event_title title = unparsed \/
  exists sj ty i r,
    ICSAnalyzer.parse_event_title title = (Some sj, Some ty, i, r) /\
    sj <> [] /\ In ty texts_WL_ECW.
Proof.
  unfold ICSAnalyzer.parse_event_title.
  set (t := strip title).
  assert (forall P rest, t = P ++ rest -> P <> [] -> strip P <> []) as Hsj
    by (intros P rest; apply subject_not_blank).
  destruct (re_match ICSAnalyzer.pattern t) as [m|] eqn:H1.
  { right. apply full_WL_result in H1 as (rest & Ht & HP & Htg); [|lia].
    eexists _, _, _, _. split; [reflexivity|].
    rewrite (strip_tag _ Htg). eauto. }
  destruct (re_match ICSAnalyzer.simple_pattern t) as [m|] eqn:H2.
  { right. apply short_WL_result in H2 as (rest & Ht & HP & Htg).
    eexists _, _, _, _. split; [reflexivity|].
    rewrite (strip_tag _ Htg). eauto. }
  now left.
Qed.

(** ** The aggregator *)

Arguments utf8 : simpl never.

(** Case analysis on the type of a parsed title, which settles the
    comparisons of [_process_simple_event] and [_process_event]. *)
Ltac by_type Hty :=
  destruct Hty as [<- | [<- | [<- | []]]];
  [ change (truthy (Some (utf8 "W"))) with true
  | change (truthy (Some (utf8 "L"))) with true
  | change (truthy (Some (utf8 "E-CW"))) with true ];
  cbn;
  [ change (bool_decide (utf8 "W" = utf8 "W")) with true
  | change (bool_decide (utf8 "L" = utf8 "W")) with false;
    change (bool_decide (utf8 "L" = utf8 "L")) with true
  | change (bool_decide (utf8 "E-CW" = utf8 "W")) with false;
    change (bool_decide (utf8 "E-CW" = utf8 "L")) with false;
    change (bool_decide (utf8 "E-CW" = utf8 "E-CW")) with true ];
  cbn.

Section Aggregator.
Context `{Builtins}.
Import SimpleICSAnalyzer.

(** What one call of [_process_simple_event] does on an unparsable
    title. *)
Lemma process_unparsed self event :
  parse_event_title (title_of event) = unparsed ->
  _process_simple_event self event =
  {| stats := {| wykłady := wykłady (stats self);
                 laboratoria := laboratoria (stats self);
                 e_cw := e_cw (stats self);
                 inne := inne (stats self) + 1;
                 total_events := total_events (stats self) + 1 |};
     location_stats := location_stats self;
     subjects := subjects self;
     uczelnia_schedule := uczelnia_schedule self;
     time_stats := {| total_minutes := total_minutes (time_stats self) + duration_of event;
                      wykłady_minutes := wykłady_minutes (time_stats self);
                      laboratoria_minutes := laboratoria_minutes (time_stats self);
                      e_cw_minutes := e_cw_minutes (time_stats self);
                      uczelnia_minutes := uczelnia_minutes (time_stats self);
                      zdalne_minutes := zdalne_minutes (time_stats self) |} |}.
Proof.
  intros Hp. unfold _process_simple_event.
  fold (title_of event) (start_of event) (end_of event). now rewrite Hp.
Qed.

Lemma process_stats_step self event :
  let a := _process_simple_event self event in
  total_events (stats a) = (total_events (stats self) + 1)%Z /\
  if title_unparsed event
  then inne (stats a) = (inne (stats self) + 1)%Z /\
       typed_events (stats a) = typed_events (stats self)
  else inne (stats a) = inne (stats self) /\
       typed_events (stats a) = (typed_events (stats self) + 1)%Z.
Proof.
  unfold title_unparsed.
  destruct (simple_parse_cases (title_of event))
    as [Hu | (sj & ty & i & r & Hp & Hsj & Hty)].
  - cbv zeta. rewrite (process_unparsed _ _ Hu), Hu. now cbn.
  - unfold _process_simple_event, typed_events.
    fold (title_of event) (start_of event) (end_of event). rewrite Hp.
    destruct sj as [|x sj]; [done|].
    by_type Hty; repeat split; lia.
Qed.

Lemma process_time_step self event :
  let a := _process_simple_event self event in
  total_minutes (time_stats a) = (total_minutes (time_stats self) + duration_of event)%Z /\
  if title_unparsed event
  then typed_minutes (time_stats a) = typed_minutes (time_stats self) /\
       located_minutes (time_stats a) = located_minutes (time_stats self)
  else typed_minutes (time_stats a) = (typed_minutes (time_stats self) + duration_of event)%Z /\
       located_minutes (time_stats a) = (located_minutes (time_stats self) + duration_of event)%Z.
Proof.
  unfold title_unparsed.
  destruct (simple_parse_cases (title_of event))
    as [Hu | (sj & ty & i & r & Hp & Hsj & Hty)].
  - cbv zeta. rewrite (process_unparsed _ _ Hu), Hu. now cbn.
  - unfold _process_simple_event, typed_minutes, located_minutes, duration_of.
    fold (title_of event) (start_of event) (end_of event). rewrite Hp.
    destruct sj as [|x sj]; [done|].
    by_type Hty; destruct (categorize_location r); cbn; repeat split; lia.
Qed.

Lemma process_schedule_step self event :
  uczelnia_schedule (_process_simple_event self event) =
  uczelnia_schedule self ++ option_list (on_campus_entry event).
Proof.
  unfold on_campus_entry, title_unparsed.
  destruct (simple_parse_cases (title_of event))
    as [Hu | (sj & ty & i & r & Hp & Hsj & Hty)].
  - rewrite (process_unparsed _ _ Hu), Hu. cbn. now rewrite app_nil_r.
  - unfold _process_simple_event.
    fold (title_of event) (start_of event) (end_of event). rewrite Hp.
    destruct sj as [|x sj]; [done|].
    by_type Hty;
      destruct (location_eqb (categorize_location r) uczelnia);
      destruct (truthy r), (start_of event); cbn; now rewrite ?app_nil_r.
Qed.

End Aggregator.

(** ** Titles written in the short and in the full form *)

Lemma contains_inside (p a s b : str) :
  contains p (a ++ s ++ b) = false -> contains p s = false.
Proof.
  intros Hc. apply not_true_is_false. intros (u & v & ->)%contains_spec.
  apply (contains_false _ _ (a ++ u) (v ++ b) Hc). list_assoc.
Qed.

Lemma lacks_inside c (a s b : str) : lacks c (a ++ s ++ b) -> lacks c s.
Proof. apply contains_inside. Qed.

Lemma all_in_inside k (a s b : str) : all_in k (a ++ s ++ b) -> all_in k s.
Proof. intros [_ [Hs _]%all_in_app]%all_in_app. exact Hs. Qed.

Lemma nonspace_hd_app (m s : str) : nonspace_hd m -> nonspace_hd (m ++ s).
Proof. now destruct m. Qed.

Lemma nonspace_last_app (m s : str) : nonspace_last s -> nonspace_last (m ++ s).
Proof. unfold nonspace_last. rewrite rev_app_distr. apply nonspace_hd_app. Qed.

(** A field that passes its check, split into its spaces and its text. *)
Lemma field_split (s : str) :
  blank s = false -> one_line s = true ->
  exists l r, s = l ++ strip s ++ r /\ all_in CSpace l /\ all_in CSpace r /\
    nonspace_hd (strip s) /\ nonspace_last (strip s) /\
    strip s <> [] /\ all_in CAny (strip s ++ r).
Proof.
  intros Hb Hl. pose proof (strip_nonempty s Hb) as Hne.
  destruct (strip_split s Hne) as (l & r & Hs & Hwl & Hwr & Hh & Ht).
  exists l, r. repeat split; try done.
  change (all_in CAny s) in Hl. rewrite Hs in Hl.
  now apply all_in_app in Hl as [_ Hl].
Qed.

Section OtherForms.
Variables (tag : regex) (texts : list str) (upd : str -> caps -> caps).
Hypothesis tag_inv : forall n0 s c s' c',
  matches n0 tag s c s' c' -> exists t, In t texts /\ s = t ++ s' /\ c' = upd t c.
Hypothesis texts_rparen : forall t, In t texts -> lacks 41 t.

(** The full form does not match a title that ends with its tag. *)
Lemma re_match_full_short gi gr S0 ws tg :
  lacks 40 S0 -> all_in CSpace ws -> lacks 40 tg -> lacks 41 tg ->
  re_match (full_form tag gi gr) (S0 ++ ws ++ [40] ++ tg ++ [41]) = None.
Proof.
  intros HS Hws Htg0 Htg1.
  destruct (re_match _ _) as [m|] eqn:Hm; [exfalso|done].
  apply (re_match_full_inv tag texts upd tag_inv) in Hm
    as (P & ws' & tg' & w2' & w3' & rest & N & R & Heq & _ & _ & _ & Hin & _).
  apply paren_split in Heq as [Heq | (l & Heq)]; [| |done..].
  - change ([41] ++ ?s) with (41 :: s) in Heq. change [41] with (41 :: []) in Heq.
    apply split_unique in Heq as [_ Heq].
    + now destruct w2'.
    + now apply lacks_In, texts_rparen.
    + now apply lacks_In.
  - assert (lacks 40 (tg ++ [41])) as Hl by now apply lacks_app.
    rewrite Heq in Hl. apply lacks_app in Hl as [_ Hl].
    apply lacks_app in Hl as [Hl _]. discriminate Hl.
Qed.

(** Neither form matches a title whose only [(] opens another tag. *)
Lemma re_match_short_other S0 ws tg rest :
  lacks 40 S0 -> all_in CSpace ws -> lacks 40 tg -> lacks 41 tg -> lacks 40 rest ->
  ~ In tg texts ->
  re_match (short_form tag) (S0 ++ ws ++ [40] ++ tg ++ [41] ++ rest) = None.
Proof.
  intros. destruct (re_match _ _) as [m|] eqn:Hm; [exfalso|done].
  apply (re_match_short_prefix tag texts upd tag_inv) in Hm.
  now apply short_prefix_other in Hm.
Qed.

End OtherForms.

(** The side conditions on the tags of the patterns. *)
Lemma texts_WL_rparen t : In t texts_WL_ECW -> lacks 41 t.
Proof. now intros [<- | [<- | [<- | []]]]. Qed.

Lemma text_rparen tg t : lacks 41 tg -> In t [tg] -> lacks 41 t.
Proof. now intros ? [<- | []]. Qed.

Lemma strip_id (m : str) : nonspace_hd m -> nonspace_last m -> strip m = m.
Proof.
  intros Hh Ht. rewrite <- (app_nil_r m) at 1.
  now apply (strip_core [] m []).
Qed.

(** Rewrites the patterns of the source into their two shapes. *)
Ltac shape_patterns :=
  change SimpleICSAnalyzer.pattern1 with (full_form (tag_WL_ECW 2) 3 4);
  change SimpleICSAnalyzer.pattern2 with (full_form (Lit (utf8 "E-W")) 2 3);
  change SimpleICSAnalyzer.pattern3 with (full_form (Lit (utf8 "E-ĆW")) 2 3);
  change SimpleICSAnalyzer.pattern4 with (full_form (Lit (utf8 "ĆW")) 2 3);
  change SimpleICSAnalyzer.simple_patterns with
    [short_form (tag_WL_ECW 2); short_form (Lit (utf8 "E-W"));
     short_form (Lit (utf8 "E-ĆW")); short_form (Lit (utf8 "ĆW"))];
  change ICSAnalyzer.pattern with (full_form (tag_WL_ECW 2) 3 4);
  change ICSAnalyzer.simple_pattern with (short_form (tag_WL_ECW 2)).

(** Side conditions about concrete tags: membership, parentheses. *)
Ltac tag_side :=
  solve [ done | reflexivity
        | apply texts_WL_rparen
        | intros ?; apply text_rparen; reflexivity
        | apply tagWL_inv
        | let Hm := fresh in intros ? ? ? ? ? Hm; apply tagLit_inv in Hm; exact Hm
        | apply tagWL_exec | apply tagLit_exec
        | vm_compute; auto 10
        | intros; apply tagWL_exec; assumption
        | intros; apply tagLit_exec; assumption
        | let H := fresh in intros H; vm_compute in H;
          repeat (destruct H as [H | H]; [discriminate H|]); destruct H ].

Section ShortTitles.
Variables (S0 ws : str).
Hypotheses (HS : S0 <> []) (Hall : all_in CAny S0) (Hpar : lacks 40 S0)
  (Hhd : nonspace_hd S0) (Hlast : nonspace_last S0) (Hws : all_in CSpace ws).

Lemma short_title_stripped tg : strip (S0 ++ ws ++ [40] ++ tg ++ [41]) = S0 ++ ws ++ [40] ++ tg ++ [41].
Proof.
  apply strip_id; [now apply nonspace_hd_app|].
  rewrite !app_assoc. now apply nonspace_last_app.
Qed.

Lemma full_none_on_short tag texts upd gi gr tg :
  (forall n0 s c s' c', matches n0 tag s c s' c' ->
     exists t, In t texts /\ s = t ++ s' /\ c' = upd t c) ->
  (forall t, In t texts -> lacks 41 t) -> lacks 40 tg -> lacks 41 tg ->
  re_match (full_form tag gi gr) (S0 ++ ws ++ [40] ++ tg ++ [41]) = None.
Proof. intros. now apply (re_match_full_short tag texts upd). Qed.

Lemma short_none_on_short tag texts upd tg :
  (forall n0 s c s' c', matches n0 tag s c s' c' ->
     exists t, In t texts /\ s = t ++ s' /\ c' = upd t c) ->
  (forall t, In t texts -> lacks 41 t) -> lacks 40 tg -> lacks 41 tg ->
  ~ In tg texts ->
  re_match (short_form tag) (S0 ++ ws ++ [40] ++ tg ++ [41]) = None.
Proof.
  intros. rewrite <- (app_nil_r [41]).
  now apply (re_match_short_other tag texts upd).
Qed.

Lemma short_some_on_short tag texts upd tg :
  (forall (A : Type) n0 (cont : str -> caps -> option A) t s c,
     In t texts -> exec n0 tag cont (t ++ s) c = cont s (upd t c)) ->
  In tg texts ->
  re_match (short_form tag) (S0 ++ ws ++ [40] ++ tg ++ [41])
  = Some (upd tg [(1%nat, S0)]).
Proof.
  intros. rewrite <- (app_nil_r [41]).
  now apply (re_match_short_first tag texts upd).
Qed.

Lemma simple_parse_short_core tg ty :
  In (tg, ty) tag_table ->
  SimpleICSAnalyzer.parse_event_title (S0 ++ ws ++ [40] ++ tg ++ [41])
  = (Some S0, Some ty, None, None).
Proof.
  intros Htg. unfold SimpleICSAnalyzer.parse_event_title. cbv zeta.
  rewrite short_title_stripped. shape_patterns.
  assert (strip S0 = S0) as HS0 by now apply strip_id.
  unfold tag_table in Htg.
  destruct Htg as [Htg | [Htg | [Htg | [Htg | [Htg | [Htg | []]]]]]];
    injection Htg as <- <-;
    rewrite !(full_none_on_short (tag_WL_ECW 2) texts_WL_ECW (fun t c => (2%nat, t) :: c)) by tag_side;
    rewrite !(full_none_on_short (Lit (utf8 "E-W")) [utf8 "E-W"] (fun _ c => c)) by tag_side;
    rewrite !(full_none_on_short (Lit (utf8 "E-ĆW")) [utf8 "E-ĆW"] (fun _ c => c)) by tag_side;
    rewrite !(full_none_on_short (Lit (utf8 "ĆW")) [utf8 "ĆW"] (fun _ c => c)) by tag_side;
    cbn [SimpleICSAnalyzer.simple_loop].
  - rewrite (short_some_on_short (tag_WL_ECW 2) texts_WL_ECW (fun t c => (2%nat, t) :: c)) by tag_side.
    cbv beta iota zeta; cbn [group Nat.eqb]; now rewrite HS0.
  - rewrite (short_some_on_short (tag_WL_ECW 2) texts_WL_ECW (fun t c => (2%nat, t) :: c)) by tag_side.
    cbv beta iota zeta; cbn [group Nat.eqb]; now rewrite HS0.
  - rewrite (short_some_on_short (tag_WL_ECW 2) texts_WL_ECW (fun t c => (2%nat, t) :: c)) by tag_side.
    cbv beta iota zeta; cbn [group Nat.eqb]; now rewrite HS0.
  - rewrite (short_none_on_short (tag_WL_ECW 2) texts_WL_ECW (fun t c => (2%nat, t) :: c)) by tag_side.
    rewrite (short_some_on_short (Lit (utf8 "E-W")) [utf8 "E-W"] (fun _ c => c)) by tag_side.
    cbv beta iota zeta; cbn [group Nat.eqb]; now rewrite HS0.
  - rewrite (short_none_on_short (tag_WL_ECW 2) texts_WL_ECW (fun t c => (2%nat, t) :: c)) by tag_side.
    rewrite (short_none_on_short (Lit (utf8 "E-W")) [utf8 "E-W"] (fun _ c => c)) by tag_side.
    rewrite (short_some_on_short (Lit (utf8 "E-ĆW")) [utf8 "E-ĆW"] (fun _ c => c)) by tag_side.
    cbv beta iota zeta; cbn [group Nat.eqb]; now rewrite HS0.
  - rewrite (short_none_on_short (tag_WL_ECW 2) texts_WL_ECW (fun t c => (2%nat, t) :: c)) by tag_side.
    rewrite (short_none_on_short (Lit (utf8 "E-W")) [utf8 "E-W"] (fun _ c => c)) by tag_side.
    rewrite (short_none_on_short (Lit (utf8 "E-ĆW")) [utf8 "E-ĆW"] (fun _ c => c)) by tag_side.
    rewrite (short_some_on_short (Lit (utf8 "ĆW")) [utf8 "ĆW"] (fun _ c => c)) by tag_side.
    cbv beta iota zeta; cbn [group Nat.eqb]; now rewrite HS0.
Qed.

End ShortTitles.

Section FullTitles.
Variables (S0 ws w2 w3 w4 N1 w5 w6 R0 : str).
Hypotheses (HS : S0 <> []) (Hall : all_in CAny S0) (Hpar : lacks 40 S0)
  (Hhd : nonspace_hd S0) (Hlast : nonspace_last S0)
  (Hws : all_in CSpace ws) (H2 : all_in CSpace w2) (H3 : all_in CSpace w3)
  (H4 : all_in CSpace w4) (H5 : all_in CSpace w5) (H6 : all_in CSpace w6)
  (HNhd : nonspace_hd N1) (HNall : all_in CAny N1)
  (HNroom : contains kw_room N1 = false)
  (HNinstr : contains kw_instructor N1 = false)
  (HRhd : nonspace_hd R0) (HRlast : nonspace_last R0) (HRall : all_in CAny R0)
  (HRinstr : contains kw_instructor R0 = false).

Lemma core_title_stripped tg :
  strip (core_title S0 ws w2 w3 w4 N1 w5 w6 R0 tg)
  = core_title S0 ws w2 w3 w4 N1 w5 w6 R0 tg.
Proof.
  apply strip_id; [now apply nonspace_hd_app|].
  unfold core_title. rewrite !app_assoc. now apply nonspace_last_app.
Qed.

Lemma full_other_on_full tag texts upd gi gr tg :
  (forall n0 s c s' c', matches n0 tag s c s' c' ->
     exists t, In t texts /\ s = t ++ s' /\ c' = upd t c) ->
  (forall t, In t texts -> lacks 41 t) -> lacks 40 tg -> lacks 41 tg ->
  ~ In tg texts ->
  re_match (full_form tag gi gr) (core_title S0 ws w2 w3 w4 N1 w5 w6 R0 tg) = None.
Proof.
  intros. apply (re_match_full_other tag texts upd); try done.
  now apply fields_lack_kw_instructor.
Qed.

Lemma full_some_on_full tag texts upd gi gr tg :
  (forall (A : Type) n0 (cont : str -> caps -> option A) t s c,
     In t texts -> exec n0 tag cont (t ++ s) c = cont s (upd t c)) ->
  In tg texts ->
  re_match (full_form tag gi gr) (core_title S0 ws w2 w3 w4 N1 w5 w6 R0 tg)
  = Some ((gr, R0) :: (gi, N1) :: upd tg [(1%nat, S0)]).
Proof. intros. now apply (re_match_full_first tag texts upd). Qed.

Lemma simple_parse_full_core tg ty :
  In (tg, ty) tag_table ->
  SimpleICSAnalyzer.parse_event_title (core_title S0 ws w2 w3 w4 N1 w5 w6 R0 tg)
  = (Some S0, Some ty, Some (strip N1), Some R0).
Proof.
  intros Htg. unfold SimpleICSAnalyzer.parse_event_title. cbv zeta.
  rewrite core_title_stripped. shape_patterns.
  assert (strip S0 = S0) as HS0 by now apply strip_id.
  assert (strip R0 = R0) as HR0 by now apply strip_id.
  unfold tag_table in Htg.
  destruct Htg as [Htg | [Htg | [Htg | [Htg | [Htg | [Htg | []]]]]]];
    injection Htg as <- <-.
  - rewrite (full_some_on_full (tag_WL_ECW 2) texts_WL_ECW (fun t c => (2%nat, t) :: c))
      by tag_side.
    cbv beta iota zeta; cbn [group Nat.eqb]; now rewrite HS0, HR0.
  - rewrite (full_some_on_full (tag_WL_ECW 2) texts_WL_ECW (fun t c => (2%nat, t) :: c))
      by tag_side.
    cbv beta iota zeta; cbn [group Nat.eqb]; now rewrite HS0, HR0.
  - rewrite (full_some_on_full (tag_WL_ECW 2) texts_WL_ECW (fun t c => (2%nat, t) :: c))
      by tag_side.
    cbv beta iota zeta; cbn [group Nat.eqb]; now rewrite HS0, HR0.
  - rewrite (full_other_on_full (tag_WL_ECW 2) texts_WL_ECW (fun t c => (2%nat, t) :: c))
      by tag_side.
    rewrite (full_some_on_full (Lit (utf8 "E-W")) [utf8 "E-W"] (fun _ c => c)) by tag_side.
    cbv beta iota zeta; cbn [group Nat.eqb]; now rewrite HS0, HR0.
  - rewrite (full_other_on_full (tag_WL_ECW 2) texts_WL_ECW (fun t c => (2%nat, t) :: c))
      by tag_side.
    rewrite (full_other_on_full (Lit (utf8 "E-W")) [utf8 "E-W"] (fun _ c => c)) by tag_side.
    rewrite (full_some_on_full (Lit (utf8 "E-ĆW")) [utf8 "E-ĆW"] (fun _ c => c)) by tag_side.
    cbv beta iota zeta; cbn [group Nat.eqb]; now rewrite HS0, HR0.
  - rewrite (full_other_on_full (tag_WL_ECW 2) texts_WL_ECW (fun t c => (2%nat, t) :: c))
      by tag_side.
    rewrite (full_other_on_full (Lit (utf8 "E-W")) [utf8 "E-W"] (fun _ c => c)) by tag_side.
    rewrite (full_other_on_full (Lit (utf8 "E-ĆW")) [utf8 "E-ĆW"] (fun _ c => c)) by tag_side.
    rewrite (full_some_on_full (Lit (utf8 "ĆW")) [utf8 "ĆW"] (fun _ c => c)) by tag_side.
    cbv beta iota zeta; cbn [group Nat.eqb]; now rewrite HS0, HR0.
Qed.

Lemma ics_parse_full_core tg :
  In tg texts_WL_ECW ->
  ICSAnalyzer.parse_event_title (core_title S0 ws w2 w3 w4 N1 w5 w6 R0 tg)
  = (Some S0, Some tg, Some (strip N1), Some R0).
Proof.
  intros Htg. unfold ICSAnalyzer.parse_event_title.
  rewrite core_title_stripped. shape_patterns.
  assert (strip S0 = S0) as HS0 by now apply strip_id.
  assert (strip R0 = R0) as HR0 by now apply strip_id.
  rewrite (full_some_on_full (tag_WL_ECW 2) texts_WL_ECW (fun t c => (2%nat, t) :: c))
    by tag_side.
  cbv beta iota zeta; cbn [group Nat.eqb]. now rewrite HS0, HR0, (strip_tag _ Htg).
Qed.

End FullTitles.

Lemma ics_parse_short_core S0 ws tg :
  S0 <> [] -> all_in CAny S0 -> lacks 40 S0 -> nonspace_hd S0 -> nonspace_last S0 ->
  all_in CSpace ws -> In tg texts_WL_ECW ->
  ICSAnalyzer.parse_event_title (S0 ++ ws ++ [40] ++ tg ++ [41])
  = (Some S0, Some tg, None, None).
Proof.
  intros HS Hall Hpar Hhd Hlast Hws Htg. unfold ICSAnalyzer.parse_event_title.
  rewrite short_title_stripped by done. shape_patterns.
  rewrite (full_none_on_short S0 ws Hpar Hws (tag_WL_ECW 2) texts_WL_ECW
             (fun t c => (2%nat, t) :: c)); try tag_side.
  - rewrite (short_some_on_short S0 ws HS Hall Hpar Hlast Hws (tag_WL_ECW 2) texts_WL_ECW
               (fun t c => (2%nat, t) :: c)) by tag_side.
    cbv beta iota zeta; cbn [group Nat.eqb].
    now rewrite (strip_id S0), (strip_tag _ Htg).
  - now destruct Htg as [<- | [<- | [<- | []]]].
  - now destruct Htg as [<- | [<- | [<- | []]]].
Qed.

(** [parse_event_title] looks at the stripped title only. *)
Lemma simple_parse_ext t t' :
  strip t = strip t' ->
  SimpleICSAnalyzer.parse_event_title t = SimpleICSAnalyzer.parse_event_title t'.
Proof. unfold SimpleICSAnalyzer.parse_event_title. cbv zeta. now intros ->. Qed.

Lemma ics_parse_ext t t' :
  strip t = strip t' ->
  ICSAnalyzer.parse_event_title t = ICSAnalyzer.parse_event_title t'.
Proof. unfold ICSAnalyzer.parse_event_title. now intros ->. Qed.

Lemma contains_suffix (p a s : str) : contains p (a ++ s) = false -> contains p s = false.
Proof. intros Hc. apply (contains_inside p a s []). now rewrite app_nil_r. Qed.

Lemma subject_ok_split (s : str) :
  subject_ok s = true ->
  exists l r, s = l ++ strip s ++ r /\ all_in CSpace l /\ all_in CSpace r /\
    strip s <> [] /\ all_in CAny (strip s) /\ lacks 40 (strip s) /\
    nonspace_hd (strip s) /\ nonspace_last (strip s).
Proof.
  unfold subject_ok. rewrite !andb_true_iff, !negb_true_iff. intros [[Hb Hl] Hp].
  destruct (field_split s Hb Hl) as (l & r & Hs & Hwl & Hwr & Hh & Ht & Hne & Hall).
  exists l, r. repeat split; try done.
  - now apply all_in_app in Hall as [Hall _].
  - change (lacks 40 s) in Hp. rewrite Hs in Hp. now apply lacks_inside in Hp.
Qed.

Lemma names_ok_split (s : str) :
  names_ok s = true ->
  exists l r, s = l ++ strip s ++ r /\ all_in CSpace l /\
    nonspace_hd (strip s ++ r) /\ all_in CAny (strip s ++ r) /\
    contains kw_room (strip s ++ r) = false /\
    contains kw_instructor (strip s ++ r) = false /\
    strip (strip s ++ r) = strip s.
Proof.
  unfold names_ok. rewrite !andb_true_iff, !negb_true_iff. intros [[[Hb Hl] Hi] Hr].
  destruct (field_split s Hb Hl) as (l & r & Hs & Hwl & Hwr & Hh & Ht & Hne & Hall).
  exists l, r. repeat split; try done.
  - now apply nonspace_hd_app.
  - rewrite Hs in Hr. now apply contains_suffix in Hr.
  - rewrite Hs in Hi. now apply contains_suffix in Hi.
  - now apply (strip_core [] (strip s) r).
Qed.

Lemma room_ok_split (s : str) :
  room_ok s = true ->
  exists l r, s = l ++ strip s ++ r /\ all_in CSpace l /\ all_in CSpace r /\
    nonspace_hd (strip s) /\ nonspace_last (strip s) /\ all_in CAny (strip s) /\
    contains kw_instructor (strip s) = false.
Proof.
  unfold room_ok. rewrite !andb_true_iff, !negb_true_iff. intros [[Hb Hl] Hi].
  destruct (field_split s Hb Hl) as (l & r & Hs & Hwl & Hwr & Hh & Ht & Hne & Hall).
  exists l, r. repeat split; try done.
  - now apply all_in_app in Hall as [Hall _].
  - rewrite Hs in Hi. now apply contains_inside in Hi.
Qed.

(** A title written in the short form, from fields with spaces around
    them, and its stripped text. *)
Lemma short_title_core S w1 tg :
  subject_ok S = true -> blank w1 = true ->
  exists ws,
    strip (short_title S w1 tg) = strip (strip S ++ ws ++ [40] ++ tg ++ [41]) /\
    strip S <> [] /\ all_in CAny (strip S) /\ lacks 40 (strip S) /\
    nonspace_hd (strip S) /\ nonspace_last (strip S) /\ all_in CSpace ws.
Proof.
  intros (l & r & HS & Hl & Hr & Hne & Hall & Hpar & Hh & Ht)%subject_ok_split Hw1.
  change (all_in CSpace w1) in Hw1.
  exists (r ++ w1). repeat split; try done; [|now apply all_in_app].
  rewrite (short_title_stripped (strip S) (r ++ w1) Hh).
  unfold short_title. rewrite HS at 1.
  change (utf8 "(") with [40]. change (utf8 ")") with [41].
  transitivity (strip (l ++ (strip S ++ (r ++ w1) ++ [40] ++ tg ++ [41]) ++ [])).
  { f_equal. rewrite app_nil_r. list_assoc. }
  apply strip_core; [done | apply all_in_nil | now apply nonspace_hd_app |].
  rewrite !app_assoc. now apply nonspace_last_app.
Qed.

Lemma simple_parse_short S w1 tg ty :
  In (tg, ty) tag_table -> subject_ok S = true -> blank w1 = true ->
  SimpleICSAnalyzer.parse_event_title (short_title S w1 tg)
  = (Some (strip S), Some ty, None, None).
Proof.
  intros Htg HS Hw1.
  destruct (short_title_core S w1 tg HS Hw1) as (ws & Hst & ? & ? & ? & ? & ? & ?).
  rewrite (simple_parse_ext _ _ Hst). now apply simple_parse_short_core.
Qed.

Lemma ics_parse_short S w1 tg :
  In tg texts_WL_ECW -> subject_ok S = true -> blank w1 = true ->
  ICSAnalyzer.parse_event_title (short_title S w1 tg)
  = (Some (strip S), Some tg, None, None).
Proof.
  intros Htg HS Hw1.
  destruct (short_title_core S w1 tg HS Hw1) as (ws & Hst & ? & ? & ? & ? & ? & ?).
  rewrite (ics_parse_ext _ _ Hst). now apply ics_parse_short_core.
Qed.

(** A title written in the full form, from fields with spaces around
    them: its stripped text is a [core_title]. *)
Lemma full_title_core S w1 tg w2 w3 w4 N w5 w6 R :
  subject_ok S = true -> names_ok N = true -> room_ok R = true ->
  blank w1 = true -> blank w4 = true -> blank w6 = true ->
  exists ws w4' N1 w6',
    strip (full_title S w1 tg w2 w3 w4 N w5 w6 R)
    = strip (core_title (strip S) ws w2 w3 w4' N1 w5 w6' (strip R) tg) /\
    (strip S <> [] /\ all_in CAny (strip S) /\ lacks 40 (strip S) /\
     nonspace_hd (strip S) /\ nonspace_last (strip S)) /\
    (all_in CSpace ws /\ all_in CSpace w4' /\ all_in CSpace w6') /\
    (nonspace_hd N1 /\ all_in CAny N1 /\ contains kw_room N1 = false /\
     contains kw_instructor N1 = false /\ strip N1 = strip N) /\
    (nonspace_hd (strip R) /\ nonspace_last (strip R) /\ all_in CAny (strip R) /\
     contains kw_instructor (strip R) = false).
Proof.
  intros (lS & rS & HS & HlS & HrS & ? & ? & ? & HhS & ?)%subject_ok_split
         (lN & rN & HN & HlN & ? & ? & ? & ? & ?)%names_ok_split
         (lR & rR & HR & HlR & HrR & ? & HtR & ? & ?)%room_ok_split Hw1 Hw4 Hw6.
  change (all_in CSpace w1) in Hw1. change (all_in CSpace w4) in Hw4.
  change (all_in CSpace w6) in Hw6.
  exists (rS ++ w1), (w4 ++ lN), (strip N ++ rN), (w6 ++ lR).
  split; [|repeat split; try done; now apply all_in_app].
  set (core := core_title _ _ _ _ _ _ _ _ _ _).
  assert (nonspace_hd core) as Hh by now apply nonspace_hd_app.
  assert (nonspace_last core) as Ht.
  { unfold core, core_title. rewrite !app_assoc. now apply nonspace_last_app. }
  rewrite (strip_id core Hh Ht).
  transitivity (strip (lS ++ core ++ rR)); [|now apply strip_core].
  f_equal. unfold full_title, core, core_title.
  rewrite HS at 1. rewrite HN at 1. rewrite HR at 1.
  change (utf8 "(") with [40]. change (utf8 ")") with [41].
  change (utf8 "-") with [45]. change (utf8 ",") with [44].
  list_assoc.
Qed.

Lemma simple_parse_full S w1 tg ty w2 w3 w4 N w5 w6 R :
  In (tg, ty) tag_table ->
  subject_ok S = true -> names_ok N = true -> room_ok R = true ->
  blank w1 = true -> blank w2 = true -> blank w3 = true ->
  blank w4 = true -> blank w5 = true -> blank w6 = true ->
  SimpleICSAnalyzer.parse_event_title (full_title S w1 tg w2 w3 w4 N w5 w6 R)
  = (Some (strip S), Some ty, Some (strip N), Some (strip R)).
Proof.
  intros Htg HS HN HR Hw1 Hw2 Hw3 Hw4 Hw5 Hw6.
  destruct (full_title_core S w1 tg w2 w3 w4 N w5 w6 R HS HN HR Hw1 Hw4 Hw6)
    as (ws & w4' & N1 & w6' & Hst & (? & ? & ? & ? & ?) & (? & ? & ?) &
        (? & ? & ? & ? & HN1) & (? & ? & ? & ?)).
  rewrite (simple_parse_ext _ _ Hst), <- HN1.
  now apply simple_parse_full_core.
Qed.

Lemma ics_parse_full S w1 tg w2 w3 w4 N w5 w6 R :
  In tg texts_WL_ECW ->
  subject_ok S = true -> names_ok N = true -> room_ok R = true ->
  blank w1 = true -> blank w2 = true -> blank w3 = true ->
  blank w4 = true -> blank w5 = true -> blank w6 = true ->
  ICSAnalyzer.parse_event_title (full_title S w1 tg w2 w3 w4 N w5 w6 R)
  = (Some (strip S), Some tg, Some (strip N), Some (strip R)).
Proof.
  intros Htg HS HN HR Hw1 Hw2 Hw3 Hw4 Hw5 Hw6.
  destruct (full_title_core S w1 tg w2 w3 w4 N w5 w6 R HS HN HR Hw1 Hw4 Hw6)
    as (ws & w4' & N1 & w6' & Hst & (? & ? & ? & ? & ?) & (? & ? & ?) &
        (? & ? & ? & ? & HN1) & (? & ? & ? & ?)).
  rewrite (ics_parse_ext _ _ Hst), <- HN1.
  now apply ics_parse_full_core.
Qed.

(** ** Unparsed titles *)

Lemma simple_unparsed_iff title :
  SimpleICSAnalyzer.parse_event_title title = unparsed <->
  ~ short_prefix six_tags (strip title).
Proof.
  unfold SimpleICSAnalyzer.parse_event_title. cbv zeta. shape_patterns.
  set (t := strip title). rewrite short_prefix_six.
  pose proof (re_match_full_prefix (tag_WL_ECW 2) texts_WL_ECW _ (tagWL_inv 2) 3 4 t) as F1.
  pose proof (re_match_full_prefix (Lit (utf8 "E-W")) [utf8 "E-W"] (fun _ c => c)
                (tagLit_inv _) 2 3 t) as F2.
  pose proof (re_match_full_prefix (Lit (utf8 "E-ĆW")) [utf8 "E-ĆW"] (fun _ c => c)
                (tagLit_inv _) 2 3 t) as F3.
  pose proof (re_match_full_prefix (Lit (utf8 "ĆW")) [utf8 "ĆW"] (fun _ c => c)
                (tagLit_inv _) 2 3 t) as F4.
  pose proof (short_prefix_re_match (tag_WL_ECW 2) texts_WL_ECW _ (tagWL_exec 2) t) as S1.
  pose proof (short_prefix_re_match (Lit (utf8 "E-W")) [utf8 "E-W"] (fun _ c => c)
                (tagLit_exec _) t) as S2.
  pose proof (short_prefix_re_match (Lit (utf8 "E-ĆW")) [utf8 "E-ĆW"] (fun _ c => c)
                (tagLit_exec _) t) as S3.
  pose proof (short_prefix_re_match (Lit (utf8 "ĆW")) [utf8 "ĆW"] (fun _ c => c)
                (tagLit_exec _) t) as S4.
  destruct (re_match (full_form (tag_WL_ECW 2) 3 4) t) as [m|]; [split; [done|]; intros []; eauto|].
  destruct (re_match (full_form (Lit (utf8 "E-W")) 2 3) t) as [m|]; [split; [done|]; intros []; eauto|].
  destruct (re_match (full_form (Lit (utf8 "E-ĆW")) 2 3) t) as [m|]; [split; [done|]; intros []; eauto|].
  destruct (re_match (full_form (Lit (utf8 "ĆW")) 2 3) t) as [m|]; [split; [done|]; intros []; eauto|].
  cbn [SimpleICSAnalyzer.simple_loop].
  destruct (re_match (short_form (tag_WL_ECW 2)) t) as [m|] eqn:E1.
  { split; [done|]. intros []. left. eapply re_match_short_prefix; [apply (tagWL_inv 2) | exact E1]. }
  destruct (re_match (short_form (Lit (utf8 "E-W"))) t) as [m|] eqn:E2.
  { split; [done|]. intros []. right. left.
    eapply (re_match_short_prefix _ _ (fun _ c => c)); [apply tagLit_inv | exact E2]. }
  destruct (re_match (short_form (Lit (utf8 "E-ĆW"))) t) as [m|] eqn:E3.
  { split; [done|]. intros []. right. right. left.
    eapply (re_match_short_prefix _ _ (fun _ c => c)); [apply tagLit_inv | exact E3]. }
  destruct (re_match (short_form (Lit (utf8 "ĆW"))) t) as [m|] eqn:E4.
  { split; [done|]. intros []. right. right. right.
    eapply (re_match_short_prefix _ _ (fun _ c => c)); [apply tagLit_inv | exact E4]. }
  split; [|done]. intros _ [Hp | [Hp | [Hp | Hp]]].
  - now destruct (S1 Hp).
  - now destruct (S2 Hp).
  - now destruct (S3 Hp).
  - now destruct (S4 Hp).
Qed.

Lemma ics_unparsed_iff title :
  ICSAnalyzer.parse_event_title title = unparsed <->
  ~ short_prefix texts_WL_ECW (strip title).
Proof.
  unfold ICSAnalyzer.parse_event_title. shape_patterns.
  set (t := strip title).
  pose proof (re_match_full_prefix (tag_WL_ECW 2) texts_WL_ECW _ (tagWL_inv 2) 3 4 t) as F1.
  pose proof (short_prefix_re_match (tag_WL_ECW 2) texts_WL_ECW _ (tagWL_exec 2) t) as S1.
  destruct (re_match (full_form (tag_WL_ECW 2) 3 4) t) as [m|]; [split; [done|]; intros []; eauto|].
  destruct (re_match (short_form (tag_WL_ECW 2)) t) as [m|] eqn:E1.
  { split; [done|]. intros []. eapply re_match_short_prefix; [apply (tagWL_inv 2) | exact E1]. }
  split; [|done]. intros _ Hp. now destruct (S1 Hp).
Qed.

(** ** Durations *)

Section Durations.
Context `{Builtins}.
Import SimpleICSAnalyzer.

Lemma duration_try_Some start_time end_time h1 m1 h2 m2 :
  int_ (hour_field start_time) = Some h1 -> int_ (minute_field start_time) = Some m1 ->
  int_ (hour_field end_time) = Some h2 -> int_ (minute_field end_time) = Some m2 ->
  duration_try start_time end_time = Some ((h2 * 60 + m2) - (h1 * 60 + m1))%Z.
Proof.
  unfold duration_try, hour_field, minute_field. now intros -> -> -> ->.
Qed.

Lemma duration_try_None start_time end_time :
  int_ (hour_field start_time) = None \/ int_ (minute_field start_time) = None \/
  int_ (hour_field end_time) = None \/ int_ (minute_field end_time) = None ->
  duration_try start_time end_time = None.
Proof.
  unfold duration_try, hour_field, minute_field.
  intros [E | [E | [E | E]]]; rewrite E;
    repeat (match goal with |- context [int_ ?s] => destruct (int_ s) end; try done).
Qed.

(** Either the four fields are read and the result is their difference,
    or the result is 0. *)
Lemma duration_cases start_time end_time :
  (exists h1 m1 h2 m2,
     int_ (hour_field start_time) = Some h1 /\ int_ (minute_field start_time) = Some m1 /\
     int_ (hour_field end_time) = Some h2 /\ int_ (minute_field end_time) = Some m2 /\
     _calculate_duration_minutes start_time end_time = ((h2 * 60 + m2) - (h1 * 60 + m1))%Z)
  \/ _calculate_duration_minutes start_time end_time = 0%Z.
Proof.
  unfold _calculate_duration_minutes.
  destruct (negb (truthy (Some start_time)) || negb (truthy (Some end_time)));
    [now right|].
  destruct (int_ (hour_field start_time)) as [h1|] eqn:E1;
    [|right; rewrite duration_try_None; auto].
  destruct (int_ (minute_field start_time)) as [m1|] eqn:E2;
    [|right; rewrite duration_try_None; auto].
  destruct (int_ (hour_field end_time)) as [h2|] eqn:E3;
    [|right; rewrite duration_try_None; auto].
  destruct (int_ (minute_field end_time)) as [m2|] eqn:E4;
    [|right; rewrite duration_try_None; auto 6].
  left. exists h1, m1, h2, m2. now rewrite (duration_try_Some _ _ h1 m1 h2 m2).
Qed.

Lemma duration_example :
  _calculate_duration_minutes (utf8 "20251116T080000") (utf8 "20251116T091500") = 75%Z.
Proof.
  unfold _calculate_duration_minutes.
  change (truthy (Some (utf8 "20251116T080000"))) with true.
  change (truthy (Some (utf8 "20251116T091500"))) with true.
  cbn [negb orb].
  rewrite (duration_try_Some _ _ 8 0 9 15); [done|..].
  - change (hour_field (utf8 "20251116T080000")) with [48; 56].
    now rewrite int_digits.
  - change (minute_field (utf8 "20251116T080000")) with [48; 48].
    now rewrite int_digits.
  - change (hour_field (utf8 "20251116T091500")) with [48; 57].
    now rewrite int_digits.
  - change (minute_field (utf8 "20251116T091500")) with [49; 53].
    now rewrite int_digits.
Qed.

Lemma short_token_field (token : str) :
  (length token <= 11)%nat -> minute_field token = [].
Proof.
  intros Hl. unfold minute_field, slice.
  rewrite skipn_all2 by lia. now destruct (13 - 11)%nat.
Qed.

End Durations.

(** ** Sequences of events *)

Lemma count_if_cons {A : Type} (p : A -> bool) x l :
  count_if p (x :: l) = ((if p x then 1 else 0) + count_if p l)%Z.
Proof. unfold count_if. simpl. destruct (p x); simpl; lia. Qed.

Section Sequences.
Context `{Builtins}.
Import SimpleICSAnalyzer.

Lemma minutes_of_cons p e events :
  minutes_of p (e :: events)
  = ((if p e then duration_of e else 0) + minutes_of p events)%Z.
Proof. unfold minutes_of. simpl. now destruct (p e). Qed.

Lemma process_events_cons self e events :
  process_events self (e :: events) = process_events (_process_simple_event self e) events.
Proof. reflexivity. Qed.

Lemma process_events_stats events : forall self,
  let a := process_events self events in
  total_events (stats a) = (total_events (stats self) + Z.of_nat (length events))%Z /\
  inne (stats a) = (inne (stats self) + count_if title_unparsed events)%Z /\
  typed_events (stats a)
  = (typed_events (stats self) + count_if (fun e => negb (title_unparsed e)) events)%Z.
Proof.
  induction events as [|e events IH]; intros self.
  - cbn. unfold count_if. cbn. lia.
  - cbv zeta. rewrite process_events_cons, !count_if_cons.
    destruct (IH (_process_simple_event self e)) as (IH1 & IH2 & IH3).
    destruct (process_stats_step self e) as (S1 & S2).
    rewrite IH1, IH2, IH3, S1.
    destruct (title_unparsed e); destruct S2 as [-> ->]; cbn [negb length]; lia.
Qed.

Lemma process_events_time events : forall self,
  let a := process_events self events in
  total_minutes (time_stats a)
  = (total_minutes (time_stats self) + minutes_of (fun _ => true) events)%Z /\
  typed_minutes (time_stats a)
  = (typed_minutes (time_stats self)
     + minutes_of (fun e => negb (title_unparsed e)) events)%Z /\
  located_minutes (time_stats a)
  = (located_minutes (time_stats self)
     + minutes_of (fun e => negb (title_unparsed e)) events)%Z.
Proof.
  induction events as [|e events IH]; intros self.
  - cbn. unfold minutes_of. cbn. lia.
  - cbv zeta. rewrite process_events_cons, !minutes_of_cons.
    destruct (IH (_process_simple_event self e)) as (IH1 & IH2 & IH3).
    destruct (process_time_step self e) as (S1 & S2).
    rewrite IH1, IH2, IH3, S1.
    destruct (title_unparsed e); destruct S2 as [-> ->]; cbn [negb]; lia.
Qed.

Lemma minutes_of_split events :
  minutes_of (fun _ => true) events
  = (minutes_of (fun e => negb (title_unparsed e)) events
     + minutes_of title_unparsed events)%Z.
Proof.
  induction events as [|e events IH]; [done|].
  rewrite !minutes_of_cons, IH. destruct (title_unparsed e); cbn [negb]; lia.
Qed.

Lemma process_events_schedule events : forall self,
  uczelnia_schedule (process_events self events)
  = uczelnia_schedule self ++ omap on_campus_entry events.
Proof.
  induction events as [|e events IH]; intros self.
  - cbn. now rewrite app_nil_r.
  - rewrite process_events_cons, IH, process_schedule_step. cbn [omap list_omap].
    rewrite <- app_assoc. f_equal.
    now destruct (on_campus_entry e).
Qed.

Lemma location_eqb_uczelnia k : location_eqb k uczelnia = true -> k = uczelnia.
Proof. now destruct k. Qed.

(** An itinerary entry stores the room of an event that was classified as
    on campus. *)
Lemma on_campus_entry_room event entry :
  on_campus_entry event = Some entry ->
  categorize_location (Some (room entry)) = uczelnia.
Proof.
  unfold on_campus_entry.
  destruct (parse_event_title (title_of event)) as [[[sj ty] i] r].
  destruct (location_eqb (categorize_location r) uczelnia) eqn:Hloc; [|done].
  destruct r as [[|x r]|]; cbn [truthy andb]; try done.
  destruct (start_of event); [done|].
  intros [= <-]. now apply location_eqb_uczelnia in Hloc.
Qed.

End Sequences.

Section IcsSequences.
Context `{Builtins} {calendar : ICSAnalyzer.Icalendar}.
Import SimpleICSAnalyzer (stats_t, wykłady, laboratoria, e_cw, inne, total_events).

(** A call that raises has counted the event in [total_events] and has
    done nothing else. *)
Lemma ics_process_raised self event e a :
  ICSAnalyzer._process_event self event = ICSAnalyzer.Raised e a ->
  ICSAnalyzer.add_duration (ICSAnalyzer.total_duration self)
    (ICSAnalyzer.dtstart event) (ICSAnalyzer.dtend event) = inl e /\
  total_events (ICSAnalyzer.stats a) = (total_events (ICSAnalyzer.stats self) + 1)%Z /\
  inne (ICSAnalyzer.stats a) = inne (ICSAnalyzer.stats self) /\
  typed_events (ICSAnalyzer.stats a) = typed_events (ICSAnalyzer.stats self) /\
  ICSAnalyzer.location_stats a = ICSAnalyzer.location_stats self /\
  ICSAnalyzer.subjects a = ICSAnalyzer.subjects self /\
  ICSAnalyzer.total_duration a = ICSAnalyzer.total_duration self.
Proof.
  unfold ICSAnalyzer._process_event. cbv zeta.
  destruct (ICSAnalyzer.add_duration _ _ _) as [e'|total].
  - intros [= <- <-]. now cbn.
  - destruct (ICSAnalyzer.parse_event_title _) as [[[sj ty] i] r].
    destruct (_ || _); [done|]. repeat case_match; done.
Qed.

(** A call returns exactly when its duration block raises nothing, and
    the block's result is the new total. *)
Lemma ics_process_returned self event a :
  ICSAnalyzer._process_event self event = ICSAnalyzer.Returned a ->
  ICSAnalyzer.add_duration (ICSAnalyzer.total_duration self)
    (ICSAnalyzer.dtstart event) (ICSAnalyzer.dtend event)
  = inr (ICSAnalyzer.total_duration a).
Proof.
  unfold ICSAnalyzer._process_event. cbv zeta.
  destruct (ICSAnalyzer.add_duration _ _ _) as [e'|total]; [done|].
  destruct (ICSAnalyzer.parse_event_title _) as [[[sj ty] i] r].
  destruct (_ || _); [now intros [= <-]|].
  repeat case_match; now intros [= <-].
Qed.

Lemma ics_process_outcome self event :
  match ICSAnalyzer.add_duration (ICSAnalyzer.total_duration self)
          (ICSAnalyzer.dtstart event) (ICSAnalyzer.dtend event) with
  | inr _ => exists a, ICSAnalyzer._process_event self event = ICSAnalyzer.Returned a
  | inl e => exists a, ICSAnalyzer._process_event self event = ICSAnalyzer.Raised e a
  end.
Proof.
  unfold ICSAnalyzer._process_event. cbv zeta.
  destruct (ICSAnalyzer.add_duration _ _ _) as [e'|total]; [by eexists|].
  destruct (ICSAnalyzer.parse_event_title _) as [[[sj ty] i] r].
  destruct (_ || _); [by eexists|].
  repeat case_match; by eexists.
Qed.


(** The calls before the one that raised all returned. *)
Lemma ics_raised_split events : forall self e a,
  ICSAnalyzer.process_events self events = ICSAnalyzer.Raised e a ->
  exists done event rest c,
    events = done ++ event :: rest /\
    ICSAnalyzer.process_events self done = ICSAnalyzer.Returned c /\
    ICSAnalyzer._process_event c event = ICSAnalyzer.Raised e a.
Proof.
  induction events as [|ev events IH]; intros self e a; [done|].
  cbn [ICSAnalyzer.process_events].
  destruct (ICSAnalyzer._process_event self ev) as [b|e' b] eqn:Hstep.
  - intros (done & event & rest & c & -> & Hdone & Hraise)%IH.
    exists (ev :: done), event, rest, c. split; [done|]. split; [|done].
    cbn [ICSAnalyzer.process_events]. now rewrite Hstep.
  - intros [= <- <-]. now exists [], ev, events, self.
Qed.

(** A quantity to which every returning call adds the weight of its
    event is, after the calls of a sequence, larger by the sum of the
    weights. *)
Lemma ics_process_events_sum (f : ICSAnalyzer.analyzer -> Z) (w : ICSAnalyzer.vevent -> Z) :
  (forall self event a,
     ICSAnalyzer._process_event self event = ICSAnalyzer.Returned a ->
     f a = (f self + w event)%Z) ->
  forall events self a,
    ICSAnalyzer.process_events self events = ICSAnalyzer.Returned a ->
    f a = (f self + sum_Z (map w events))%Z.
Proof.
  intros Hstep. induction events as [|e events IH]; intros self a.
  - intros [= <-]. cbn. lia.
  - cbn [ICSAnalyzer.process_events].
    destruct (ICSAnalyzer._process_event self e) as [b|e' b] eqn:Hb; [|done].
    intros Ha. rewrite (IH _ _ Ha), (Hstep _ _ _ Hb). cbn [map].
    change (sum_Z (w e :: map w events)) with (w e + sum_Z (map w events))%Z. lia.
Qed.




End IcsSequences.

(** ** Durations, by the fields of the tokens *)

Section DurationFields.
Context `{Builtins}.
Import SimpleICSAnalyzer.

(** A token whose hour field is read is not the empty string. *)
Lemma hour_field_read_truthy (token : str) (h : Z) :
  int_ (hour_field token) = Some h -> truthy (Some token) = true.
Proof.
  destruct token as [|c token]; [|done].
  unfold hour_field, slice. cbn. now rewrite int_empty.
Qed.

Lemma duration_of_fields start_time end_time h1 m1 h2 m2 :
  int_ (hour_field start_time) = Some h1 -> int_ (minute_field start_time) = Some m1 ->
  int_ (hour_field end_time) = Some h2 -> int_ (minute_field end_time) = Some m2 ->
  _calculate_duration_minutes start_time end_time = ((h2 * 60 + m2) - (h1 * 60 + m1))%Z.
Proof.
  intros E1 E2 E3 E4. unfold _calculate_duration_minutes.
  rewrite (hour_field_read_truthy _ _ E1), (hour_field_read_truthy _ _ E3).
  cbn [negb orb]. now rewrite (duration_try_Some _ _ h1 m1 h2 m2).
Qed.

Lemma duration_of_unread start_time end_time :
  int_ (hour_field start_time) = None \/ int_ (minute_field start_time) = None \/
  int_ (hour_field end_time) = None \/ int_ (minute_field end_time) = None ->
  _calculate_duration_minutes start_time end_time = 0%Z.
Proof.
  intros Hnone. unfold _calculate_duration_minutes.
  rewrite duration_try_None by done. now destruct (_ || _).
Qed.

End DurationFields.

(** ** The location classifier *)

Lemma contains_trans (p q s : str) :
  contains p q = true -> contains q s = true -> contains p s = true.
Proof.
  rewrite !contains_spec. intros (a & b & ->) (a' & b' & ->).
  exists (a' ++ a), (b ++ b'). now rewrite <- !app_assoc.
Qed.

(** The second alternative of the first two rules never decides. *)
Lemma contains_or (p q s : str) :
  contains p q = true -> contains p s || contains q s = contains p s.
Proof.
  intros Hpq. destruct (contains p s) eqn:Hp; [done|]. cbn [orb].
  apply not_true_is_false. intros Hq.
  rewrite (contains_trans p q s Hpq Hq) in Hp. discriminate.
Qed.

Lemma first_letter (letters s : str) :
  existsb (startswith s) (map (fun c => [c]) letters)
  = match s with c :: _ => existsb (N.eqb c) letters | [] => false end.
Proof.
  destruct s as [|c s].
  - induction letters as [|a letters IH]; [done|]. cbn. exact IH.
  - induction letters as [|a letters IH]; [done|].
    change (existsb (startswith (c :: s)) (map (fun c => [c]) (a :: letters)))
      with (startswith (c :: s) [a]
            || existsb (startswith (c :: s)) (map (fun c => [c]) letters)).
    rewrite IH. cbn [startswith existsb].
    replace (startswith s []) with true by now destruct s.
    now rewrite andb_true_r, (N.eqb_sym a c).
Qed.

Section Classifier.
Context `{Builtins}.

Lemma simple_categorize_classify (room : option str) :
  SimpleICSAnalyzer.categorize_location room = classify (utf8 "abcdef") room.
Proof.
  destruct room as [[|c r]|]; [done| |done].
  unfold SimpleICSAnalyzer.categorize_location, classify.
  cbn [truthy negb default]. rewrite bool_decide_false by done.
  cbv zeta. rewrite !contains_or by reflexivity.
  change [utf8 "a"; utf8 "b"; utf8 "c"; utf8 "d"; utf8 "e"; utf8 "f"]
    with (map (fun c : cp => [c]) (utf8 "abcdef")).
  rewrite first_letter. cbn [existsb]. now rewrite orb_false_r, !orb_assoc.
Qed.

Lemma ics_categorize_classify (room : option str) :
  ICSAnalyzer.categorize_location room = classify (utf8 "abc") room.
Proof.
  destruct room as [[|c r]|]; [done| |done].
  unfold ICSAnalyzer.categorize_location, classify.
  cbn [truthy negb default]. rewrite bool_decide_false by done.
  cbv zeta. rewrite !contains_or by reflexivity.
  change [utf8 "a"; utf8 "b"; utf8 "c"]
    with (map (fun c : cp => [c]) (utf8 "abc")).
  rewrite first_letter. cbn [existsb]. now rewrite orb_false_r, !orb_assoc.
Qed.

Lemma classify_teams (letters r : str) :
  forallb is_ascii r = true ->
  r <> [] ->
  contains (utf8 "teams") (map ascii_lower r) = true ->
  classify letters (Some r) = SimpleICSAnalyzer.teams.
Proof.
  intros Hascii Hne Hc. unfold classify. rewrite bool_decide_false by done.
  cbv zeta. now rewrite lower_ascii, Hc.
Qed.

End Classifier.

(** ** Tags and class types *)

Lemma six_tag_table_type tg c :
  In (tg, c) six_tag_table -> exists ty, In (tg, ty) tag_table /\ class_of ty = Some c.
Proof.
  intros [[= <- <-] | [[= <- <-] | [[= <- <-] | [[= <- <-] | [[= <- <-] | [[= <- <-] | []]]]]]];
    eexists; (split; [unfold tag_table; cbn [In]; eauto 10 | reflexivity]).
Qed.

Lemma three_tag_table_type tg c :
  In (tg, c) three_tag_table -> In tg texts_WL_ECW /\ class_of tg = Some c.
Proof.
  intros [[= <- <-] | [[= <- <-] | [[= <- <-] | []]]];
    (split; [unfold texts_WL_ECW; cbn [In]; eauto 10 | reflexivity]).
Qed.

(** In a title with one [(], the tag in parentheses is the text up to the
    first [)] after it, however the title is cut. *)
Lemma tag_other (S0 ws tg rest P ws' tg' rest' : str) :
  lacks 40 S0 -> all_in CSpace ws -> lacks 40 tg -> lacks 41 tg -> lacks 40 rest ->
  lacks 41 tg' ->
  S0 ++ ws ++ [40] ++ tg ++ [41] ++ rest = P ++ ws' ++ [40] ++ tg' ++ [41] ++ rest' ->
  tg' = tg.
Proof.
  intros HS Hws Htg0 Htg1 Hrest Htg' Heq.
  apply paren_split in Heq as [Heq | (l & Heq)]; [| |done..].
  - change ([41] ++ ?s) with (41 :: s) in Heq.
    apply split_unique in Heq as [Ht _]; [done | now apply lacks_In..].
  - exfalso. assert (lacks 40 (tg ++ [41] ++ rest)) as Hl.
    { apply lacks_app. split; [done|]. now apply lacks_app. }
    rewrite Heq in Hl. apply lacks_app in Hl as [_ Hl].
    apply lacks_app in Hl as [Hl _]. discriminate Hl.
Qed.

(** A title with one [(], opening a tag that is none of [texts], does not
    begin with a subject and a tag of [texts], with or without spaces
    around it. *)
Lemma short_prefix_strip_other (texts : list str) (S0 ws tg rest : str) :
  lacks 40 S0 -> all_in CSpace ws -> lacks 40 tg -> lacks 41 tg -> lacks 40 rest ->
  (forall t, In t texts -> lacks 41 t) -> ~ In tg texts ->
  ~ short_prefix texts (strip (S0 ++ ws ++ [40] ++ tg ++ [41] ++ rest)).
Proof.
  intros HS Hws Htg0 Htg1 Hrest Htexts Hnot (P & ws' & tg' & rest' & Heq & HP & _ & _ & Hin).
  destruct (strip_split (S0 ++ ws ++ [40] ++ tg ++ [41] ++ rest)) as (l & r & Ht & _).
  { rewrite Heq. now destruct P. }
  rewrite Heq in Ht.
  assert (S0 ++ ws ++ [40] ++ tg ++ [41] ++ rest
          = (l ++ P) ++ ws' ++ [40] ++ tg' ++ [41] ++ (rest' ++ r)) as Heq'.
  { rewrite Ht. list_assoc. }
  apply tag_other in Heq'; [|done..|now apply Htexts].
  now subst tg'.
Qed.

Lemma six_tags_rparen t : In t six_tags -> lacks 41 t.
Proof. now intros [<- | [<- | [<- | [<- | [<- | [<- | []]]]]]]. Qed.

(** ** Titles in neither form *)

Lemma full_title_in_full_form S w1 tg w2 w3 w4 N w5 w6 R :
  In tg six_tags ->
  in_full_form kw_instructor kw_room (full_title S w1 tg w2 w3 w4 N w5 w6 R).
Proof. intros Htg. now exists S, w1, tg, w2, w3, w4, N, w5, w6, R. Qed.

(** A title in short form ends with [)]; one in full form has a hyphen. *)
Lemma short_form_last t : in_short_form t -> hd 0 (rev t) = 41.
Proof.
  intros (S & w1 & tg & _ & ->). unfold short_title.
  change (utf8 ")") with [41]. now rewrite !app_assoc, rev_unit.
Qed.

Lemma full_form_hyphen kw_names kw_place t : in_full_form kw_names kw_place t -> In 45 t.
Proof.
  intros (S & w1 & tg & w2 & w3 & w4 & N & w5 & w6 & R & _ & ->).
  change (utf8 "-") with [45]. rewrite !in_app_iff. cbn [In]. tauto.
Qed.

(** ** The scenarios of the specification, evaluated *)

Example scenario_bazy_danych :
  SimpleICSAnalyzer.parse_event_title
    (utf8 "Bazy Danych (W) - Prowadzący: Jan Kowalski, Sala: A101")
  = (Some (utf8 "Bazy Danych"), Some (utf8 "W"),
     Some (utf8 "Jan Kowalski"), Some (utf8 "A101")) /\
  ICSAnalyzer.parse_event_title
    (utf8 "Bazy Danych (W) - Prowadzący: Jan Kowalski, Sala: A101")
  = (Some (utf8 "Bazy Danych"), Some (utf8 "W"),
     Some (utf8 "Jan Kowalski"), Some (utf8 "A101")) /\
  SimpleICSAnalyzer.categorize_location (H := ascii_builtins) (Some (utf8 "A101"))
  = SimpleICSAnalyzer.uczelnia /\
  SimpleICSAnalyzer._calculate_duration_minutes (H := ascii_builtins)
    (utf8 "20251116T080000") (utf8 "20251116T091500") = 75%Z.
Proof. repeat split; vm_compute; reflexivity. Qed.

Example scenario_algorytmy :
  SimpleICSAnalyzer.parse_event_title
    (utf8 "Algorytmy (E-CW) - Prowadzący: Anna Nowak, Sala: Platforma Teams")
  = (Some (utf8 "Algorytmy"), Some (utf8 "E-CW"),
     Some (utf8 "Anna Nowak"), Some (utf8 "Platforma Teams")) /\
  SimpleICSAnalyzer.categorize_location (H := ascii_builtins)
    (Some (utf8 "Platforma Teams")) = SimpleICSAnalyzer.teams /\
  on_campus_entry (H := ascii_builtins)
    {[ utf8 "SUMMARY" :=
         utf8 "Algorytmy (E-CW) - Prowadzący: Anna Nowak, Sala: Platforma Teams";
       utf8 "DTSTART" := utf8 "20251116T080000" ]} = None.
Proof. repeat split; vm_compute; reflexivity. Qed.

Example scenario_losowy_tekst :
  SimpleICSAnalyzer.parse_event_title (utf8 "Losowy tekst bez formatu") = unparsed /\
  ICSAnalyzer.parse_event_title (utf8 "Losowy tekst bez formatu") = unparsed.
Proof. split; vm_compute; reflexivity. Qed.

(** A tag that is none of the six, a tag written with spaces inside the
    parentheses, and names that contain [, Sala:]. *)
Example scenario_other_titles :
  SimpleICSAnalyzer.parse_event_title (utf8 "Bazy Danych (X)") = unparsed /\
  SimpleICSAnalyzer.parse_event_title (utf8 "Bazy Danych ( W )") = unparsed /\
  SimpleICSAnalyzer.parse_event_title
    (utf8 "Bazy (L) - Prowadzący: Jan, Sala: A1, Sala: B2")
  = (Some (utf8 "Bazy"), Some (utf8 "L"), Some (utf8 "Jan"), Some (utf8 "A1, Sala: B2")).
Proof. repeat split; vm_compute; reflexivity. Qed.

(** The duration block of [ICSAnalyzer._process_event]: two naive times
    90 minutes apart, two dates one day apart, an event without end, a
    date with a naive time, a naive with an aware time, and a total that
    leaves the range of [timedelta]. *)
Example scenario_durations :
  let add := ICSAnalyzer.add_duration (calendar := ICSAnalyzer.py_icalendar) in
  add 0%Z (Some (ICSAnalyzer.naive_datetime (on_16_november 8 0)))
    (Some (ICSAnalyzer.naive_datetime (on_16_november 9 30)))
  = inr (90 * 60 * 1000000)%Z /\
  add 0%Z (Some (ICSAnalyzer.date 739571)) (Some (ICSAnalyzer.date 739572))
  = inr (86400 * 1000000)%Z /\
  add 0%Z (Some (ICSAnalyzer.utc_datetime (on_16_november 8 0))) None = inr 0%Z /\
  add 0%Z (Some (ICSAnalyzer.date 739571))
    (Some (ICSAnalyzer.naive_datetime (on_16_november 9 30)))
  = inl ICSAnalyzer.TypeError /\
  add 0%Z (Some (ICSAnalyzer.naive_datetime (on_16_november 8 0)))
    (Some (ICSAnalyzer.utc_datetime (on_16_november 9 30)))
  = inl ICSAnalyzer.TypeError /\
  add (999999999 * 86400 * 1000000)%Z
    (Some (ICSAnalyzer.date 739571)) (Some (ICSAnalyzer.date 739572))
  = inl ICSAnalyzer.OverflowError.
Proof. repeat split; vm_compute; reflexivity. Qed.

(** * The claims *)



(** C2, the claim as stated fails.  [ICSAnalyzer] knows the tags W, L and
    E-CW only: a title with the tag E-W is unparsed there, while
    [SimpleICSAnalyzer] reads it as a lecture.  And in [SimpleICSAnalyzer]
    a tag that is none of the six does not alone make a title unparsed:
    when a known tag in parentheses comes later in the title, everything
    before it is the subject. *)
Lemma unknown_tag_not_always_unparsed :
  ICSAnalyzer.parse_event_title (utf8 "Bazy Danych (E-W)") = unparsed /\
  SimpleICSAnalyzer.parse_event_title (utf8 "Bazy Danych (E-W)")
  = (Some (utf8 "Bazy Danych"), Some (utf8 "W"), None, None) /\
  SimpleICSAnalyzer.parse_event_title
    (utf8 "Bazy (X) - Prowadzący: Jan, Sala: A101 (W)")
  = (Some (utf8 "Bazy (X) - Prowadzący: Jan, Sala: A101"), Some (utf8 "W"), None, None).
Proof. repeat split; vm_compute; reflexivity. Qed.

(** C2, amended.  For every title in short or full form whose subject is
    not blank and has no newline and no [(] (and, in the full form, whose
    names and room are not blank, have no newline and no [Prowadzący:],
    the names no [Sala:] either), [SimpleICSAnalyzer]'s parser gives the
    class type of the table of six tags (W, E-W: lecture; L, ĆW: lab;
    E-CW, E-ĆW: remote exercise) and [ICSAnalyzer]'s parser gives it for
    the tags W, L and E-CW.  A title with a single [(], opening a tag
    that is none of the six (none of the three, for [ICSAnalyzer]) and
    closed by the first [)], is unparsed. *)
Theorem tag_normalization :
  (forall tg c S w1,
     In (tg, c) six_tag_table -> subject_ok S = true -> blank w1 = true ->
     class_type (SimpleICSAnalyzer.parse_event_title (short_title S w1 tg)) = Some c) /\
  (forall tg c S w1 w2 w3 w4 N w5 w6 R,
     In (tg, c) six_tag_table ->
     subject_ok S = true -> names_ok N = true -> room_ok R = true ->
     blank w1 = true -> blank w2 = true -> blank w3 = true ->
     blank w4 = true -> blank w5 = true -> blank w6 = true ->
     class_type (SimpleICSAnalyzer.parse_event_title
                   (full_title S w1 tg w2 w3 w4 N w5 w6 R)) = Some c) /\
  (forall tg S w1 rest,
     ~ In tg six_tags ->
     contains (utf8 "(") S = false -> blank w1 = true ->
     contains (utf8 "(") tg = false -> contains (utf8 ")") tg = false ->
     contains (utf8 "(") rest = false ->
     SimpleICSAnalyzer.parse_event_title (S ++ w1 ++ utf8 "(" ++ tg ++ utf8 ")" ++ rest)
     = unparsed) /\
  (forall tg c S w1,
     In (tg, c) three_tag_table -> subject_ok S = true -> blank w1 = true ->
     class_type (ICSAnalyzer.parse_event_title (short_title S w1 tg)) = Some c) /\
  (forall tg c S w1 w2 w3 w4 N w5 w6 R,
     In (tg, c) three_tag_table ->
     subject_ok S = true -> names_ok N = true -> room_ok R = true ->
     blank w1 = true -> blank w2 = true -> blank w3 = true ->
     blank w4 = true -> blank w5 = true -> blank w6 = true ->
     class_type (ICSAnalyzer.parse_event_title
                   (full_title S w1 tg w2 w3 w4 N w5 w6 R)) = Some c) /\
  (forall tg S w1 rest,
     ~ In tg texts_WL_ECW ->
     contains (utf8 "(") S = false -> blank w1 = true ->
     contains (utf8 "(") tg = false -> contains (utf8 ")") tg = false ->
     contains (utf8 "(") rest = false ->
     ICSAnalyzer.parse_event_title (S ++ w1 ++ utf8 "(" ++ tg ++ utf8 ")" ++ rest)
     = unparsed).
Proof.
  repeat apply conj.
  - intros tg c S w1 (ty & Hty & Hc)%six_tag_table_type HS Hw1.
    now rewrite (simple_parse_short S w1 tg ty).
  - intros tg c S w1 w2 w3 w4 N w5 w6 R (ty & Hty & Hc)%six_tag_table_type
      HS HN HR Hw1 Hw2 Hw3 Hw4 Hw5 Hw6.
    now rewrite (simple_parse_full S w1 tg ty).
  - intros tg S w1 rest Hnot HS Hw1 Htg0 Htg1 Hrest.
    apply simple_unparsed_iff.
    apply (short_prefix_strip_other six_tags S w1 tg rest); try done.
    apply six_tags_rparen.
  - intros tg c S w1 [Htg Hc]%three_tag_table_type HS Hw1.
    now rewrite (ics_parse_short S w1 tg).
  - intros tg c S w1 w2 w3 w4 N w5 w6 R [Htg Hc]%three_tag_table_type
      HS HN HR Hw1 Hw2 Hw3 Hw4 Hw5 Hw6.
    now rewrite (ics_parse_full S w1 tg).
  - intros tg S w1 rest Hnot HS Hw1 Htg0 Htg1 Hrest.
    apply ics_unparsed_iff.
    apply (short_prefix_strip_other texts_WL_ECW S w1 tg rest); try done.
    apply texts_WL_rparen.
Qed.

(** C3, the claim as stated fails for [ICSAnalyzer]: its alphabet of
    building letters stops at [c], so the room D101 is not on campus
    there, while [SimpleICSAnalyzer] puts it on campus. *)
Lemma ics_letters_stop_at_c :
  ICSAnalyzer.categorize_location (H := ascii_builtins) (Some (utf8 "D101"))
  = SimpleICSAnalyzer.inne_lokalizacje /\
  SimpleICSAnalyzer.categorize_location (H := ascii_builtins) (Some (utf8 "D101"))
  = SimpleICSAnalyzer.uczelnia.
Proof. split; reflexivity. Qed.

(** C3, amended.  [categorize_location] is a total function that applies
    the rules of [classify] in their order to the lower-cased room, with
    the letters a-f in [SimpleICSAnalyzer] and the letters a-c in
    [ICSAnalyzer]: an absent or empty room is in no category
    ([inne_lokalizacje]); a room containing teams is on Teams (so Teams,
    TEAMS and platforma teams all are); then moodle; then one of sala,
    budynek, aula, laboratorium; then a first letter of the alphabet
    together with a digit; and two rooms with the same lower-case form
    are in the same category. *)
Theorem location_rules_in_order `{Builtins} :
  (forall room,
     SimpleICSAnalyzer.categorize_location room = classify (utf8 "abcdef") room) /\
  (forall room,
     ICSAnalyzer.categorize_location room = classify (utf8 "abc") room) /\
  (forall letters, classify letters None = SimpleICSAnalyzer.inne_lokalizacje /\
                   classify letters (Some []) = SimpleICSAnalyzer.inne_lokalizacje) /\
  (forall letters,
     classify letters (Some (utf8 "Teams")) = SimpleICSAnalyzer.teams /\
     classify letters (Some (utf8 "TEAMS")) = SimpleICSAnalyzer.teams /\
     classify letters (Some (utf8 "platforma teams")) = SimpleICSAnalyzer.teams) /\
  (forall letters r r',
     r <> [] -> r' <> [] -> lower r = lower r' ->
     classify letters (Some r) = classify letters (Some r')).
Proof.
  split; [apply simple_categorize_classify|].
  split; [apply ics_categorize_classify|].
  split; [done|].
  split.
  { intros letters. repeat split; now apply classify_teams. }
  intros letters r r' Hr Hr' Hlow. unfold classify.
  rewrite !bool_decide_false by done. cbv zeta. now rewrite Hlow.
Qed.

(** C4, the claim as stated fails: a start at 09:00 and an end at 08:00
    give -60. *)
Lemma duration_can_be_negative :
  SimpleICSAnalyzer._calculate_duration_minutes (H := ascii_builtins)
    (utf8 "20251116T090000") (utf8 "20251116T080000") = (-60)%Z /\
  (-60 < 0)%Z.
Proof. split; reflexivity. Qed.

(** C4, amended.  [_calculate_duration_minutes] returns an integer that is
    at least 0, except when all four fields are read and the end token's
    minute of the day is smaller than the start token's: then, and only
    then, the result is negative, and it is their difference. *)
Theorem duration_sign `{Builtins} (start_time end_time : str) :
  let d := SimpleICSAnalyzer._calculate_duration_minutes start_time end_time in
  ((d < 0)%Z <->
   exists h1 m1 h2 m2,
     int_ (hour_field start_time) = Some h1 /\ int_ (minute_field start_time) = Some m1 /\
     int_ (hour_field end_time) = Some h2 /\ int_ (minute_field end_time) = Some m2 /\
     (h2 * 60 + m2 < h1 * 60 + m1)%Z) /\
  (forall h1 m1 h2 m2,
     int_ (hour_field start_time) = Some h1 -> int_ (minute_field start_time) = Some m1 ->
     int_ (hour_field end_time) = Some h2 -> int_ (minute_field end_time) = Some m2 ->
     (h2 * 60 + m2 < h1 * 60 + m1)%Z ->
     d = ((h2 * 60 + m2) - (h1 * 60 + m1))%Z /\ (d < 0)%Z).
Proof.
  cbv zeta. split.
  - split.
    + intros Hd.
      destruct (duration_cases start_time end_time)
        as [(h1 & m1 & h2 & m2 & E1 & E2 & E3 & E4 & Heq) | Heq]; [|lia].
      exists h1, m1, h2, m2. repeat split; try done. lia.
    + intros (h1 & m1 & h2 & m2 & E1 & E2 & E3 & E4 & Hlt).
      rewrite (duration_of_fields _ _ _ _ _ _ E1 E2 E3 E4). lia.
  - intros h1 m1 h2 m2 E1 E2 E3 E4 Hlt.
    rewrite (duration_of_fields _ _ _ _ _ _ E1 E2 E3 E4). lia.
Qed.

(** C5, the claim as stated fails: an end token of twelve characters is
    too short for a timestamp, yet its minute field is read as the single
    digit it holds and the result is 61, not 0. *)
Lemma short_token_duration_not_zero :
  length (utf8 "20251116T091") = 12%nat /\
  SimpleICSAnalyzer._calculate_duration_minutes (H := ascii_builtins)
    (utf8 "20251116T080000") (utf8 "20251116T091") = 61%Z.
Proof. split; reflexivity. Qed.

(** C5, amended.  [_calculate_duration_minutes] is a total function that
    depends on its two tokens only through their hour fields (characters
    9-10) and minute fields (characters 11-12).  When [int] reads the four
    fields it returns the end minute of the day minus the start minute of
    the day, so 75 for 20251116T080000 and 20251116T091500.  It returns 0
    when one of the four fields is not read by [int], in particular when a
    token is absent (empty) or has at most eleven characters. *)
Theorem duration_reads_hour_and_minute_fields `{Builtins} :
  (forall start_time end_time h1 m1 h2 m2,
     int_ (hour_field start_time) = Some h1 -> int_ (minute_field start_time) = Some m1 ->
     int_ (hour_field end_time) = Some h2 -> int_ (minute_field end_time) = Some m2 ->
     SimpleICSAnalyzer._calculate_duration_minutes start_time end_time
     = ((h2 * 60 + m2) - (h1 * 60 + m1))%Z) /\
  SimpleICSAnalyzer._calculate_duration_minutes
    (utf8 "20251116T080000") (utf8 "20251116T091500") = 75%Z /\
  (forall start_time end_time,
     int_ (hour_field start_time) = None \/ int_ (minute_field start_time) = None \/
     int_ (hour_field end_time) = None \/ int_ (minute_field end_time) = None ->
     SimpleICSAnalyzer._calculate_duration_minutes start_time end_time = 0%Z) /\
  (forall start_time end_time,
     (length start_time <= 11)%nat \/ (length end_time <= 11)%nat ->
     SimpleICSAnalyzer._calculate_duration_minutes start_time end_time = 0%Z) /\
  (forall token,
     SimpleICSAnalyzer._calculate_duration_minutes [] token = 0%Z /\
     SimpleICSAnalyzer._calculate_duration_minutes token [] = 0%Z) /\
  (forall start_time end_time start_time' end_time',
     hour_field start_time' = hour_field start_time ->
     minute_field start_time' = minute_field start_time ->
     hour_field end_time' = hour_field end_time ->
     minute_field end_time' = minute_field end_time ->
     SimpleICSAnalyzer._calculate_duration_minutes start_time' end_time'
     = SimpleICSAnalyzer._calculate_duration_minutes start_time end_time).
Proof.
  assert (forall start_time end_time,
     (length start_time <= 11)%nat \/ (length end_time <= 11)%nat ->
     SimpleICSAnalyzer._calculate_duration_minutes start_time end_time = 0%Z) as Hshort.
  { intros start_time end_time [Hlen | Hlen]; apply duration_of_unread.
    - right; left. rewrite short_token_field by done. apply int_empty.
    - do 3 right. rewrite short_token_field by done. apply int_empty. }
  split; [apply duration_of_fields|].
  split; [apply duration_example|].
  split; [apply duration_of_unread|].
  split; [exact Hshort|].
  split.
  { intros token. split; apply Hshort; cbn [length]; [left | right]; lia. }
  intros start_time end_time start_time' end_time' E1 E2 E3 E4.
  destruct (int_ (hour_field start_time)) as [h1|] eqn:F1;
    [|rewrite !duration_of_unread; [done|left; done|left; congruence]].
  destruct (int_ (minute_field start_time)) as [m1|] eqn:F2;
    [|rewrite !duration_of_unread; [done|right; left; done|right; left; congruence]].
  destruct (int_ (hour_field end_time)) as [h2|] eqn:F3;
    [|rewrite !duration_of_unread; [done|right; right; left; done
                                   |right; right; left; congruence]].
  destruct (int_ (minute_field end_time)) as [m2|] eqn:F4;
    [|rewrite !duration_of_unread; [done|do 3 right; done|do 3 right; congruence]].
  rewrite (duration_of_fields start_time end_time h1 m1 h2 m2) by done.
  apply duration_of_fields; congruence.
Qed.

(** C6, the claim as stated fails.  The keywords of the full form are
    [Prowadzący:] and [Sala:]: of a title written with [Instructor:] and
    [Room:] the parser reads only the short form at its beginning, so
    instructor and room are absent.  And [ICSAnalyzer] reads no full form
    with a tag other than W, L and E-CW. *)
Lemma english_keywords_not_read :
  SimpleICSAnalyzer.parse_event_title
    (utf8 "Bazy Danych (W) - Instructor: Jan Kowalski, Room: A101")
  = (Some (utf8 "Bazy Danych"), Some (utf8 "W"), None, None) /\
  ICSAnalyzer.parse_event_title
    (utf8 "Bazy Danych (W) - Instructor: Jan Kowalski, Room: A101")
  = (Some (utf8 "Bazy Danych"), Some (utf8 "W"), None, None) /\
  ICSAnalyzer.parse_event_title
    (utf8 "Bazy Danych (E-W) - Prowadzący: Jan Kowalski, Sala: A101")
  = unparsed.
Proof. repeat split; vm_compute; reflexivity. Qed.

(** C6, amended.  A full-form title is
    [<subject> (<tag>) - Prowadzący: <names>, Sala: <room>], with any
    white space where the patterns allow it.  When the subject is not
    blank and has no newline and no [(], the names are not blank and have
    no newline and neither keyword, and the room is not blank and has no
    newline and no [Prowadzący:], [SimpleICSAnalyzer]'s parser returns,
    for each of the six tags, the subject, the type of the tag, the names
    (as one string) and the room, each stripped, with instructor and room
    present; [ICSAnalyzer]'s parser does so for the tags W, L and E-CW. *)
Theorem full_title_round_trip (S w1 tg ty w2 w3 w4 N w5 w6 R : str) :
  In (tg, ty) tag_table ->
  subject_ok S = true -> names_ok N = true -> room_ok R = true ->
  blank w1 = true -> blank w2 = true -> blank w3 = true ->
  blank w4 = true -> blank w5 = true -> blank w6 = true ->
  SimpleICSAnalyzer.parse_event_title (full_title S w1 tg w2 w3 w4 N w5 w6 R)
  = (Some (strip S), Some ty, Some (strip N), Some (strip R)) /\
  (In tg texts_WL_ECW ->
   ICSAnalyzer.parse_event_title (full_title S w1 tg w2 w3 w4 N w5 w6 R)
   = (Some (strip S), Some tg, Some (strip N), Some (strip R))).
Proof.
  intros Htg HS HN HR Hw1 Hw2 Hw3 Hw4 Hw5 Hw6. split.
  - now apply simple_parse_full.
  - intros Htg'. now apply ics_parse_full.
Qed.

Lemma full_title_round_trip_witness :
  SimpleICSAnalyzer.parse_event_title
    (full_title (utf8 " Bazy Danych") (utf8 " ") (utf8 "E-ĆW") (utf8 " ") (utf8 " ")
       (utf8 " ") (utf8 "Jan Kowalski, Anna Nowak ") [] (utf8 " ") (utf8 "A101 "))
  = (Some (strip (utf8 " Bazy Danych")), Some (utf8 "E-CW"),
     Some (strip (utf8 "Jan Kowalski, Anna Nowak ")), Some (strip (utf8 "A101 "))) /\
  strip (utf8 " Bazy Danych") = utf8 "Bazy Danych" /\
  strip (utf8 "Jan Kowalski, Anna Nowak ") = utf8 "Jan Kowalski, Anna Nowak" /\
  strip (utf8 "A101 ") = utf8 "A101".
Proof.
  split; [|repeat split; vm_compute; reflexivity].
  apply (full_title_round_trip (utf8 " Bazy Danych") (utf8 " ") (utf8 "E-ĆW")
           (utf8 "E-CW") (utf8 " ") (utf8 " ") (utf8 " ")
           (utf8 "Jan Kowalski, Anna Nowak ") [] (utf8 " ") (utf8 "A101 "));
    try (vm_compute; reflexivity).
  unfold tag_table. cbn [In]. do 4 right. left. reflexivity.
Defined.

(** C7, the claim as stated fails: a title that goes on after the tag is
    in neither form (it does not end with the tag, and it has no hyphen),
    yet the parser reads the short form at its beginning. *)
Lemma text_after_tag_is_parsed :
  ~ in_short_form (utf8 "Bazy Danych (W) nieznany format") /\
  ~ in_full_form kw_instructor kw_room (utf8 "Bazy Danych (W) nieznany format") /\
  ~ in_full_form (utf8 "Instructor:") (utf8 "Room:")
      (utf8 "Bazy Danych (W) nieznany format") /\
  SimpleICSAnalyzer.parse_event_title (utf8 "Bazy Danych (W) nieznany format")
  = (Some (utf8 "Bazy Danych"), Some (utf8 "W"), None, None) /\
  ICSAnalyzer.parse_event_title (utf8 "Bazy Danych (W) nieznany format")
  = (Some (utf8 "Bazy Danych"), Some (utf8 "W"), None, None).
Proof.
  split; [|split; [|split; [|split; vm_compute; reflexivity]]].
  - intros Hs%short_form_last. vm_compute in Hs. discriminate Hs.
  - intros Hf%full_form_hyphen. revert Hf. now apply lacks_In.
  - intros Hf%full_form_hyphen. revert Hf. now apply lacks_In.
Qed.

(** C7, amended.  [parse_event_title] is a total function, and it returns
    the unparsed tuple exactly for the titles whose stripped text does not
    begin with the short form: a subject that is not empty and has no
    newline, any white space, and a tag in parentheses, one of the six for
    [SimpleICSAnalyzer] and one of W, L and E-CW for [ICSAnalyzer].  What
    follows the tag does not matter. *)
Theorem unparsed_titles (title : str) :
  (SimpleICSAnalyzer.parse_event_title title = unparsed <->
   ~ short_prefix six_tags (strip title)) /\
  (ICSAnalyzer.parse_event_title title = unparsed <->
   ~ short_prefix texts_WL_ECW (strip title)).
Proof. split; [apply simple_unparsed_iff | apply ics_unparsed_iff]. Qed.

(** C8.  When [_process_simple_event] is called with an event whose title
    does not parse, [total_events] and [inne] each grow by one, the
    total-minutes counter receives the event's duration, and every other
    part of the state is unchanged: the per-type counters, the
    per-location counters, the subject map, the per-type and per-location
    minute totals and the on-campus schedule. *)
Theorem unparsed_event_frame `{Builtins}
    (self : SimpleICSAnalyzer.analyzer) (event : gmap str str) :
  SimpleICSAnalyzer.parse_event_title (title_of event) = unparsed ->
  let a := SimpleICSAnalyzer._process_simple_event self event in
  let st := SimpleICSAnalyzer.stats self in
  let ts := SimpleICSAnalyzer.time_stats self in
  let st' := SimpleICSAnalyzer.stats a in
  let ts' := SimpleICSAnalyzer.time_stats a in
  SimpleICSAnalyzer.total_events st' = (SimpleICSAnalyzer.total_events st + 1)%Z /\
  SimpleICSAnalyzer.inne st' = (SimpleICSAnalyzer.inne st + 1)%Z /\
  SimpleICSAnalyzer.total_minutes ts'
  = (SimpleICSAnalyzer.total_minutes ts + duration_of event)%Z /\
  SimpleICSAnalyzer.wykłady st' = SimpleICSAnalyzer.wykłady st /\
  SimpleICSAnalyzer.laboratoria st' = SimpleICSAnalyzer.laboratoria st /\
  SimpleICSAnalyzer.e_cw st' = SimpleICSAnalyzer.e_cw st /\
  SimpleICSAnalyzer.location_stats a = SimpleICSAnalyzer.location_stats self /\
  SimpleICSAnalyzer.subjects a = SimpleICSAnalyzer.subjects self /\
  SimpleICSAnalyzer.wykłady_minutes ts' = SimpleICSAnalyzer.wykłady_minutes ts /\
  SimpleICSAnalyzer.laboratoria_minutes ts' = SimpleICSAnalyzer.laboratoria_minutes ts /\
  SimpleICSAnalyzer.e_cw_minutes ts' = SimpleICSAnalyzer.e_cw_minutes ts /\
  SimpleICSAnalyzer.uczelnia_minutes ts' = SimpleICSAnalyzer.uczelnia_minutes ts /\
  SimpleICSAnalyzer.zdalne_minutes ts' = SimpleICSAnalyzer.zdalne_minutes ts /\
  SimpleICSAnalyzer.uczelnia_schedule a = SimpleICSAnalyzer.uczelnia_schedule self.
Proof.
  intros Hu. cbv zeta. rewrite (process_unparsed self event Hu). cbn.
  repeat split.
Qed.

Lemma unparsed_event_frame_witness :
  SimpleICSAnalyzer.parse_event_title (title_of losowy_event) = unparsed /\
  let a := SimpleICSAnalyzer._process_simple_event SimpleICSAnalyzer.init losowy_event in
  SimpleICSAnalyzer.total_events (SimpleICSAnalyzer.stats a) = 1%Z /\
  SimpleICSAnalyzer.inne (SimpleICSAnalyzer.stats a) = 1%Z /\
  SimpleICSAnalyzer.subjects a = ∅.
Proof.
  assert (SimpleICSAnalyzer.parse_event_title (title_of losowy_event) = unparsed) as Hu
    by (vm_compute; reflexivity).
  split; [exact Hu|].
  pose proof (unparsed_event_frame (H := ascii_builtins) SimpleICSAnalyzer.init
                losowy_event Hu) as Hf.
  cbv zeta in *. destruct Hf as (H1 & H2 & _ & _ & _ & _ & _ & H8 & _).
  split; [exact H1 | split; [exact H2 | exact H8]].
Defined.

(** C9.  After any sequence of calls on a fresh analyzer the on-campus
    schedule holds, in input order, one entry for each event whose
    location category is on campus and that has both a room and a start
    token, and nothing else: each call appends that entry or leaves the
    list alone.  Recomputing the location category from the room of a
    stored entry gives on campus ([uczelnia]). *)
Theorem on_campus_schedule_in_input_order `{Builtins} (events : list (gmap str str)) :
  let schedule :=
    SimpleICSAnalyzer.uczelnia_schedule
      (SimpleICSAnalyzer.process_events SimpleICSAnalyzer.init events) in
  schedule = omap on_campus_entry events /\
  (forall self event,
     SimpleICSAnalyzer.uczelnia_schedule
       (SimpleICSAnalyzer._process_simple_event self event)
     = SimpleICSAnalyzer.uczelnia_schedule self ++ option_list (on_campus_entry event)) /\
  Forall (fun entry =>
            SimpleICSAnalyzer.categorize_location (Some (SimpleICSAnalyzer.room entry))
            = SimpleICSAnalyzer.uczelnia) schedule.
Proof.
  cbv zeta. rewrite process_events_schedule. cbn [SimpleICSAnalyzer.init
    SimpleICSAnalyzer.uczelnia_schedule app].
  split; [done|]. split; [apply process_schedule_step|].
  apply Forall_forall. intros entry (event & _ & Hev)%list_elem_of_omap.
  now apply on_campus_entry_room in Hev.
Qed.

(** C10.  After any sequence of calls on a fresh analyzer the three
    per-type minute totals sum to the same value as the two per-location
    minute totals, the summed durations of the events whose title parsed;
    the total-minutes counter is that value plus the durations of the
    events whose title did not parse, and there are sequences for which it
    strictly exceeds both sums. *)
Theorem minute_totals_agree `{Builtins} :
  (forall events : list (gmap str str),
     let ts := SimpleICSAnalyzer.time_stats
                 (SimpleICSAnalyzer.process_events SimpleICSAnalyzer.init events) in
     typed_minutes ts = minutes_of (fun e => negb (title_unparsed e)) events /\
     located_minutes ts = typed_minutes ts /\
     SimpleICSAnalyzer.total_minutes ts
     = (typed_minutes ts + minutes_of title_unparsed events)%Z) /\
  (exists events : list (gmap str str),
     let ts := SimpleICSAnalyzer.time_stats
                 (SimpleICSAnalyzer.process_events SimpleICSAnalyzer.init events) in
     (typed_minutes ts < SimpleICSAnalyzer.total_minutes ts)%Z /\
     (located_minutes ts < SimpleICSAnalyzer.total_minutes ts)%Z).
Proof.
  assert (forall events : list (gmap str str),
     let ts := SimpleICSAnalyzer.time_stats
                 (SimpleICSAnalyzer.process_events SimpleICSAnalyzer.init events) in
     typed_minutes ts = minutes_of (fun e => negb (title_unparsed e)) events /\
     located_minutes ts = typed_minutes ts /\
     SimpleICSAnalyzer.total_minutes ts
     = (typed_minutes ts + minutes_of title_unparsed events)%Z) as Hall.
  { intros events. cbv zeta.
    destruct (process_events_time events SimpleICSAnalyzer.init) as (T1 & T2 & T3).
    rewrite T1, T2, T3, minutes_of_split.
    unfold typed_minutes, located_minutes. cbn. lia. }
  split; [exact Hall|].
  exists [losowy_timed_event]. cbv zeta.
  destruct (Hall [losowy_timed_event]) as (E1 & E2 & E3).
  rewrite E2, E3, E1.
  assert (title_unparsed losowy_timed_event = true) as Hu by (vm_compute; reflexivity).
  assert (duration_of losowy_timed_event = 75%Z) as Hd.
  { unfold duration_of.
    assert (start_of losowy_timed_event = utf8 "20251116T080000") as ->
      by (vm_compute; reflexivity).
    assert (end_of losowy_timed_event = utf8 "20251116T091500") as ->
      by (vm_compute; reflexivity).
    apply duration_example. }
  rewrite !minutes_of_cons, Hu, Hd. cbn [negb]. unfold minutes_of. cbn. lia.
Qed.

(** * Further properties of the code *)

(** ** [_calculate_duration_minutes] *)

Section DurationAlgebra.
Context `{Builtins}.
Import SimpleICSAnalyzer.

Lemma fields_read_Some (token : str) :
  fields_read token = true ->
  exists h m, int_ (hour_field token) = Some h /\ int_ (minute_field token) = Some m.
Proof.
  unfold fields_read.
  destruct (int_ (hour_field token)) as [h|]; [|done].
  destruct (int_ (minute_field token)) as [m|]; [|done]. eauto.
Qed.

Lemma fields_unread (token : str) :
  fields_read token = false ->
  int_ (hour_field token) = None \/ int_ (minute_field token) = None.
Proof.
  unfold fields_read.
  destruct (int_ (hour_field token)) as [h|]; [|auto].
  destruct (int_ (minute_field token)) as [m|]; [done|auto].
Qed.

End DurationAlgebra.

(** X1.  Exchanging the two tokens negates the result of
    [_calculate_duration_minutes], for all tokens: also when they are
    empty or not read, where both results are 0. *)
Theorem duration_antisymmetric `{Builtins} (start_time end_time : str) :
  SimpleICSAnalyzer._calculate_duration_minutes end_time start_time
  = (- SimpleICSAnalyzer._calculate_duration_minutes start_time end_time)%Z.
Proof.
  destruct (fields_read start_time) eqn:Hs; [destruct (fields_read end_time) eqn:He|].
  - apply fields_read_Some in Hs as (h1 & m1 & E1 & E2).
    apply fields_read_Some in He as (h2 & m2 & E3 & E4).
    rewrite (duration_of_fields start_time end_time h1 m1 h2 m2) by done.
    rewrite (duration_of_fields end_time start_time h2 m2 h1 m1) by done. lia.
  - apply fields_unread in He.
    rewrite !duration_of_unread; [done|tauto..].
  - apply fields_unread in Hs.
    rewrite !duration_of_unread; [done|tauto..].
Qed.

(** X2.  When the hour and minute fields of three tokens are read, the
    duration from the first to the third is the sum of the durations
    from the first to the second and from the second to the third. *)
Theorem duration_additive `{Builtins} (t1 t2 t3 : str) :
  fields_read t1 = true -> fields_read t2 = true -> fields_read t3 = true ->
  (SimpleICSAnalyzer._calculate_duration_minutes t1 t2
   + SimpleICSAnalyzer._calculate_duration_minutes t2 t3)%Z
  = SimpleICSAnalyzer._calculate_duration_minutes t1 t3.
Proof.
  intros (h1 & m1 & A1 & A2)%fields_read_Some (h2 & m2 & B1 & B2)%fields_read_Some
         (h3 & m3 & C1 & C2)%fields_read_Some.
  rewrite (duration_of_fields t1 t2 h1 m1 h2 m2) by done.
  rewrite (duration_of_fields t2 t3 h2 m2 h3 m3) by done.
  rewrite (duration_of_fields t1 t3 h1 m1 h3 m3) by done. lia.
Qed.

Lemma duration_additive_witness :
  (SimpleICSAnalyzer._calculate_duration_minutes (H := ascii_builtins)
     (utf8 "20251116T080000") (utf8 "20251116T091500")
   + SimpleICSAnalyzer._calculate_duration_minutes (H := ascii_builtins)
       (utf8 "20251116T091500") (utf8 "20251116T103000"))%Z
  = SimpleICSAnalyzer._calculate_duration_minutes (H := ascii_builtins)
      (utf8 "20251116T080000") (utf8 "20251116T103000").
Proof.
  apply (duration_additive (H := ascii_builtins)); reflexivity.
Defined.

(** ** [categorize_location] in the two analyzers *)

(** X3.  The two [categorize_location] methods give the same category,
    except for a room that only [SimpleICSAnalyzer]'s longer alphabet
    places on campus: there [ICSAnalyzer] says [inne_lokalizacje], and the
    lower-cased room begins with d, e or f. *)
Theorem ics_categorize_vs_simple `{Builtins} (room : option str) :
  ICSAnalyzer.categorize_location room = SimpleICSAnalyzer.categorize_location room \/
  (ICSAnalyzer.categorize_location room = SimpleICSAnalyzer.inne_lokalizacje /\
   SimpleICSAnalyzer.categorize_location room = SimpleICSAnalyzer.uczelnia /\
   existsb (startswith (lower (default [] room))) [utf8 "d"; utf8 "e"; utf8 "f"] = true).
Proof.
  unfold ICSAnalyzer.categorize_location, SimpleICSAnalyzer.categorize_location.
  destruct (negb (truthy room)); [now left|]. cbv zeta.
  destruct (contains (utf8 "teams") _ || contains (utf8 "platforma teams") _);
    [now left|].
  destruct (contains (utf8 "moodle") _ || contains (utf8 "platforma moodle") _);
    [now left|].
  destruct (existsb (fun keyword => contains keyword _) _); [now left|].
  change [utf8 "a"; utf8 "b"; utf8 "c"; utf8 "d"; utf8 "e"; utf8 "f"]
    with ([utf8 "a"; utf8 "b"; utf8 "c"] ++ [utf8 "d"; utf8 "e"; utf8 "f"]).
  rewrite existsb_app.
  destruct (existsb _ [utf8 "a"; utf8 "b"; utf8 "c"]); [now left|].
  cbn [orb andb].
  destruct (existsb _ [utf8 "d"; utf8 "e"; utf8 "f"]); [|now left].
  cbn [andb]. destruct (existsb isdigit _); [now right | now left].
Qed.

(** ** The results of [parse_event_title] *)

(** The tail of the full form, with all its pieces. *)
Lemma full_tail_fields n0 gi gr s c s' c' :
  matches n0 (full_tail gi gr) s c s' c' ->
  exists w2 w3 w4 N w5 w6 R,
    s = [41] ++ w2 ++ [45] ++ w3 ++ kw_instructor ++ w4 ++ N ++ [44] ++ w5 ++
        kw_room ++ w6 ++ R ++ s' /\
    N <> [] /\ R <> [] /\ (s' = [] \/ s' = [10]) /\
    c' = (gr, R) :: (gi, N) :: c.
Proof.
  unfold full_tail. cbn [cat]. intros Hm. split_matches. subst.
  rewrite !taken_app. eexists _, _, _, _, _, _, _. split; [reflexivity|]. done.
Qed.

Lemma strip_idem (s : str) : strip (strip s) = strip s.
Proof.
  destruct (strip s) as [|x m] eqn:Hs; [done|]. rewrite <- Hs.
  destruct (strip_split s) as (l & r & _ & _ & _ & Hh & Ht); [now rewrite Hs|].
  now apply strip_id.
Qed.

Lemma nonspace_last_suffix (a m : str) : nonspace_last (a ++ m) -> m <> [] -> nonspace_last m.
Proof.
  unfold nonspace_last. rewrite rev_app_distr. intros Hh Hm.
  destruct (rev m) as [|x m'] eqn:Hr; [|exact Hh].
  apply (f_equal (@rev cp)) in Hr. rewrite rev_involutive in Hr. done.
Qed.

Lemma nonspace_last_strip (m : str) : nonspace_last m -> strip m <> [].
Proof.
  intros Hl. apply strip_nonempty. apply not_true_is_false. intros Hall.
  unfold nonspace_last in Hl. destruct (rev m) as [|x m'] eqn:Hr; [done|].
  simpl in Hl. assert (In x m) as Hin by (apply in_rev; rewrite Hr; now left).
  rewrite forallb_forall in Hall. rewrite (Hall x Hin) in Hl. discriminate.
Qed.

Section FullFields.
Variables (tag : regex) (texts : list str) (upd : str -> caps -> caps).
Hypothesis tag_inv : forall n0 s c s' c',
  matches n0 tag s c s' c' -> exists t, In t texts /\ s = t ++ s' /\ c' = upd t c.

(** A match of a full-form pattern on a stripped title: the subject, the
    names and the room are not empty, and the room is not blank. *)
Lemma re_match_full_fields gi gr title m :
  re_match (full_form tag gi gr) (strip title) = Some m ->
  exists P tg N R rest,
    strip title = P ++ rest /\ P <> [] /\ In tg texts /\ strip R <> [] /\
    m = (gr, R) :: (gi, N) :: upd tg [(1%nat, P)].
Proof.
  unfold re_match, full_form. intros (s' & c' & Hm & [= ->])%exec_sound.
  apply (form_inv tag texts upd tag_inv) in Hm
    as (P & ws & tg & X & Heq & HP & Hall & Hws & Htg & _ & Hm).
  apply full_tail_fields in Hm
    as (w2 & w3 & w4 & N & w5 & w6 & R & -> & HN & HR & Hs' & ->).
  exists P, tg, N, R. eexists. split; [exact Heq|]. repeat split; try done.
  destruct (strip_split title) as (l & r & _ & _ & _ & _ & Hlast);
    [rewrite Heq; now destruct P|].
  rewrite Heq in Hlast. apply nonspace_last_strip.
  destruct Hs' as [-> | ->].
  - rewrite app_nil_r in Hlast.
    replace (P ++ ws ++ [40] ++ tg ++ [41] ++ w2 ++ [45] ++ w3 ++ kw_instructor ++
             w4 ++ N ++ [44] ++ w5 ++ kw_room ++ w6 ++ R)
      with ((P ++ ws ++ [40] ++ tg ++ [41] ++ w2 ++ [45] ++ w3 ++ kw_instructor ++
             w4 ++ N ++ [44] ++ w5 ++ kw_room ++ w6) ++ R) in Hlast by list_assoc.
    now apply nonspace_last_suffix in Hlast.
  - exfalso. rewrite !app_assoc in Hlast. unfold nonspace_last in Hlast.
    rewrite rev_unit in Hlast. simpl in Hlast. discriminate Hlast.
Qed.

End FullFields.

Lemma full_shape_WL title m :
  re_match (full_form (tag_WL_ECW 2) 3 4) (strip title) = Some m ->
  result_shape (Some (strip (group m 1)), Some (strip (group m 2)),
                Some (strip (group m 3)), Some (strip (group m 4))).
Proof.
  intros (P & tg & N & R & rest & Heq & HP & Htg & HR & ->)
    %(re_match_full_fields _ texts_WL_ECW _ (tagWL_inv 2)).
  cbn [group Nat.eqb]. right. exists (strip P), tg.
  split; [now apply (subject_not_blank title P rest)|].
  split; [apply strip_idem|]. split; [done|].
  right. exists (strip N), (strip R). rewrite (strip_tag tg Htg).
  split; [done|]. split; [apply strip_idem|]. split; [done | apply strip_idem].
Qed.

Lemma full_shape_Lit tg ty title m :
  In ty texts_WL_ECW ->
  re_match (full_form (Lit tg) 2 3) (strip title) = Some m ->
  result_shape (Some (strip (group m 1)), Some ty,
                Some (strip (group m 2)), Some (strip (group m 3))).
Proof.
  intros Hty (P & tg' & N & R & rest & Heq & HP & Htg & HR & ->)
    %(re_match_full_fields _ [tg] (fun _ c => c) (tagLit_inv tg)).
  cbn [group Nat.eqb]. right. exists (strip P), ty.
  split; [now apply (subject_not_blank title P rest)|].
  split; [apply strip_idem|]. split; [done|].
  right. exists (strip N), (strip R).
  split; [done|]. split; [apply strip_idem|]. split; [done | apply strip_idem].
Qed.

Lemma short_shape_WL title m :
  re_match (short_form (tag_WL_ECW 2)) (strip title) = Some m ->
  result_shape (Some (strip (group m 1)), Some (strip (group m 2)), None, None).
Proof.
  intros (rest & Ht & HP & Htg)%short_WL_result.
  right. exists (strip (group m 1)), (group m 2).
  split; [now apply (subject_not_blank title _ rest)|].
  split; [apply strip_idem|]. split; [done|].
  left. now rewrite (strip_tag _ Htg).
Qed.

Lemma short_shape_Lit tg ty title m :
  In ty texts_WL_ECW ->
  re_match (short_form (Lit tg)) (strip title) = Some m ->
  result_shape (Some (strip (group m 1)), Some ty, None, None).
Proof.
  intros Hty (rest & Ht & HP)%short_Lit_result.
  right. exists (strip (group m 1)), ty.
  split; [now apply (subject_not_blank title _ rest)|].
  split; [apply strip_idem|]. split; [done|]. now left.
Qed.

(** X4.  Whatever the title, [parse_event_title] of either analyzer
    returns the unparsed tuple or a subject that is not empty and one of
    the types W, L and E-CW (never E-ĆW), with instructor and room either
    both absent or both present, the room then not empty; subject,
    instructor and room come stripped. *)
Theorem parse_result_shape (title : str) :
  result_shape (SimpleICSAnalyzer.parse_event_title title) /\
  result_shape (ICSAnalyzer.parse_event_title title).
Proof.
  assert (In (utf8 "W") texts_WL_ECW /\ In (utf8 "L") texts_WL_ECW /\
          In (utf8 "E-CW") texts_WL_ECW) as (HW & HL & HE)
    by (unfold texts_WL_ECW; cbn [In]; auto 10).
  split.
  - unfold SimpleICSAnalyzer.parse_event_title. cbv zeta. shape_patterns.
    destruct (re_match (full_form (tag_WL_ECW 2) 3 4) _) as [m|] eqn:F1;
      [exact (full_shape_WL title m F1)|].
    destruct (re_match (full_form (Lit (utf8 "E-W")) 2 3) _) as [m|] eqn:F2;
      [exact (full_shape_Lit (utf8 "E-W") _ title m HW F2)|].
    destruct (re_match (full_form (Lit (utf8 "E-ĆW")) 2 3) _) as [m|] eqn:F3;
      [exact (full_shape_Lit (utf8 "E-ĆW") _ title m HE F3)|].
    destruct (re_match (full_form (Lit (utf8 "ĆW")) 2 3) _) as [m|] eqn:F4;
      [exact (full_shape_Lit (utf8 "ĆW") _ title m HL F4)|].
    cbn [SimpleICSAnalyzer.simple_loop].
    destruct (re_match (short_form (tag_WL_ECW 2)) _) as [m|] eqn:S1;
      [exact (short_shape_WL title m S1)|].
    destruct (re_match (short_form (Lit (utf8 "E-W"))) _) as [m|] eqn:S2;
      [exact (short_shape_Lit (utf8 "E-W") _ title m HW S2)|].
    destruct (re_match (short_form (Lit (utf8 "E-ĆW"))) _) as [m|] eqn:S3;
      [exact (short_shape_Lit (utf8 "E-ĆW") _ title m HE S3)|].
    destruct (re_match (short_form (Lit (utf8 "ĆW"))) _) as [m|] eqn:S4;
      [exact (short_shape_Lit (utf8 "ĆW") _ title m HL S4)|].
    now left.
  - unfold ICSAnalyzer.parse_event_title. shape_patterns.
    destruct (re_match (full_form (tag_WL_ECW 2) 3 4) _) as [m|] eqn:F1;
      [exact (full_shape_WL title m F1)|].
    destruct (re_match (short_form (tag_WL_ECW 2)) _) as [m|] eqn:S1;
      [exact (short_shape_WL title m S1)|].
    now left.
Qed.

Lemma lstrip_blank (s : str) : all_in CSpace s -> lstrip s = [].
Proof. intros Hs. rewrite <- (app_nil_r s). now rewrite lstrip_ws. Qed.

(** White space around a string does not change what [strip] gives. *)
Lemma strip_pad (l t r : str) :
  all_in CSpace l -> all_in CSpace r -> strip (l ++ t ++ r) = strip t.
Proof.
  intros Hl Hr. unfold strip. rewrite lstrip_ws by done.
  destruct (lstrip_split t) as (l' & Ht & Hl' & [Hnil | Hhd]).
  - rewrite Hnil in *. rewrite app_nil_r in Ht. subst l'.
    rewrite lstrip_blank; [done|]. now apply all_in_app.
  - rewrite Ht at 1. rewrite <- app_assoc, lstrip_ws by done.
    rewrite (lstrip_nonspace (lstrip t ++ r))
      by (destruct (lstrip t); [done | exact Hhd]).
    unfold rstrip. rewrite rev_app_distr, lstrip_ws; [done|].
    now apply all_in_rev.
Qed.

(** X5.  White space before and after a title (blanks, tabs, line ends)
    does not change what [parse_event_title] returns, in either
    analyzer. *)
Theorem parse_ignores_outer_whitespace (l title r : str) :
  blank l = true -> blank r = true ->
  SimpleICSAnalyzer.parse_event_title (l ++ title ++ r)
  = SimpleICSAnalyzer.parse_event_title title /\
  ICSAnalyzer.parse_event_title (l ++ title ++ r)
  = ICSAnalyzer.parse_event_title title.
Proof.
  intros Hl Hr. split.
  - apply simple_parse_ext. now apply strip_pad.
  - apply ics_parse_ext. now apply strip_pad.
Qed.

Lemma parse_ignores_outer_whitespace_witness :
  SimpleICSAnalyzer.parse_event_title ([32; 9] ++ utf8 "Bazy Danych (ĆW)" ++ [13; 10])
  = SimpleICSAnalyzer.parse_event_title (utf8 "Bazy Danych (ĆW)") /\
  ICSAnalyzer.parse_event_title ([32; 9] ++ utf8 "Bazy Danych (ĆW)" ++ [13; 10])
  = ICSAnalyzer.parse_event_title (utf8 "Bazy Danych (ĆW)").
Proof.
  apply (parse_ignores_outer_whitespace [32; 9] (utf8 "Bazy Danych (ĆW)") [13; 10]);
    reflexivity.
Defined.

Lemma six_tags_WL_ECW tg : In tg texts_WL_ECW -> In tg six_tags.
Proof. unfold texts_WL_ECW, six_tags. cbn [In]. tauto. Qed.

(** X6.  [SimpleICSAnalyzer] parses every title that [ICSAnalyzer] parses:
    a title on which [SimpleICSAnalyzer.parse_event_title] returns the
    unparsed tuple is unparsed for [ICSAnalyzer.parse_event_title] too. *)
Theorem simple_unparsed_ics_unparsed (title : str) :
  SimpleICSAnalyzer.parse_event_title title = unparsed ->
  ICSAnalyzer.parse_event_title title = unparsed.
Proof.
  rewrite simple_unparsed_iff, ics_unparsed_iff. intros Hno Hp. apply Hno.
  revert Hp. apply short_prefix_mono, six_tags_WL_ECW.
Qed.

Lemma simple_unparsed_ics_unparsed_witness :
  ICSAnalyzer.parse_event_title (utf8 "Losowy tekst bez formatu") = unparsed.
Proof.
  apply simple_unparsed_ics_unparsed. vm_compute. reflexivity.
Defined.

(** ** The counters of [_process_simple_event], one event at a time *)

(** Evaluates the comparisons of closed strings. *)
Ltac decide_strings :=
  repeat match goal with
  | |- context [bool_decide (?a = ?b)] =>
    let v := eval vm_compute in (bool_decide (a = b)) in
    progress change (bool_decide (a = b)) with v
  end.

Section EventEffect.
Context `{Builtins}.
Import SimpleICSAnalyzer.

(** What one call adds to the per-type counters and minute totals. *)
Lemma process_type_step self event :
  let a := _process_simple_event self event in
  let d := duration_of event in
  (wykłady (stats a) = wykłady (stats self) + Z_of_bool (has_type (utf8 "W") event) /\
   laboratoria (stats a)
   = laboratoria (stats self) + Z_of_bool (has_type (utf8 "L") event) /\
   e_cw (stats a) = e_cw (stats self) + Z_of_bool (has_type (utf8 "E-CW") event))%Z /\
  (wykłady_minutes (time_stats a)
   = wykłady_minutes (time_stats self) + (if has_type (utf8 "W") event then d else 0) /\
   laboratoria_minutes (time_stats a)
   = laboratoria_minutes (time_stats self) + (if has_type (utf8 "L") event then d else 0) /\
   e_cw_minutes (time_stats a)
   = e_cw_minutes (time_stats self)
     + (if has_type (utf8 "E-CW") event then d else 0))%Z.
Proof.
  unfold has_type, type_of.
  destruct (simple_parse_cases (title_of event))
    as [Hu | (sj & ty & i & r & Hp & Hsj & Hty)].
  - cbv zeta. rewrite (process_unparsed _ _ Hu), Hu. unfold unparsed.
    decide_strings. cbn. repeat split; lia.
  - unfold _process_simple_event, duration_of.
    fold (title_of event) (start_of event) (end_of event). rewrite Hp.
    destruct sj as [|x sj]; [done|].
    by_type Hty; decide_strings; destruct (categorize_location r); cbn;
      repeat split; lia.
Qed.

(** What one call adds to the per-location counters and minute totals. *)
Lemma process_location_step self event :
  let a := _process_simple_event self event in
  let d := duration_of event in
  (n_teams (location_stats a)
   = n_teams (location_stats self) + Z_of_bool (located teams event) /\
   n_moodle (location_stats a)
   = n_moodle (location_stats self) + Z_of_bool (located moodle event) /\
   n_uczelnia (location_stats a)
   = n_uczelnia (location_stats self) + Z_of_bool (located uczelnia event) /\
   n_inne_lokalizacje (location_stats a)
   = n_inne_lokalizacje (location_stats self)
     + Z_of_bool (located inne_lokalizacje event))%Z /\
  (uczelnia_minutes (time_stats a)
   = uczelnia_minutes (time_stats self) + (if located uczelnia event then d else 0) /\
   zdalne_minutes (time_stats a)
   = zdalne_minutes (time_stats self)
     + (if located teams event || located moodle event
           || located inne_lokalizacje event then d else 0))%Z.
Proof.
  unfold located, category_of, room_of, title_unparsed.
  destruct (simple_parse_cases (title_of event))
    as [Hu | (sj & ty & i & r & Hp & Hsj & Hty)].
  - cbv zeta. rewrite (process_unparsed _ _ Hu), Hu. cbn. repeat split; lia.
  - unfold _process_simple_event, duration_of.
    fold (title_of event) (start_of event) (end_of event). rewrite Hp.
    destruct sj as [|x sj]; [done|].
    by_type Hty; destruct (categorize_location r); cbn; repeat split; lia.
Qed.

(** A counter that every call increases by an amount read from the
    event holds, after a sequence of calls, the sum of the amounts. *)
Lemma process_events_sum (f : analyzer -> Z) (w : gmap str str -> Z) :
  (forall self event, f (_process_simple_event self event) = (f self + w event)%Z) ->
  forall events self,
    f (process_events self events) = (f self + sum_Z (map w events))%Z.
Proof.
  intros Hstep events. induction events as [|e events IH]; intros self.
  - cbn. lia.
  - rewrite process_events_cons, IH, Hstep. cbn [map].
    change (sum_Z (w e :: map w events)) with (w e + sum_Z (map w events))%Z. lia.
Qed.

Lemma sum_count_if {A : Type} (p : A -> bool) (l : list A) :
  sum_Z (map (fun x => Z_of_bool (p x)) l) = count_if p l.
Proof.
  induction l as [|x l IH]; [done|].
  rewrite count_if_cons, <- IH. cbn. now destruct (p x).
Qed.

Lemma sum_minutes_of (p : gmap str str -> bool) (events : list (gmap str str)) :
  sum_Z (map (fun e => if p e then duration_of e else 0%Z) events) = minutes_of p events.
Proof.
  induction events as [|e events IH]; [done|].
  rewrite minutes_of_cons, <- IH. reflexivity.
Qed.

End EventEffect.

(** X7.  After any sequence of calls on a fresh analyzer each per-type
    counter is the number of events whose title parsed with that type
    (W for the tags W and E-W, L for L and ĆW, E-CW for E-CW and E-ĆW),
    and each per-type minute total is the sum of the durations of those
    events. *)
Theorem type_counters_and_minutes `{Builtins} (events : list (gmap str str)) :
  let a := SimpleICSAnalyzer.process_events SimpleICSAnalyzer.init events in
  let st := SimpleICSAnalyzer.stats a in
  let ts := SimpleICSAnalyzer.time_stats a in
  (SimpleICSAnalyzer.wykłady st = count_if (has_type (utf8 "W")) events /\
   SimpleICSAnalyzer.laboratoria st = count_if (has_type (utf8 "L")) events /\
   SimpleICSAnalyzer.e_cw st = count_if (has_type (utf8 "E-CW")) events) /\
  (SimpleICSAnalyzer.wykłady_minutes ts = minutes_of (has_type (utf8 "W")) events /\
   SimpleICSAnalyzer.laboratoria_minutes ts = minutes_of (has_type (utf8 "L")) events /\
   SimpleICSAnalyzer.e_cw_minutes ts = minutes_of (has_type (utf8 "E-CW")) events).
Proof.
  cbv zeta. rewrite <- !sum_count_if, <- !sum_minutes_of.
  repeat split;
    match goal with |- ?f (?g (SimpleICSAnalyzer.process_events _ _)) = _ =>
      rewrite (process_events_sum (fun a => f (g a)) _
                 (fun self event => ltac:(apply (process_type_step self event))))
    end; reflexivity.
Qed.

Lemma located_partition `{Builtins} (event : gmap str str) :
  (Z_of_bool (located SimpleICSAnalyzer.teams event)
   + Z_of_bool (located SimpleICSAnalyzer.moodle event)
   + Z_of_bool (located SimpleICSAnalyzer.uczelnia event)
   + Z_of_bool (located SimpleICSAnalyzer.inne_lokalizacje event))%Z
  = Z_of_bool (negb (title_unparsed event)).
Proof.
  unfold located. destruct (title_unparsed event); [done|].
  now destruct (category_of event).
Qed.

(** X8.  After any sequence of calls on a fresh analyzer each location
    counter is the number of events whose title parsed and whose room is
    of that category, so the four counters sum to the number of parsed
    events.  The on-campus minutes are the durations of the parsed
    on-campus events, and the remote minutes ([zdalne_minutes]) are the
    durations of all other parsed events: those on Teams and on Moodle and
    also those of no known location ([inne_lokalizacje]). *)
Theorem location_counters_and_minutes `{Builtins} (events : list (gmap str str)) :
  let a := SimpleICSAnalyzer.process_events SimpleICSAnalyzer.init events in
  let ls := SimpleICSAnalyzer.location_stats a in
  let ts := SimpleICSAnalyzer.time_stats a in
  (SimpleICSAnalyzer.n_teams ls = count_if (located SimpleICSAnalyzer.teams) events /\
   SimpleICSAnalyzer.n_moodle ls = count_if (located SimpleICSAnalyzer.moodle) events /\
   SimpleICSAnalyzer.n_uczelnia ls = count_if (located SimpleICSAnalyzer.uczelnia) events /\
   SimpleICSAnalyzer.n_inne_lokalizacje ls
   = count_if (located SimpleICSAnalyzer.inne_lokalizacje) events) /\
  (SimpleICSAnalyzer.n_teams ls + SimpleICSAnalyzer.n_moodle ls
   + SimpleICSAnalyzer.n_uczelnia ls + SimpleICSAnalyzer.n_inne_lokalizacje ls)%Z
  = count_if (fun e => negb (title_unparsed e)) events /\
  SimpleICSAnalyzer.uczelnia_minutes ts
  = minutes_of (located SimpleICSAnalyzer.uczelnia) events /\
  SimpleICSAnalyzer.zdalne_minutes ts
  = minutes_of (fun e => located SimpleICSAnalyzer.teams e
                         || located SimpleICSAnalyzer.moodle e
                         || located SimpleICSAnalyzer.inne_lokalizacje e) events.
Proof.
  cbv zeta.
  assert ((SimpleICSAnalyzer.n_teams
             (SimpleICSAnalyzer.location_stats
                (SimpleICSAnalyzer.process_events SimpleICSAnalyzer.init events))
           = count_if (located SimpleICSAnalyzer.teams) events /\
           SimpleICSAnalyzer.n_moodle
             (SimpleICSAnalyzer.location_stats
                (SimpleICSAnalyzer.process_events SimpleICSAnalyzer.init events))
           = count_if (located SimpleICSAnalyzer.moodle) events /\
           SimpleICSAnalyzer.n_uczelnia
             (SimpleICSAnalyzer.location_stats
                (SimpleICSAnalyzer.process_events SimpleICSAnalyzer.init events))
           = count_if (located SimpleICSAnalyzer.uczelnia) events /\
           SimpleICSAnalyzer.n_inne_lokalizacje
             (SimpleICSAnalyzer.location_stats
                (SimpleICSAnalyzer.process_events SimpleICSAnalyzer.init events))
           = count_if (located SimpleICSAnalyzer.inne_lokalizacje) events)) as Hn.
  { rewrite <- !sum_count_if.
    repeat split;
      match goal with |- ?f (?g (SimpleICSAnalyzer.process_events _ _)) = _ =>
        rewrite (process_events_sum (fun a => f (g a)) _
                   (fun self event => ltac:(apply (process_location_step self event))))
      end; reflexivity. }
  split; [exact Hn|]. split.
  { destruct Hn as (-> & -> & -> & ->). clear.
    induction events as [|e events IH]; [done|].
    rewrite !count_if_cons, <- IH.
    pose proof (located_partition e) as Hp. unfold Z_of_bool in Hp.
    destruct (located SimpleICSAnalyzer.teams e),
      (located SimpleICSAnalyzer.moodle e),
      (located SimpleICSAnalyzer.uczelnia e),
      (located SimpleICSAnalyzer.inne_lokalizacje e),
      (title_unparsed e); cbn [negb] in *; lia. }
  rewrite <- !sum_minutes_of.
  split;
    match goal with |- ?f (?g (SimpleICSAnalyzer.process_events _ _)) = _ =>
      rewrite (process_events_sum (fun a => f (g a)) _
                 (fun self event => ltac:(apply (process_location_step self event))))
    end; reflexivity.
Qed.

Section ScheduleLength.
Context `{Builtins}.
Import SimpleICSAnalyzer.

(** An event has an itinerary entry exactly when its title parsed, its
    room is on campus and its start token is not empty: a room of the
    category [uczelnia] is never empty. *)
Lemma on_campus_entry_Some (event : gmap str str) :
  bool_decide (is_Some (on_campus_entry event))
  = located uczelnia event && truthy (Some (start_of event)).
Proof.
  unfold on_campus_entry, located, category_of, room_of, title_unparsed.
  destruct (parse_event_title (title_of event)) as [[[sj ty] i] r] eqn:Hp.
  destruct (simple_parse_cases (title_of event))
    as [Hu | (sj' & ty' & i' & r' & Hp' & Hsj & Hty)].
  - rewrite Hu in Hp. injection Hp as <- <- <- <-. now cbn.
  - rewrite Hp' in Hp. injection Hp as <- <- <- <-. cbn [is_unparsed negb andb].
    destruct (location_eqb (categorize_location r') uczelnia) eqn:Hloc;
      destruct r' as [[|x r']|]; try done;
      destruct (truthy (Some (start_of event))); cbn [truthy andb];
      first [ now rewrite bool_decide_eq_true_2 by eauto
            | now rewrite bool_decide_eq_false_2 by apply is_Some_None ].
Qed.

Lemma length_omap_count {A B : Type} (f : A -> option B) (l : list A) :
  Z.of_nat (length (omap f l)) = count_if (fun x => bool_decide (is_Some (f x))) l.
Proof.
  induction l as [|x l IH]; [done|].
  rewrite count_if_cons, <- IH. cbn [omap list_omap].
  destruct (f x); cbn [length]; [|done].
  rewrite bool_decide_eq_true_2 by eauto. lia.
Qed.

End ScheduleLength.

(** X9.  After any sequence of calls on a fresh analyzer the on-campus
    counter is the length of the on-campus schedule plus the number of
    parsed on-campus events with an empty start token: the schedule is
    never longer than the counter says, and as long when every event has
    a start token. *)
Theorem on_campus_counter_and_schedule `{Builtins} (events : list (gmap str str)) :
  let a := SimpleICSAnalyzer.process_events SimpleICSAnalyzer.init events in
  SimpleICSAnalyzer.n_uczelnia (SimpleICSAnalyzer.location_stats a)
  = (Z.of_nat (length (SimpleICSAnalyzer.uczelnia_schedule a))
     + count_if (fun e => located SimpleICSAnalyzer.uczelnia e
                          && negb (truthy (Some (start_of e)))) events)%Z /\
  (Z.of_nat (length (SimpleICSAnalyzer.uczelnia_schedule a))
   <= SimpleICSAnalyzer.n_uczelnia (SimpleICSAnalyzer.location_stats a))%Z.
Proof.
  cbv zeta.
  rewrite process_events_schedule. cbn [SimpleICSAnalyzer.init
    SimpleICSAnalyzer.uczelnia_schedule app].
  rewrite length_omap_count.
  rewrite <- !sum_count_if.
  rewrite (process_events_sum
             (fun a => SimpleICSAnalyzer.n_uczelnia (SimpleICSAnalyzer.location_stats a)) _
             (fun self event => ltac:(apply (process_location_step self event)))).
  cbn [SimpleICSAnalyzer.init SimpleICSAnalyzer.location_stats
       SimpleICSAnalyzer.n_uczelnia].
  induction events as [|e events [IH1 IH2]]; [done|].
  cbn [map]. rewrite on_campus_entry_Some.
  change (sum_Z (?x :: ?l)) with (x + sum_Z l)%Z.
  unfold Z_of_bool in *.
  destruct (located SimpleICSAnalyzer.uczelnia e), (truthy (Some (start_of e)));
    cbn [andb negb]; lia.
Qed.

(** ** The subject records *)

Section SubjectRecords.
Context `{Builtins}.
Import SimpleICSAnalyzer.
Local Arguments on_subject : simpl never.

Lemma on_subject_lookup (f : subject_t -> subject_t) (sj s : str)
    (subs : gmap str subject_t) :
  on_subject f sj subs !! s
  = if bool_decide (sj = s) then Some (f (default new_subject (subs !! sj)))
    else subs !! s.
Proof.
  unfold on_subject. destruct (bool_decide (sj = s)) eqn:Hs.
  - apply bool_decide_eq_true in Hs as ->. apply lookup_insert_eq.
  - apply bool_decide_eq_false in Hs. now apply lookup_insert_ne.
Qed.

(** One call changes the record of the event's subject only, by
    [add_to_subject]. *)
Lemma process_subject_step self event (s : str) :
  subjects (_process_simple_event self event) !! s
  = subject_step s (subjects self !! s) event.
Proof.
  destruct (simple_parse_cases (title_of event))
    as [Hu | (sj & ty & i & r & Hp & Hsj & Hty)].
  - rewrite (process_unparsed _ _ Hu). cbn [subjects].
    unfold subject_step, has_subject, subject_of. rewrite Hu. cbn [unparsed].
    now rewrite bool_decide_eq_false_2.
  - assert (subject_of event = Some sj) as Esj by (unfold subject_of; now rewrite Hp).
    assert (type_of event = Some ty) as Ety by (unfold type_of; now rewrite Hp).
    assert (instructor_of event = i) as Ei by (unfold instructor_of; now rewrite Hp).
    assert (room_of event = r) as Er by (unfold room_of; now rewrite Hp).
    unfold subject_step, has_subject, add_to_subject, has_type.
    rewrite Esj, Ety, Ei, Er. clear Esj Ety Ei Er.
    unfold _process_simple_event.
    fold (title_of event) (start_of event) (end_of event). rewrite Hp.
    destruct sj as [|x sj]; [done|].
    match goal with |- _ = (if ?b then _ else _) => destruct b eqn:Hs end.
    + apply bool_decide_eq_true in Hs. injection Hs as <-.
      assert (bool_decide (x :: sj = x :: sj) = true) as Heq
        by now apply bool_decide_eq_true.
      by_type Hty; decide_strings; destruct (truthy i), (truthy r);
        cbn [subjects default id Z_of_bool];
        repeat (rewrite on_subject_lookup; rewrite bool_decide_eq_true_2 by reflexivity;
                cbn [default]);
        cbn [subject_wykłady subject_laboratoria subject_e_cw prowadzący sale];
        rewrite ?Z.add_0_r; reflexivity.
    + apply bool_decide_eq_false in Hs.
      assert (bool_decide (x :: sj = s) = false) as Hne
        by (apply bool_decide_eq_false; congruence).
      by_type Hty; destruct (truthy i), (truthy r); cbn [subjects];
        repeat (rewrite on_subject_lookup;
                rewrite bool_decide_eq_false_2 by congruence); reflexivity.
Qed.

Lemma process_events_subject events (s : str) : forall self,
  subjects (process_events self events) !! s
  = fold_left (subject_step s) events (subjects self !! s).
Proof.
  induction events as [|e events IH]; intros self; [done|].
  rewrite process_events_cons, IH, process_subject_step. reflexivity.
Qed.

Lemma truthy_spec (o : option str) :
  truthy o = true <-> exists x, o = Some x /\ x <> [].
Proof.
  destruct o as [[|c x]|]; cbn; split; try done.
  - intros (x & [= <-] & Hx). done.
  - intros _. now exists (c :: x).
  - intros (x & [=] & _).
Qed.

(** An event with a subject has exactly one of the three types. *)
Lemma has_subject_one_type (s : str) (event : gmap str str) :
  has_subject s event = true ->
  (Z_of_bool (has_type (utf8 "W") event) + Z_of_bool (has_type (utf8 "L") event)
   + Z_of_bool (has_type (utf8 "E-CW") event))%Z = 1%Z.
Proof.
  unfold has_subject, has_type, subject_of, type_of. intros Hs%bool_decide_eq_true.
  destruct (simple_parse_cases (title_of event))
    as [Hu | (sj & ty & i & r & Hp & Hsj & Hty)].
  - rewrite Hu in Hs. discriminate Hs.
  - rewrite Hp. destruct Hty as [<- | [<- | [<- | []]]]; decide_strings; reflexivity.
Qed.

Lemma subject_step_default (s : str) (o : option subject_t) (event : gmap str str) :
  default new_subject (subject_step s o event)
  = if has_subject s event then add_to_subject event (default new_subject o)
    else default new_subject o.
Proof. unfold subject_step. now destruct (has_subject s event). Qed.

Lemma subject_fold_is_Some (s : str) events : forall o,
  is_Some (fold_left (subject_step s) events o) <->
  is_Some o \/ exists e, In e events /\ has_subject s e = true.
Proof.
  induction events as [|e events IH]; intros o; cbn [fold_left].
  - split; [auto | intros [? | (e & [] & _)]; done].
  - rewrite IH. unfold subject_step at 1.
    destruct (has_subject s e) eqn:He; split.
    + intros _. right. exists e. split; [now left | done].
    + intros _. left. eauto.
    + intros [? | (e' & Hin & He')]; [now left|]. right. exists e'. split; [now right | done].
    + intros [? | (e' & [<- | Hin] & He')]; [now left | congruence |].
      right. now exists e'.
Qed.

Lemma subject_fold_counters (s : str) events : forall o d,
  fold_left (subject_step s) events o = Some d ->
  (subject_wykłady d
   = subject_wykłady (default new_subject o)
     + count_if (fun e => has_subject s e && has_type (utf8 "W") e) events /\
   subject_laboratoria d
   = subject_laboratoria (default new_subject o)
     + count_if (fun e => has_subject s e && has_type (utf8 "L") e) events /\
   subject_e_cw d
   = subject_e_cw (default new_subject o)
     + count_if (fun e => has_subject s e && has_type (utf8 "E-CW") e) events)%Z.
Proof.
  induction events as [|e events IH]; intros o d; cbn [fold_left].
  - intros ->. unfold count_if. cbn. lia.
  - intros (I1 & I2 & I3)%IH. rewrite I1, I2, I3, subject_step_default, !count_if_cons.
    destruct (has_subject s e); cbn [andb add_to_subject subject_wykłady
      subject_laboratoria subject_e_cw]; unfold Z_of_bool;
      destruct (has_type (utf8 "W") e), (has_type (utf8 "L") e),
        (has_type (utf8 "E-CW") e); lia.
Qed.

Lemma subject_fold_sets (s : str) events : forall o d,
  fold_left (subject_step s) events o = Some d ->
  (forall i, i ∈ prowadzący d <->
     i ∈ prowadzący (default new_subject o) \/
     exists e, In e events /\ has_subject s e = true /\
               instructor_of e = Some i /\ i <> []) /\
  (forall r, r ∈ sale d <->
     r ∈ sale (default new_subject o) \/
     exists e, In e events /\ has_subject s e = true /\
               room_of e = Some r /\ r <> []).
Proof.
  induction events as [|e events IH]; intros o d; cbn [fold_left].
  - intros ->. cbn [default].
    split; intros x; (split; [auto | intros [? | (e & [] & _)]; done]).
  - intros [I1 I2]%IH. rewrite subject_step_default in I1, I2.
    split; intros x.
    + rewrite I1. clear I1 I2. destruct (has_subject s e) eqn:He.
      * cbn [add_to_subject prowadzący].
        destruct (truthy (instructor_of e)) eqn:Ht.
        -- apply truthy_spec in Ht as (y & Hy & Hne). rewrite Hy. cbn [default id].
           rewrite elem_of_union, elem_of_singleton. split.
           ++ intros [[-> | Hin] | (e' & Hin & ?)]; [|now left|].
              ** right. exists e. split; [now left | done].
              ** right. exists e'. split; [now right | done].
           ++ intros [Hin | (e' & [<- | Hin] & He' & Hi & Hx)]; [left; now right | |].
              ** left. left. congruence.
              ** right. now exists e'.
        -- split.
           ++ intros [Hin | (e' & Hin & ?)]; [now left|].
              right. exists e'. split; [now right | done].
           ++ intros [Hin | (e' & [<- | Hin] & He' & Hi & Hx)]; [now left | |].
              ** exfalso. assert (truthy (instructor_of e) = true) as Ht'
                   by (apply truthy_spec; eauto). congruence.
              ** right. now exists e'.
      * split.
        -- intros [Hin | (e' & Hin & ?)]; [now left|].
           right. exists e'. split; [now right | done].
        -- intros [Hin | (e' & [<- | Hin] & He' & ?)]; [now left | congruence |].
           right. now exists e'.
    + rewrite I2. clear I1 I2. destruct (has_subject s e) eqn:He.
      * cbn [add_to_subject sale].
        destruct (truthy (room_of e)) eqn:Ht.
        -- apply truthy_spec in Ht as (y & Hy & Hne). rewrite Hy. cbn [default id].
           rewrite elem_of_union, elem_of_singleton. split.
           ++ intros [[-> | Hin] | (e' & Hin & ?)]; [|now left|].
              ** right. exists e. split; [now left | done].
              ** right. exists e'. split; [now right | done].
           ++ intros [Hin | (e' & [<- | Hin] & He' & Hi & Hx)]; [left; now right | |].
              ** left. left. congruence.
              ** right. now exists e'.
        -- split.
           ++ intros [Hin | (e' & Hin & ?)]; [now left|].
              right. exists e'. split; [now right | done].
           ++ intros [Hin | (e' & [<- | Hin] & He' & Hi & Hx)]; [now left | |].
              ** exfalso. assert (truthy (room_of e) = true) as Ht'
                   by (apply truthy_spec; eauto). congruence.
              ** right. now exists e'.
      * split.
        -- intros [Hin | (e' & Hin & ?)]; [now left|].
           right. exists e'. split; [now right | done].
        -- intros [Hin | (e' & [<- | Hin] & He' & ?)]; [now left | congruence |].
           right. now exists e'.
Qed.

End SubjectRecords.

Lemma subjects_init_lookup `{Builtins} (events : list (gmap str str)) (s : str) :
  SimpleICSAnalyzer.subjects
    (SimpleICSAnalyzer.process_events SimpleICSAnalyzer.init events) !! s
  = fold_left (subject_step s) events None.
Proof. rewrite process_events_subject. cbn [SimpleICSAnalyzer.init
  SimpleICSAnalyzer.subjects]. now rewrite lookup_empty. Qed.

Lemma count_subject_types `{Builtins} (s : str) (events : list (gmap str str)) :
  (count_if (fun e => has_subject s e && has_type (utf8 "W") e) events
   + count_if (fun e => has_subject s e && has_type (utf8 "L") e) events
   + count_if (fun e => has_subject s e && has_type (utf8 "E-CW") e) events)%Z
  = count_if (has_subject s) events.
Proof.
  induction events as [|e events IH]; [done|].
  rewrite !count_if_cons, <- IH.
  destruct (has_subject s e) eqn:He; cbn [andb]; [|lia].
  pose proof (has_subject_one_type s e He) as H1. unfold Z_of_bool in H1.
  destruct (has_type (utf8 "W") e), (has_type (utf8 "L") e),
    (has_type (utf8 "E-CW") e); lia.
Qed.

(** X10.  After any sequence of calls on a fresh analyzer there is a
    record for a subject exactly when an event parsed with that subject;
    the three counters of the record are the numbers of events of that
    subject parsed with the types W, L and E-CW, and they sum to the
    number of events of that subject. *)
Theorem subject_records_count_events `{Builtins}
    (events : list (gmap str str)) (s : str) :
  let subs := SimpleICSAnalyzer.subjects
                (SimpleICSAnalyzer.process_events SimpleICSAnalyzer.init events) in
  (is_Some (subs !! s) <-> exists e, In e events /\ subject_of e = Some s) /\
  (forall d, subs !! s = Some d ->
     SimpleICSAnalyzer.subject_wykłady d
     = count_if (fun e => has_subject s e && has_type (utf8 "W") e) events /\
     SimpleICSAnalyzer.subject_laboratoria d
     = count_if (fun e => has_subject s e && has_type (utf8 "L") e) events /\
     SimpleICSAnalyzer.subject_e_cw d
     = count_if (fun e => has_subject s e && has_type (utf8 "E-CW") e) events /\
     (SimpleICSAnalyzer.subject_wykłady d + SimpleICSAnalyzer.subject_laboratoria d
      + SimpleICSAnalyzer.subject_e_cw d)%Z = count_if (has_subject s) events).
Proof.
  cbv zeta. rewrite subjects_init_lookup. split.
  - rewrite subject_fold_is_Some. split.
    + intros [[? [=]] | (e & Hin & He%bool_decide_eq_true)]. now exists e.
    + intros (e & Hin & He). right. exists e. split; [done|].
      now apply bool_decide_eq_true.
  - intros d (C1 & C2 & C3)%subject_fold_counters. cbn in C1, C2, C3.
    rewrite <- count_subject_types. repeat split; lia.
Qed.

(** X11.  After any sequence of calls on a fresh analyzer the instructor
    set of a subject's record holds exactly the instructors, not empty,
    that [parse_event_title] returned for the events of that subject, and
    its room set exactly their rooms. *)
Theorem subject_records_collect_names `{Builtins}
    (events : list (gmap str str)) (s : str) (d : SimpleICSAnalyzer.subject_t) :
  SimpleICSAnalyzer.subjects
    (SimpleICSAnalyzer.process_events SimpleICSAnalyzer.init events) !! s = Some d ->
  (forall i, i ∈ SimpleICSAnalyzer.prowadzący d <->
     exists e, In e events /\ subject_of e = Some s /\
               instructor_of e = Some i /\ i <> []) /\
  (forall r, r ∈ SimpleICSAnalyzer.sale d <->
     exists e, In e events /\ subject_of e = Some s /\ room_of e = Some r /\ r <> []).
Proof.
  rewrite subjects_init_lookup. intros [I1 I2]%subject_fold_sets.
  split; intros x; [rewrite I1 | rewrite I2]; cbn [default
    SimpleICSAnalyzer.new_subject SimpleICSAnalyzer.prowadzący SimpleICSAnalyzer.sale];
    (split;
     [ intros [Hin | (e & Hin & He%bool_decide_eq_true & ?)];
       [now apply not_elem_of_empty in Hin | now exists e]
     | intros (e & Hin & He & ?); right; exists e; split; [done|];
       split; [now apply bool_decide_eq_true | done] ]).
Qed.

Lemma subject_records_collect_names_witness :
  (forall i, i ∈ SimpleICSAnalyzer.prowadzący
                   (add_to_subject bazy_event SimpleICSAnalyzer.new_subject) <->
     exists e, In e [bazy_event] /\
               subject_of e = Some (utf8 "Bazy Danych") /\
               instructor_of e = Some i /\ i <> []) /\
  (forall r, r ∈ SimpleICSAnalyzer.sale
                   (add_to_subject bazy_event SimpleICSAnalyzer.new_subject) <->
     exists e, In e [bazy_event] /\
               subject_of e = Some (utf8 "Bazy Danych") /\ room_of e = Some r /\ r <> []).
Proof.
  apply (subject_records_collect_names (H := ascii_builtins) [bazy_event]
           (utf8 "Bazy Danych")).
  rewrite subjects_init_lookup. cbn [fold_left]. unfold subject_step.
  assert (has_subject (utf8 "Bazy Danych") bazy_event = true) as ->
    by (vm_compute; reflexivity).
  reflexivity.
Defined.

(** ** The order of the events *)

Section EventOrder.
Context `{Builtins}.
Import SimpleICSAnalyzer.

Lemma sum_Z_perm {A : Type} (w : A -> Z) (l l' : list A) :
  Permutation l l' -> sum_Z (map w l) = sum_Z (map w l').
Proof.
  unfold sum_Z.
  induction 1 as [|x l l' _ IH|x y l|l l' l'' _ IH1 _ IH2];
    cbn [map fold_right] in *; lia.
Qed.

Lemma add_to_subject_comm (e1 e2 : gmap str str) (d : subject_t) :
  add_to_subject e2 (add_to_subject e1 d) = add_to_subject e1 (add_to_subject e2 d).
Proof.
  unfold add_to_subject. cbn [subject_wykłady subject_laboratoria subject_e_cw
    prowadzący sale].
  f_equal; try lia.
  - destruct (truthy (instructor_of e1)), (truthy (instructor_of e2)); try done.
    apply leibniz_equiv. intros z. rewrite !elem_of_union. tauto.
  - destruct (truthy (room_of e1)), (truthy (room_of e2)); try done.
    apply leibniz_equiv. intros z. rewrite !elem_of_union. tauto.
Qed.

Lemma subject_step_comm (s : str) (o : option subject_t) (e1 e2 : gmap str str) :
  subject_step s (subject_step s o e1) e2 = subject_step s (subject_step s o e2) e1.
Proof.
  unfold subject_step.
  destruct (has_subject s e1), (has_subject s e2); cbn [default]; try done.
  f_equal. apply add_to_subject_comm.
Qed.

Lemma subject_fold_perm (s : str) (l l' : list (gmap str str)) :
  Permutation l l' ->
  forall o, fold_left (subject_step s) l o = fold_left (subject_step s) l' o.
Proof.
  induction 1 as [|x l l' _ IH|x y l|l l' l'' _ IH1 _ IH2]; intros o; cbn [fold_left].
  - done.
  - apply IH.
  - now rewrite subject_step_comm.
  - now rewrite IH1.
Qed.

Lemma stats_ext (x y : stats_t) :
  wykłady x = wykłady y -> laboratoria x = laboratoria y -> e_cw x = e_cw y ->
  inne x = inne y -> total_events x = total_events y -> x = y.
Proof. destruct x, y. cbn. congruence. Qed.

Lemma location_stats_ext (x y : location_stats_t) :
  n_teams x = n_teams y -> n_moodle x = n_moodle y -> n_uczelnia x = n_uczelnia y ->
  n_inne_lokalizacje x = n_inne_lokalizacje y -> x = y.
Proof. destruct x, y. cbn. congruence. Qed.

Lemma time_stats_ext (x y : time_stats_t) :
  total_minutes x = total_minutes y -> wykłady_minutes x = wykłady_minutes y ->
  laboratoria_minutes x = laboratoria_minutes y -> e_cw_minutes x = e_cw_minutes y ->
  uczelnia_minutes x = uczelnia_minutes y -> zdalne_minutes x = zdalne_minutes y ->
  x = y.
Proof. destruct x, y. cbn. congruence. Qed.

(** A counter that every call increases by an amount read from the
    event does not depend on the order of the events. *)
Lemma process_events_sum_perm (f : analyzer -> Z) (w : gmap str str -> Z) :
  (forall self event, f (_process_simple_event self event) = (f self + w event)%Z) ->
  forall events events' self,
    Permutation events events' ->
    f (process_events self events) = f (process_events self events').
Proof.
  intros Hstep events events' self Hp.
  rewrite !(process_events_sum f w Hstep). now rewrite (sum_Z_perm w _ _ Hp).
Qed.

Lemma process_totals_step self event :
  let a := _process_simple_event self event in
  total_events (stats a) = (total_events (stats self) + 1)%Z /\
  inne (stats a) = (inne (stats self) + Z_of_bool (title_unparsed event))%Z /\
  total_minutes (time_stats a) = (total_minutes (time_stats self) + duration_of event)%Z.
Proof.
  cbv zeta. destruct (process_stats_step self event) as [S1 S2].
  destruct (process_time_step self event) as [T1 _].
  repeat split; [done| |done].
  destruct (title_unparsed event); destruct S2 as [-> _]; cbn; lia.
Qed.

End EventOrder.

(** X12.  The statistics do not depend on the order of the events: two
    sequences with the same events in different orders leave a fresh
    analyzer with the same counters, location counters, minute totals and
    subject records; the on-campus schedules hold the same entries, in
    the order of each sequence. *)
Theorem statistics_do_not_depend_on_order `{Builtins}
    (events events' : list (gmap str str)) :
  Permutation events events' ->
  let a := SimpleICSAnalyzer.process_events SimpleICSAnalyzer.init events in
  let b := SimpleICSAnalyzer.process_events SimpleICSAnalyzer.init events' in
  SimpleICSAnalyzer.stats a = SimpleICSAnalyzer.stats b /\
  SimpleICSAnalyzer.location_stats a = SimpleICSAnalyzer.location_stats b /\
  SimpleICSAnalyzer.time_stats a = SimpleICSAnalyzer.time_stats b /\
  SimpleICSAnalyzer.subjects a = SimpleICSAnalyzer.subjects b /\
  Permutation (SimpleICSAnalyzer.uczelnia_schedule a)
              (SimpleICSAnalyzer.uczelnia_schedule b).
Proof.
  intros Hp. cbv zeta.
  assert (forall (f : SimpleICSAnalyzer.analyzer -> Z) w,
    (forall self event,
       f (SimpleICSAnalyzer._process_simple_event self event) = (f self + w event)%Z) ->
    f (SimpleICSAnalyzer.process_events SimpleICSAnalyzer.init events)
    = f (SimpleICSAnalyzer.process_events SimpleICSAnalyzer.init events')) as Hsum.
  { intros f w Hstep. now apply (process_events_sum_perm f w Hstep). }
  split; [|split; [|split; [|split]]].
  - apply stats_ext;
      match goal with |- ?f (?g _) = _ =>
        apply (Hsum (fun a => f (g a)) _
                 (fun self event => ltac:(first
                    [ apply (process_type_step self event)
                    | apply (process_totals_step self event) ])))
      end.
  - apply location_stats_ext;
      match goal with |- ?f (?g _) = _ =>
        apply (Hsum (fun a => f (g a)) _
                 (fun self event => ltac:(apply (process_location_step self event))))
      end.
  - apply time_stats_ext;
      match goal with |- ?f (?g _) = _ =>
        apply (Hsum (fun a => f (g a)) _
                 (fun self event => ltac:(first
                    [ apply (process_type_step self event)
                    | apply (process_location_step self event)
                    | apply (process_totals_step self event) ])))
      end.
  - apply map_eq. intros s. rewrite !subjects_init_lookup.
    now apply subject_fold_perm.
  - rewrite !process_events_schedule. cbn [SimpleICSAnalyzer.init
      SimpleICSAnalyzer.uczelnia_schedule app].
    now rewrite Hp.
Qed.

Lemma statistics_do_not_depend_on_order_witness :
  let a := SimpleICSAnalyzer.process_events (H := ascii_builtins)
             SimpleICSAnalyzer.init [bazy_event; losowy_timed_event] in
  let b := SimpleICSAnalyzer.process_events (H := ascii_builtins)
             SimpleICSAnalyzer.init [losowy_timed_event; bazy_event] in
  SimpleICSAnalyzer.stats a = SimpleICSAnalyzer.stats b /\
  SimpleICSAnalyzer.location_stats a = SimpleICSAnalyzer.location_stats b /\
  SimpleICSAnalyzer.time_stats a = SimpleICSAnalyzer.time_stats b /\
  SimpleICSAnalyzer.subjects a = SimpleICSAnalyzer.subjects b /\
  Permutation (SimpleICSAnalyzer.uczelnia_schedule a)
              (SimpleICSAnalyzer.uczelnia_schedule b).
Proof.
  apply (statistics_do_not_depend_on_order (H := ascii_builtins)).
  apply perm_swap.
Defined.

(** ** [ICSAnalyzer._process_event] *)

Section IcsCounters.
Context `{Builtins} {calendar : ICSAnalyzer.Icalendar}.
Import SimpleICSAnalyzer (location, teams, moodle, uczelnia, inne_lokalizacje,
  n_teams, n_moodle, n_uczelnia, n_inne_lokalizacje).

(** When the duration block raises nothing, it has added the duration of
    the event. *)
Lemma add_duration_value total event total' :
  ICSAnalyzer.add_duration total (ICSAnalyzer.dtstart event) (ICSAnalyzer.dtend event)
  = inr total' ->
  total' = (total + ics_duration event)%Z.
Proof.
  unfold ICSAnalyzer.add_duration, ics_duration, ICSAnalyzer.timedelta in *.
  destruct (ICSAnalyzer.dtstart event) as [start|], (ICSAnalyzer.dtend event) as [end_|];
    [|intros [= <-]; lia..].
  destruct (_ && _); [|intros [= <-]; lia].
  unfold mbind, ICSAnalyzer.exn_bind.
  destruct (ICSAnalyzer.dt start) as [e|x]; [done|].
  destruct (ICSAnalyzer.has_replace x), (ICSAnalyzer.dt end_) as [e|y];
    try done; try (intros [= <-]; lia).
  destruct (ICSAnalyzer.subtract y x) as [e|d]; [done|].
  unfold ICSAnalyzer.timedelta_add.
  destruct (ICSAnalyzer.timedelta_in_range _); [|done]. now intros [= <-].
Qed.

Lemma ics_process_location_step self event a :
  ICSAnalyzer._process_event self event = ICSAnalyzer.Returned a ->
  (n_teams (ICSAnalyzer.location_stats a)
   = n_teams (ICSAnalyzer.location_stats self) + Z_of_bool (ics_located teams event) /\
   n_moodle (ICSAnalyzer.location_stats a)
   = n_moodle (ICSAnalyzer.location_stats self) + Z_of_bool (ics_located moodle event) /\
   n_uczelnia (ICSAnalyzer.location_stats a)
   = n_uczelnia (ICSAnalyzer.location_stats self)
     + Z_of_bool (ics_located uczelnia event) /\
   n_inne_lokalizacje (ICSAnalyzer.location_stats a)
   = n_inne_lokalizacje (ICSAnalyzer.location_stats self)
     + Z_of_bool (ics_located inne_lokalizacje event))%Z /\
  ICSAnalyzer.total_duration a
  = (ICSAnalyzer.total_duration self + ics_duration event)%Z.
Proof.
  intros Ha. split; [|exact (add_duration_value _ _ _ (ics_process_returned _ _ _ Ha))].
  revert Ha.
  unfold ics_located, ics_title_unparsed, ICSAnalyzer._process_event.
  cbv zeta.
  destruct (ICSAnalyzer.add_duration _ _ _) as [e'|total]; [done|].
  destruct (ics_parse_cases (ICSAnalyzer.summary event))
    as [Hu | (sj & ty & i & r & Hp & Hsj & Hty)].
  - rewrite Hu. cbn. intros [= <-]. cbn. repeat split; lia.
  - rewrite Hp. destruct sj as [|x sj]; [done|].
    by_type Hty; intros [= <-]; destruct (ICSAnalyzer.categorize_location r); cbn;
      repeat split; lia.
Qed.

Lemma ics_located_partition (event : ICSAnalyzer.vevent) :
  (Z_of_bool (ics_located teams event) + Z_of_bool (ics_located moodle event)
   + Z_of_bool (ics_located uczelnia event)
   + Z_of_bool (ics_located inne_lokalizacje event))%Z
  = Z_of_bool (negb (ics_title_unparsed event)).
Proof.
  unfold ics_located. destruct (ics_title_unparsed event); [done|].
  now destruct (ICSAnalyzer.categorize_location _).
Qed.

Lemma ics_returned_counts events a :
  ICSAnalyzer.process_events ICSAnalyzer.init events = ICSAnalyzer.Returned a ->
  ics_counts a events.
Proof.
  intros Ha. unfold ics_counts. cbv zeta.
  assert (n_teams (ICSAnalyzer.location_stats a) = count_if (ics_located teams) events /\
          n_moodle (ICSAnalyzer.location_stats a)
          = count_if (ics_located moodle) events /\
          n_uczelnia (ICSAnalyzer.location_stats a)
          = count_if (ics_located uczelnia) events /\
          n_inne_lokalizacje (ICSAnalyzer.location_stats a)
          = count_if (ics_located inne_lokalizacje) events) as Hn.
  { rewrite <- !sum_count_if.
    repeat split;
      match goal with |- ?f (?g a) = _ =>
        rewrite (ics_process_events_sum (fun a => f (g a)) _
                   (fun self event b Hb =>
                      ltac:(apply (ics_process_location_step self event b Hb)))
                   _ _ _ Ha)
      end; reflexivity. }
  split; [exact Hn|]. split.
  - destruct Hn as (-> & -> & -> & ->). clear.
    induction events as [|e events IH]; [done|].
    rewrite !count_if_cons, <- IH.
    pose proof (ics_located_partition e) as Hp. unfold Z_of_bool in Hp.
    destruct (ics_located teams e), (ics_located moodle e), (ics_located uczelnia e),
      (ics_located inne_lokalizacje e), (ics_title_unparsed e); cbn [negb] in *; lia.
  - rewrite (ics_process_events_sum ICSAnalyzer.total_duration ics_duration
               (fun self event b Hb => proj2 (ics_process_location_step self event b Hb))
               _ _ _ Ha).
    reflexivity.
Qed.

End IcsCounters.

(** X13.  When every call of [ICSAnalyzer._process_event] on a sequence
    of events returns, then on a fresh analyzer each location counter is
    the number of events whose title parsed and whose room is of that
    category, the four counters sum to the number of parsed events, and
    the total duration is the sum of [dtend.dt - dtstart.dt] over the
    events of which the method takes this difference, whether or not
    their title parsed.  When a call raises, the location counters and
    the total duration are those of the events before it. *)
Theorem ics_location_counters_and_duration `{Builtins} {calendar : ICSAnalyzer.Icalendar}
    (events : list ICSAnalyzer.vevent) :
  match ICSAnalyzer.process_events ICSAnalyzer.init events with
  | ICSAnalyzer.Returned a => ics_counts a events
  | ICSAnalyzer.Raised e a =>
    exists done event rest,
      events = done ++ event :: rest /\
      ICSAnalyzer.add_duration (ICSAnalyzer.total_duration a)
        (ICSAnalyzer.dtstart event) (ICSAnalyzer.dtend event) = inl e /\
      ics_counts a done
  end.
Proof.
  destruct (ICSAnalyzer.process_events ICSAnalyzer.init events) as [a|e a] eqn:Ha.
  - now apply ics_returned_counts.
  - apply ics_raised_split in Ha as (done & event & rest & c & -> & Hdone & Hraise).
    destruct (ics_process_raised _ _ _ _ Hraise) as (R0 & _ & _ & _ & R1 & _ & R2).
    exists done, event, rest. split; [done|]. split; [now rewrite R2|].
    apply ics_returned_counts in Hdone. unfold ics_counts in *. cbv zeta in *.
    now rewrite R1, R2.
Qed.

(** ** [_extract_events] *)

Section SplitLines.

Lemma split_char_cons (sep : cp) (s : str) :
  exists piece pieces, split_char sep s = piece :: pieces.
Proof.
  induction s as [|c s (piece & pieces & IH)]; cbn [split_char]; [eauto|].
  destruct (c =? sep); [eauto|]. rewrite IH. eauto.
Qed.

(** Splitting the lines joined by line ends gives the lines back. *)
Lemma split_join_lines (line : str) (lines : list str) :
  Forall (fun l => lacks 10 l) (line :: lines) ->
  split_char 10 (join_lines (line :: lines)) = line :: lines.
Proof.
  revert line. induction lines as [|line' lines IH]; intros line Hall.
  - cbn [join_lines]. apply Forall_inv in Hall. apply lacks_In in Hall.
    induction line as [|c line IHl]; [done|]. cbn [split_char].
    destruct (N.eqb_spec c 10) as [-> | _]; [exfalso; apply Hall; now left|].
    rewrite IHl; [done|]. intros Hin. apply Hall. now right.
  - change (join_lines (line :: line' :: lines))
      with (line ++ 10 :: join_lines (line' :: lines)).
    pose proof (Forall_inv Hall) as Hl. apply lacks_In in Hl.
    apply Forall_inv_tail in Hall. specialize (IH line' Hall).
    induction line as [|c line IHl].
    + cbn [app split_char]. now rewrite N.eqb_refl, IH.
    + cbn [app split_char].
      destruct (N.eqb_spec c 10) as [-> | _]; [exfalso; apply Hl; now left|].
      rewrite IHl; [done|]. intros Hin. apply Hl. now right.
Qed.

(** [line.split(':', 1)] on a line with a colon: the text before the
    first colon and the text after it. *)
Lemma split_char_1_colon (line : str) :
  contains (utf8 ":") line = true ->
  exists key value,
    split_char_1 58 line = [key; value] /\ line = key ++ 58 :: value /\ lacks 58 key.
Proof.
  change (utf8 ":") with [58].
  induction line as [|c line IH]; [done|]. intros Hc. cbn [split_char_1].
  destruct (N.eqb_spec c 58) as [-> | Hne].
  - now exists [], line.
  - destruct IH as (key & value & -> & -> & Hk).
    { cbn [contains startswith] in Hc.
      destruct (N.eqb_spec 58 c) as [<- | _]; [done|]. exact Hc. }
    exists (c :: key), value. repeat split.
    apply In_lacks. intros [-> | Hin]; [done|]. now apply (lacks_In 58 key).
Qed.

Lemma split_char_1_property (key value : str) :
  lacks 58 key -> split_char_1 58 (key ++ 58 :: value) = [key; value].
Proof.
  intros Hk%lacks_In. induction key as [|c key IH]; cbn [app split_char_1].
  - now rewrite N.eqb_refl.
  - destruct (N.eqb_spec c 58) as [-> | _]; [exfalso; apply Hk; now left|].
    rewrite IH; [done|]. intros Hin. apply Hk. now right.
Qed.

End SplitLines.

Section ExtractEvents.
Import SimpleICSAnalyzer.

Lemma split_char_lacks (sep : cp) (s : str) :
  Forall (fun piece => lacks sep piece) (split_char sep s).
Proof.
  induction s as [|c s IH]; cbn [split_char]; [repeat constructor|].
  destruct (N.eqb_spec c sep) as [-> | Hne]; [now constructor|].
  destruct (split_char sep s) as [|piece pieces]; [repeat constructor|].
  - apply In_lacks. intros [-> | []]. done.
  - inversion IH as [|? ? Hp Hps]; subst. constructor; [|done].
    apply In_lacks. intros [-> | Hin]; [done|]. now apply (lacks_In sep piece).
Qed.

(** A stripped line is empty or begins and ends with a character that is
    no white space, and it has no line end when the line has none. *)
Lemma strip_ends (line : str) :
  strip line = [] \/ (nonspace_hd (strip line) /\ nonspace_last (strip line)).
Proof.
  destruct (strip line) as [|c l] eqn:Hs; [now left|]. right. rewrite <- Hs.
  destruct (strip_split line) as (l' & r & _ & _ & _ & Hh & Ht); [now rewrite Hs|].
  done.
Qed.

Lemma strip_lacks (c : cp) (line : str) : lacks c line -> lacks c (strip line).
Proof.
  intros Hl. destruct (strip line) as [|x l] eqn:Hs; [done|]. rewrite <- Hs.
  destruct (strip_split line) as (l' & r & Heq & _); [now rewrite Hs|].
  rewrite Heq in Hl. now apply lacks_inside in Hl.
Qed.

Lemma rstrip_nonspace (v : str) : v = [] \/ nonspace_last v -> rstrip v = v.
Proof.
  unfold rstrip. intros [-> | Hl]; [done|].
  rewrite lstrip_nonspace by exact Hl. apply rev_involutive.
Qed.

Lemma lstrip_hd (k : str) : k = [] \/ nonspace_hd k -> lstrip k = k.
Proof. intros [-> | Hh]; [done | now apply lstrip_nonspace]. Qed.

(** The key and the value cut from a stripped line. *)
Lemma property_of_line (line key value : str) :
  lacks 10 line -> strip line = key ++ 58 :: value -> lacks 58 key ->
  contains (utf8 ":") key = false /\
  contains [10] key = false /\ contains [10] value = false /\
  lstrip key = key /\ rstrip value = value.
Proof.
  intros Hl Heq Hk. apply (strip_lacks 10) in Hl. rewrite Heq in Hl.
  apply lacks_app in Hl as [Hl1 Hl2].
  change (58 :: value) with ([58] ++ value) in Hl2. apply lacks_app in Hl2 as [_ Hl2].
  split; [exact Hk|]. split; [exact Hl1|]. split; [exact Hl2|].
  destruct (strip_ends line) as [Hnil | [Hh Ht]].
  { rewrite Heq in Hnil. now destruct key. }
  rewrite Heq in Hh, Ht. split.
  - apply lstrip_hd. destruct key as [|c key]; [now left | now right].
  - apply rstrip_nonspace. destruct value as [|c value]; [now left|]. right.
    change (key ++ 58 :: c :: value) with (key ++ [58] ++ (c :: value)) in Ht.
    rewrite app_assoc in Ht. now apply nonspace_last_suffix in Ht.
Qed.

(** One line: the step never fails, keeps the events and the current
    dictionary well formed, and appends at most one event, only at an
    [END:VEVENT] line. *)
Lemma extract_line_ok (st : extract_state) (line : str) :
  lacks 10 line ->
  Forall event_ok (events st) -> keys_ok (current_event st) ->
  exists st', extract_line st line = Some st' /\
    Forall event_ok (events st') /\ keys_ok (current_event st') /\
    (length (events st') <= length (events st) + (if is_end line then 1 else 0))%nat.
Proof.
  intros Hl Hev Hcur. unfold extract_line, is_end. cbv zeta.
  destruct (bool_decide (strip line = utf8 "BEGIN:VEVENT")) eqn:Hb.
  { eexists. split; [reflexivity|]. cbn [events current_event].
    split; [done|]. split; [|lia]. intros k v. now rewrite lookup_empty. }
  destruct (bool_decide (strip line = utf8 "END:VEVENT")) eqn:He.
  { eexists. split; [reflexivity|]. cbn [events current_event].
    split; [|split; [done|]].
    - destruct (bool_decide (current_event st = ∅)) eqn:Hc; cbn [negb]; [done|].
      apply bool_decide_eq_false in Hc.
      apply Forall_app. split; [done|].
      constructor; [split; [exact Hc | exact Hcur] | constructor].
    - destruct (negb _); rewrite ?length_app; cbn [length]; lia. }
  destruct (in_event st && contains (utf8 ":") (strip line)) eqn:Hin.
  - apply andb_true_iff in Hin as [_ Hc].
    destruct (split_char_1_colon _ Hc) as (key & value & -> & Heq & Hk).
    eexists. split; [reflexivity|]. cbn [events current_event].
    split; [done|]. split; [|lia].
    intros k v Hkv. destruct (decide (key = k)) as [<- | Hne].
    + rewrite lookup_insert_eq in Hkv. injection Hkv as <-.
      now apply (property_of_line line).
    + rewrite lookup_insert_ne in Hkv by done. now apply Hcur.
  - exists st. split; [done|]. split; [done|]. split; [done|]. lia.
Qed.

Lemma extract_lines_ok (lines : list str) : forall st,
  Forall (fun l => lacks 10 l) lines ->
  Forall event_ok (events st) -> keys_ok (current_event st) ->
  exists st', extract_lines st lines = Some st' /\
    Forall event_ok (events st') /\
    (Z.of_nat (length (events st'))
     <= Z.of_nat (length (events st)) + count_if is_end lines)%Z.
Proof.
  induction lines as [|line lines IH]; intros st Hall Hev Hcur.
  - exists st. repeat split; [done|]. unfold count_if. cbn. lia.
  - inversion Hall as [|? ? Hl Hls]; subst.
    destruct (extract_line_ok st line Hl Hev Hcur) as (st1 & E1 & Hev1 & Hcur1 & Hn1).
    destruct (IH st1 Hls Hev1 Hcur1) as (st' & E' & Hev' & Hn').
    exists st'. cbn [extract_lines]. rewrite E1. split; [exact E'|]. split; [done|].
    rewrite count_if_cons. destruct (is_end line); lia.
Qed.

End ExtractEvents.

(** X14.  [_extract_events] never fails: the unpacking of
    [line.split(':', 1)] is only reached for a line with a colon.  It
    returns at most one event for each line that is [END:VEVENT] when
    stripped. *)
Theorem extract_events_total (content : str) :
  exists events,
    SimpleICSAnalyzer._extract_events content = Some events /\
    (Z.of_nat (length events)
     <= count_if (fun line => bool_decide (strip line = utf8 "END:VEVENT"))
          (split_char 10%N content))%Z.
Proof.
  unfold SimpleICSAnalyzer._extract_events. cbv zeta.
  destruct (extract_lines_ok (split_char 10 content)
              {| SimpleICSAnalyzer.events := []; SimpleICSAnalyzer.current_event := ∅;
                 SimpleICSAnalyzer.in_event := false |})
    as (st' & -> & _ & Hn).
  - apply split_char_lacks.
  - constructor.
  - intros k v. cbn. now rewrite lookup_empty.
  - exists (SimpleICSAnalyzer.events st'). split; [done|]. cbn in Hn. exact Hn.
Qed.

(** X15.  Every event that [_extract_events] returns has at least one
    property; none of its keys has a colon; its keys and values have no
    line end, its keys no white space in front and its values none at the
    end (so no carriage return is left from a line that ends in CR LF). *)
Theorem extracted_events_well_formed (content : str) (events : list (gmap str str)) :
  SimpleICSAnalyzer._extract_events content = Some events ->
  Forall event_ok events.
Proof.
  unfold SimpleICSAnalyzer._extract_events. cbv zeta.
  destruct (extract_lines_ok (split_char 10 content)
              {| SimpleICSAnalyzer.events := []; SimpleICSAnalyzer.current_event := ∅;
                 SimpleICSAnalyzer.in_event := false |})
    as (st' & -> & Hev & _).
  - apply split_char_lacks.
  - constructor.
  - intros k v. cbn. now rewrite lookup_empty.
  - now intros [= <-].
Qed.

Section Calendars.
Import SimpleICSAnalyzer.

Lemma extract_lines_app (l1 l2 : list str) : forall st,
  extract_lines st (l1 ++ l2)
  = match extract_lines st l1 with
    | Some st' => extract_lines st' l2
    | None => None
    end.
Proof.
  induction l1 as [|line l1 IH]; intros st; cbn [app extract_lines]; [done|].
  destruct (extract_line st line); [apply IH | done].
Qed.

Lemma extract_line_strip (st : extract_state) (line : str) :
  extract_line st (strip line) = extract_line st line.
Proof. unfold extract_line. cbv zeta. now rewrite strip_idem. Qed.

Lemma extract_lines_strip (lines : list str) : forall st,
  extract_lines st (map strip lines) = extract_lines st lines.
Proof.
  induction lines as [|line lines IH]; intros st; cbn [map extract_lines]; [done|].
  rewrite extract_line_strip. destruct (extract_line st line); [apply IH | done].
Qed.

Lemma is_marker_false (line : str) :
  is_marker line = false ->
  bool_decide (line = utf8 "BEGIN:VEVENT") = false /\
  bool_decide (line = utf8 "END:VEVENT") = false.
Proof. unfold is_marker. now intros [? ?]%orb_false_iff. Qed.

(** Outside an event, a line that is no marker changes nothing. *)
Lemma extract_outer (lines : list str) (st : extract_state) :
  in_event st = false ->
  Forall (fun l => strip l = l) lines ->
  forallb (fun l => negb (is_marker l)) lines = true ->
  extract_lines st lines = Some st.
Proof.
  intros Hin. induction lines as [|line lines IH]; [done|].
  intros Hs Hm. inversion Hs as [|? ? Hl Hls]; subst.
  cbn [forallb] in Hm. apply andb_true_iff in Hm as [Hm Hms].
  apply negb_true_iff, is_marker_false in Hm as [Hb He].
  cbn [extract_lines]. unfold extract_line. cbv zeta.
  rewrite Hl, Hb, He, Hin. cbn [andb]. now apply IH.
Qed.

(** Inside an event, the property lines are put in the dictionary. *)
Lemma extract_properties (props : list (str * str)) : forall st,
  in_event st = true ->
  Forall (fun l => strip l = l) (map property_line props) ->
  forallb property_ok props = true ->
  extract_lines st (map property_line props)
  = Some {| events := events st;
            current_event := fold_left (fun m kv => <[kv.1 := kv.2]> m) props
                               (current_event st);
            in_event := true |}.
Proof.
  induction props as [|[k v] props IH]; intros st Hin Hs Hok.
  - cbn. destruct st. cbn in Hin. now subst.
  - cbn [map] in Hs. inversion Hs as [|? ? Hl Hls]; subst.
    cbn [forallb] in Hok. apply andb_true_iff in Hok as [Hkv Hok].
    unfold property_ok in Hkv. apply andb_true_iff in Hkv as [Hk Hm].
    apply negb_true_iff in Hk. cbn [fst snd] in Hk.
    apply negb_true_iff, is_marker_false in Hm as [Hb He].
    cbn [map extract_lines fold_left]. unfold extract_line. cbv zeta.
    rewrite Hl, Hb, He.
    assert (contains (utf8 ":") (property_line (k, v)) = true) as ->.
    { apply contains_spec. exists k, v. reflexivity. }
    destruct st as [evs cur ine]. cbn [in_event events current_event] in *. subst ine.
    cbn [andb]. unfold property_line at 1. cbn [fst snd].
    change (utf8 ":" ++ v) with (58 :: v).
    rewrite split_char_1_property by exact Hk.
    rewrite IH; [done | done | exact Hls | exact Hok].
Qed.

Lemma fold_insert_nonempty (props : list (str * str)) : forall m : gmap str str,
  m <> ∅ \/ props <> [] ->
  fold_left (fun m kv => <[kv.1 := kv.2]> m) props m <> ∅.
Proof.
  induction props as [|[k v] props IH]; intros m Hne; cbn [fold_left].
  - now destruct Hne.
  - apply IH. left. apply insert_non_empty.
Qed.

(** The lines of one event add its dictionary to the events. *)
Lemma extract_event (props : list (str * str)) (st : extract_state) :
  Forall (fun l => strip l = l) (map property_line props) ->
  props <> [] -> forallb property_ok props = true ->
  extract_lines st (event_lines props)
  = Some {| events := events st ++ [event_dict props];
            current_event := event_dict props;
            in_event := false |}.
Proof.
  intros Hs Hne Hok. unfold event_lines.
  cbn [extract_lines]. unfold extract_line at 1. cbv zeta.
  change (strip (utf8 "BEGIN:VEVENT")) with (utf8 "BEGIN:VEVENT").
  change (bool_decide (utf8 "BEGIN:VEVENT" = utf8 "BEGIN:VEVENT")) with true.
  cbv iota.
  rewrite extract_lines_app, extract_properties by done.
  cbn [events current_event in_event].
  fold (event_dict props).
  cbn [extract_lines]. unfold extract_line. cbv zeta.
  change (strip (utf8 "END:VEVENT")) with (utf8 "END:VEVENT").
  change (bool_decide (utf8 "END:VEVENT" = utf8 "BEGIN:VEVENT")) with false.
  change (bool_decide (utf8 "END:VEVENT" = utf8 "END:VEVENT")) with true.
  cbv iota. cbn [events current_event].
  rewrite bool_decide_eq_false_2; [done|].
  apply fold_insert_nonempty. now right.
Qed.

Lemma extract_parts (parts : list (list str * list (str * str))) : forall st,
  in_event st = false ->
  Forall (fun l => strip l = l)
    (concat (map (fun part => part.1 ++ event_lines part.2) parts)) ->
  forallb part_ok parts = true ->
  exists cur,
    extract_lines st (concat (map (fun part => part.1 ++ event_lines part.2) parts))
    = Some {| events := events st ++ map (fun part => event_dict part.2) parts;
              current_event := cur; in_event := false |}.
Proof.
  induction parts as [|[outer props] parts IH]; intros st Hin Hs Hok.
  - exists (current_event st). cbn. rewrite app_nil_r. destruct st. cbn in Hin.
    now subst.
  - cbn [map concat fst snd] in *.
    apply Forall_app in Hs as [Hs Hrest]. apply Forall_app in Hs as [Ho He].
    cbn [forallb] in Hok. apply andb_true_iff in Hok as [Hp Hok].
    unfold part_ok in Hp. cbn [fst snd] in Hp.
    apply andb_true_iff in Hp as [Hp Hprops]. apply andb_true_iff in Hp as [Houter Hne].
    apply negb_true_iff, bool_decide_eq_false in Hne.
    rewrite extract_lines_app, extract_lines_app.
    rewrite (extract_outer outer st Hin Ho Houter).
    rewrite extract_event; [| |done..].
    + destruct (IH {| events := events st ++ [event_dict props];
                      current_event := event_dict props; in_event := false |})
        as (cur & ->); [done..|].
      exists cur. cbn [events]. now rewrite <- app_assoc.
    + unfold event_lines in He. inversion He as [|? ? _ He']; subst.
      now apply Forall_app in He' as [? _].
Qed.

End Calendars.

(** X16.  [_extract_events] reads a calendar back: when the stripped
    lines of a text are the lines of a calendar (events, each opened by
    [BEGIN:VEVENT], closed by [END:VEVENT] and holding at least one
    property line with a key without colon, between lines that are no
    markers), the result is the list of the dictionaries of the events, in
    order; in each dictionary a later line with the same key replaces the
    earlier one, and a value keeps its colons. *)
Theorem extract_events_of_calendar (raw : list str)
    (parts : list (list str * list (str * str))) (trailer : list str) :
  forallb (fun line => negb (contains [10] line)) raw = true ->
  map strip raw = calendar_lines parts trailer ->
  forallb part_ok parts = true ->
  forallb (fun line => negb (is_marker line)) trailer = true ->
  SimpleICSAnalyzer._extract_events (join_lines raw)
  = Some (map (fun part => event_dict part.2) parts).
Proof.
  intros Hraw Heq Hparts Htrailer.
  assert (Forall (fun l => strip l = l) (calendar_lines parts trailer)) as Hs.
  { rewrite <- Heq. apply List.Forall_forall. intros l (r & <- & _)%in_map_iff.
    apply strip_idem. }
  unfold calendar_lines in Hs, Heq. apply Forall_app in Hs as [Hs1 Hs2].
  unfold SimpleICSAnalyzer._extract_events. cbv zeta.
  destruct raw as [|line raw].
  - symmetry in Heq. apply app_eq_nil in Heq as [Hc ->].
    destruct parts as [|[outer props] parts]; [reflexivity|].
    cbn [map concat fst snd] in Hc. apply app_eq_nil in Hc as [Hc _].
    apply app_eq_nil in Hc as [_ Hc]. discriminate Hc.
  - rewrite split_join_lines.
    + rewrite <- extract_lines_strip, Heq, extract_lines_app.
      destruct (extract_parts parts
                  {| SimpleICSAnalyzer.events := [];
                     SimpleICSAnalyzer.current_event := ∅;
                     SimpleICSAnalyzer.in_event := false |}) as (cur & ->); [done..|].
      now rewrite extract_outer.
    + apply List.Forall_forall. intros l Hin.
      rewrite forallb_forall in Hraw. apply Hraw in Hin.
      now apply negb_true_iff in Hin.
Qed.

Lemma extract_events_of_calendar_witness :
  SimpleICSAnalyzer._extract_events (join_lines sample_raw_lines)
  = Some [event_dict sample_props].
Proof.
  apply (extract_events_of_calendar sample_raw_lines
           [([utf8 "BEGIN:VCALENDAR"; utf8 "VERSION:2.0"], sample_props)]
           [utf8 "END:VCALENDAR"; []]); vm_compute; reflexivity.
Defined.

Lemma extracted_events_well_formed_witness : Forall event_ok [event_dict sample_props].
Proof.
  apply (extracted_events_well_formed (join_lines sample_raw_lines)).
  vm_compute. reflexivity.
Defined.

(** ** [analyze_ics_file] and the keys of an event *)

(** X17.  [analyze_ics_file] never fails on the text of a file; it counts
    one event for each dictionary that [_extract_events] returns, so at
    most one for each [END:VEVENT] line, and every one of them is counted
    under one of the three types or as unparsed. *)
Theorem analyze_counts_extracted_events `{Builtins} (content : str) :
  exists events a,
    SimpleICSAnalyzer._extract_events content = Some events /\
    SimpleICSAnalyzer.analyze_ics_file SimpleICSAnalyzer.init content = Some a /\
    SimpleICSAnalyzer.total_events (SimpleICSAnalyzer.stats a)
    = Z.of_nat (length events) /\
    (SimpleICSAnalyzer.total_events (SimpleICSAnalyzer.stats a)
     <= count_if is_end (split_char 10%N content))%Z /\
    (typed_events (SimpleICSAnalyzer.stats a)
     + SimpleICSAnalyzer.inne (SimpleICSAnalyzer.stats a))%Z
    = SimpleICSAnalyzer.total_events (SimpleICSAnalyzer.stats a).
Proof.
  unfold SimpleICSAnalyzer.analyze_ics_file, SimpleICSAnalyzer._extract_events.
  cbv zeta.
  destruct (extract_lines_ok (split_char 10 content)
              {| SimpleICSAnalyzer.events := []; SimpleICSAnalyzer.current_event := ∅;
                 SimpleICSAnalyzer.in_event := false |})
    as (st' & -> & _ & Hn).
  - apply split_char_lacks.
  - constructor.
  - intros k v. cbn. now rewrite lookup_empty.
  - exists (SimpleICSAnalyzer.events st'). eexists. split; [reflexivity|].
    split; [reflexivity|].
    destruct (process_events_stats (SimpleICSAnalyzer.events st') SimpleICSAnalyzer.init)
      as (A1 & A2 & A3).
    unfold typed_events in *. cbn in A1, A2, A3, Hn. rewrite A1.
    assert (forall l : list (gmap str str),
      (count_if (fun e => negb (title_unparsed e)) l + count_if title_unparsed l)%Z
      = Z.of_nat (length l)) as Hsplit.
    { intros l. induction l as [|x l IH]; [done|].
      rewrite !count_if_cons. cbn [length]. destruct (title_unparsed x); cbn [negb]; lia. }
    pose proof (Hsplit (SimpleICSAnalyzer.events st')).
    repeat split; lia.
Qed.

Section MissingKeys.
Context `{Builtins}.
Import SimpleICSAnalyzer.

Lemma duration_empty_start (end_time : str) : _calculate_duration_minutes [] end_time = 0%Z.
Proof. reflexivity. Qed.

End MissingKeys.

(** X18.  An event that has neither the key [DTSTART;TZID=Europe/Warsaw]
    nor the key [DTSTART] (its start is written with another parameter,
    or is missing) has the duration 0 whatever its end, and it gets no
    entry in the on-campus schedule, also when its room is on campus. *)
Theorem event_without_start_key `{Builtins} (event : gmap str str) :
  event !! utf8 "DTSTART;TZID=Europe/Warsaw" = None ->
  event !! utf8 "DTSTART" = None ->
  duration_of event = 0%Z /\ on_campus_entry event = None.
Proof.
  intros H1 H2.
  assert (start_of event = []) as Hs.
  { unfold start_of, SimpleICSAnalyzer.get. now rewrite H1, H2. }
  split.
  - unfold duration_of. rewrite Hs. apply duration_empty_start.
  - unfold on_campus_entry. rewrite Hs.
    destruct (SimpleICSAnalyzer.parse_event_title (title_of event)) as [[[sj ty] i] r].
    cbn [truthy]. now rewrite andb_false_r.
Qed.

Lemma event_without_start_key_witness :
  duration_of (H := ascii_builtins) berlin_event = 0%Z /\
  on_campus_entry (H := ascii_builtins) berlin_event = None.
Proof.
  apply (event_without_start_key (H := ascii_builtins) berlin_event);
    vm_compute; reflexivity.
Defined.

(** ** [_minutes_to_hours_str] *)

Example minutes_to_hours_str_examples :
  SimpleICSAnalyzer._minutes_to_hours_str 75 = utf8 "1h 15min" /\
  SimpleICSAnalyzer._minutes_to_hours_str 120 = utf8 "2h" /\
  SimpleICSAnalyzer._minutes_to_hours_str 0 = utf8 "0h" /\
  SimpleICSAnalyzer._minutes_to_hours_str (-90) = utf8 "-2h 30min".
Proof. repeat split; vm_compute; reflexivity. Qed.

Section IntegerTexts.

Lemma chars_of_inj (s s' : string) : chars_of s = chars_of s' -> s = s'.
Proof.
  unfold chars_of. intros Heq.
  rewrite <- (string_of_list_ascii_of_string s), <- (string_of_list_ascii_of_string s').
  f_equal. revert Heq. generalize (list_ascii_of_string s) (list_ascii_of_string s').
  induction l as [|a l IH]; intros [|a' l']; cbn [map]; try done.
  intros [= Ha Hl]. f_equal; [|now apply IH].
  rewrite <- (ascii_N_embedding a), <- (ascii_N_embedding a'). now rewrite Ha.
Qed.

Lemma uint_chars_digits (d : Decimal.uint) (c : cp) :
  In c (chars_of (DecimalString.NilEmpty.string_of_uint d)) -> ascii_isdigit c = true.
Proof.
  induction d as [|d IH|d IH|d IH|d IH|d IH|d IH|d IH|d IH|d IH|d IH];
    cbn; try done; (intros [<- | Hin]; [reflexivity | now apply IH]).
Qed.

(** The text of an integer holds digits and, in front, a minus sign at
    most: no letter and no blank. *)
Lemma str_of_int_chars (n : Z) (c : cp) :
  In c (str_of_int n) -> c = 45 \/ ascii_isdigit c = true.
Proof.
  unfold str_of_int. fold (chars_of (DecimalString.NilZero.string_of_int (Z.to_int n))).
  assert (forall d c, In c (chars_of (DecimalString.NilZero.string_of_uint d)) ->
                      ascii_isdigit c = true) as Hu.
  { intros d c'. destruct d; try apply uint_chars_digits.
    cbn. now intros [<- | []]. }
  destruct (Z.to_int n) as [d | d]; cbn [DecimalString.NilZero.string_of_int].
  - right. now apply (Hu d).
  - change (chars_of (String "-" ?s)) with (45 :: chars_of s).
    intros [<- | Hin]; [now left | right; now apply (Hu d)].
Qed.

Lemma str_of_int_lacks (n : Z) (c : cp) :
  c <> 45 -> ascii_isdigit c = false -> lacks c (str_of_int n).
Proof.
  intros Hm Hd. apply In_lacks. intros [-> | Hc]%str_of_int_chars; [done | congruence].
Qed.

Lemma to_int_not_nil (n : Z) :
  Z.to_int n <> Decimal.Pos Decimal.Nil /\ Z.to_int n <> Decimal.Neg Decimal.Nil.
Proof.
  destruct n as [|p|p]; cbn; split; try done; intros [= Hp];
    now apply DecimalPos.Unsigned.to_uint_nonnil in Hp.
Qed.

Lemma str_of_int_inj (n n' : Z) : str_of_int n = str_of_int n' -> n = n'.
Proof.
  unfold str_of_int. intros Heq%chars_of_inj.
  apply DecimalZ.to_int_inj.
  destruct (to_int_not_nil n) as [H1 H2], (to_int_not_nil n') as [H1' H2'].
  apply (f_equal DecimalString.NilZero.int_of_string) in Heq.
  rewrite !DecimalString.NilZero.isi in Heq by done. now injection Heq.
Qed.

End IntegerTexts.

(** X19.  The text [_minutes_to_hours_str] writes for a number of minutes
    determines the number: two different numbers of minutes, negative
    ones too, never get the same text. *)
Theorem minutes_text_determines_minutes (m1 m2 : Z) :
  SimpleICSAnalyzer._minutes_to_hours_str m1 = SimpleICSAnalyzer._minutes_to_hours_str m2
  <-> m1 = m2.
Proof.
  split; [|now intros ->].
  unfold SimpleICSAnalyzer._minutes_to_hours_str. cbv zeta.
  pose proof (Z.div_mod m1 60 ltac:(lia)) as D1.
  pose proof (Z.div_mod m2 60 ltac:(lia)) as D2.
  assert (forall n, ~ In 104 (str_of_int n)) as Hh
    by (intros n; now apply lacks_In, str_of_int_lacks).
  change (utf8 "h") with [104]. change (utf8 "h ") with [104; 32].
  destruct (Z.eqb_spec (m1 mod 60) 0) as [R1 | R1],
           (Z.eqb_spec (m2 mod 60) 0) as [R2 | R2]; intros Heq.
  - apply app_inv_tail, str_of_int_inj in Heq. lia.
  - exfalso. change ([104; 32] ++ ?s) with (104 :: 32 :: s) in Heq.
    apply split_unique in Heq as [_ Heq]; [discriminate Heq | apply Hh..].
  - exfalso. change ([104; 32] ++ ?s) with (104 :: 32 :: s) in Heq.
    apply split_unique in Heq as [_ Heq]; [discriminate Heq | apply Hh..].
  - change ([104; 32] ++ ?s) with (104 :: 32 :: s) in Heq.
    apply split_unique in Heq as [Hhours Heq]; [|apply Hh..].
    injection Heq as Heq. apply app_inv_tail in Heq.
    apply str_of_int_inj in Hhours, Heq. lia.
Qed.

(** ** The two parsers on one title *)

Section OneParenthesis.

Lemma count_occ_lacks (c : cp) (s : str) : count_occ N.eq_dec s c = 0%nat -> lacks c s.
Proof. intros Hc. apply In_lacks. now apply count_occ_not_In in Hc. Qed.

(** In a title with one [(], no other piece of the short form has one. *)
Lemma single_paren_parts (P ws tg rest : str) :
  count_occ N.eq_dec (P ++ ws ++ [40] ++ tg ++ [41] ++ rest) 40 = 1%nat ->
  lacks 40 P /\ lacks 40 tg /\ lacks 40 rest.
Proof.
  rewrite !count_occ_app. cbn [count_occ].
  destruct (N.eq_dec 40 40) as [_|]; [|done].
  destruct (N.eq_dec 41 40) as [|_]; [done|].
  intros Hc.
  assert (forall a b c d : nat,
             (a + (b + (1 + (c + (0 + d)))) = 1 -> a = 0 /\ c = 0 /\ d = 0)%nat)
    as Harith by lia.
  apply Harith in Hc as (Ha & Hc' & Hd).
  split; [|split]; now apply count_occ_lacks.
Qed.

Lemma count_occ_strip (c : cp) (title : str) :
  isspace c = false ->
  count_occ N.eq_dec (strip title) c = count_occ N.eq_dec title c.
Proof.
  intros Hc. destruct (strip title) as [|x m] eqn:Hs.
  - symmetry. apply count_occ_not_In. intros Hin.
    assert (forallb isspace title = true) as Hall.
    { apply not_false_iff_true. intros Hb. now apply strip_nonempty in Hb. }
    rewrite forallb_forall in Hall. apply Hall in Hin. congruence.
  - rewrite <- Hs.
    destruct (strip_split title) as (l & r & Heq & Hl & Hr & _); [now rewrite Hs|].
    rewrite Heq at 2. rewrite !count_occ_app.
    assert (count_occ N.eq_dec l c = 0%nat) as Hl0
      by (apply count_occ_not_In; now apply spaces_lack).
    assert (count_occ N.eq_dec r c = 0%nat) as Hr0
      by (apply count_occ_not_In; now apply spaces_lack).
    assert (forall a b n : nat, a = 0 -> b = 0 -> (n = a + (n + b)))%nat as Harith by lia.
    now apply Harith.
Qed.

(** A title with one [(] that a short pattern of [texts] matches is not
    matched by a full pattern of other tags. *)
Lemma single_paren_other_full (tg' : str) gi gr (t : str) (m : caps) :
  count_occ N.eq_dec t 40 = 1%nat ->
  re_match (short_form (tag_WL_ECW 2)) t = Some m ->
  lacks 41 tg' -> ~ In tg' texts_WL_ECW ->
  re_match (full_form (Lit tg') gi gr) t = None.
Proof.
  intros Hc Hm Htg' Hnot.
  destruct (re_match (full_form (Lit tg') gi gr) t) as [m'|] eqn:Hf; [exfalso|done].
  apply (re_match_short_inv _ texts_WL_ECW _ (tagWL_inv 2)) in Hm
    as (P & ws & tg & rest & -> & _ & _ & Hws & Htg & _).
  apply (re_match_full_prefix _ [tg'] (fun _ c => c) (tagLit_inv tg')) in Hf
    as (P' & ws' & tg'' & rest' & Heq & _ & _ & _ & [<- | []]).
  destruct (single_paren_parts _ _ _ _ Hc) as (HP & Htg0 & Hrest).
  apply tag_other in Heq; [|done..|now apply texts_WL_rparen|done|done].
  now subst tg'.
Qed.

End OneParenthesis.

(** X20.  On a title with a single [(], [SimpleICSAnalyzer] returns what
    [ICSAnalyzer] returns whenever [ICSAnalyzer] parses the title.  (With
    two parentheses the two can differ: see the example below.) *)
Theorem parsers_agree_on_one_parenthesis (title : str) :
  count_occ N.eq_dec title 40 = 1%nat ->
  is_unparsed (ICSAnalyzer.parse_event_title title) = false ->
  SimpleICSAnalyzer.parse_event_title title = ICSAnalyzer.parse_event_title title.
Proof.
  intros Hc. rewrite <- (count_occ_strip 40 title) in Hc by reflexivity.
  unfold SimpleICSAnalyzer.parse_event_title, ICSAnalyzer.parse_event_title.
  cbv zeta. shape_patterns. set (t := strip title) in *.
  destruct (re_match (full_form (tag_WL_ECW 2) 3 4) t) as [m|]; [done|].
  destruct (re_match (short_form (tag_WL_ECW 2)) t) as [m|] eqn:Hs; [|done].
  intros _.
  rewrite !(single_paren_other_full _ 2 3 t m Hc Hs);
    try (apply In_lacks; vm_compute; intuition discriminate);
    try (unfold texts_WL_ECW; cbn [In]; vm_compute; intuition discriminate).
  cbn [SimpleICSAnalyzer.simple_loop]. now rewrite Hs.
Qed.

Lemma parsers_agree_on_one_parenthesis_witness :
  SimpleICSAnalyzer.parse_event_title (utf8 "Bazy Danych (W) nieznany format")
  = ICSAnalyzer.parse_event_title (utf8 "Bazy Danych (W) nieznany format").
Proof.
  apply parsers_agree_on_one_parenthesis; reflexivity.
Defined.

(** With a second parenthesis the parsers can differ: the full pattern of
    [SimpleICSAnalyzer] for E-W takes everything before its tag as the
    subject, while [ICSAnalyzer] stops at the first tag it knows. *)
Example parsers_differ_on_two_parentheses :
  SimpleICSAnalyzer.parse_event_title (utf8 "A (W) (E-W) - Prowadzący: X, Sala: Y")
  = (Some (utf8 "A (W)"), Some (utf8 "W"), Some (utf8 "X"), Some (utf8 "Y")) /\
  ICSAnalyzer.parse_event_title (utf8 "A (W) (E-W) - Prowadzący: X, Sala: Y")
  = (Some (utf8 "A"), Some (utf8 "W"), None, None).
Proof. split; vm_compute; reflexivity. Qed.
